(** * Station-Manager/lookup: the provider adapters, embedded and verified

    The Go packages [lookup/hamnut] (JSON adapter, prefix -> Country) and
    [lookup/qrz] (XML adapter, callsign -> ContactedStation) are embedded
    here as Rocq functions.  Go strings are byte strings ([string]) holding
    UTF-8 text; [strings.TrimSpace] trims the white space of Unicode, read
    off the bytes.  Collaborators that are not part of the repository (URL
    parsing, the HTTP transport, the JSON and XML decoders, the RFC 3339
    parser, the configuration service, the case mapping of package
    [strings]) are fields of an environment record [Env]. *)

From Stdlib Require Import String Ascii List ZArith Lia Bool.
From Stdlib Require Import DecimalString DecimalZ DecimalPos.
Import ListNotations.

Local Open Scope string_scope.
Local Open Scope Z_scope.

Set Implicit Arguments.
Local Set Warnings "-register-all".

(* ------------------------------------------------------------------ *)
(** ** Package [strings] *)

Module strings.

(** Strings are byte strings, as in Go; text is UTF-8. *)
Definition byte (c : ascii) : nat := nat_of_ascii c.

(** [unicode.IsSpace] on a rune of one byte: '\t', '\n', '\v', '\f', '\r',
    ' '. *)
Definition isSpace (c : ascii) : bool :=
  let n := nat_of_ascii c in
  (Nat.leb 9 n && Nat.leb n 13) || Nat.eqb n 32.

(** ... on a rune of two bytes, given by its UTF-8 bytes: U+0085 (C2 85)
    and U+00A0 (C2 A0). *)
Definition isSpace2 (a b : ascii) : bool :=
  Nat.eqb (byte a) 194 && (Nat.eqb (byte b) 133 || Nat.eqb (byte b) 160).

(** ... on a rune of three bytes: U+1680 (E1 9A 80), U+2000 to U+200A
    (E2 80 80 to E2 80 8A), U+2028, U+2029 and U+202F (E2 80 A8, A9, AF),
    U+205F (E2 81 9F), U+3000 (E3 80 80).  No rune of four bytes is white
    space, and a byte that starts no valid encoding reads as U+FFFD,
    which is not white space. *)
Definition isSpace3 (a b c : ascii) : bool :=
  (Nat.eqb (byte a) 225 && Nat.eqb (byte b) 154 && Nat.eqb (byte c) 128)
  || (Nat.eqb (byte a) 226 && Nat.eqb (byte b) 128
      && ((Nat.leb 128 (byte c) && Nat.leb (byte c) 138)
          || Nat.eqb (byte c) 168 || Nat.eqb (byte c) 169 || Nat.eqb (byte c) 175))
  || (Nat.eqb (byte a) 226 && Nat.eqb (byte b) 129 && Nat.eqb (byte c) 159)
  || (Nat.eqb (byte a) 227 && Nat.eqb (byte b) 128 && Nat.eqb (byte c) 128).

Definition isEmpty (s : string) : bool :=
  match s with EmptyString => true | String _ _ => false end.

Section Runes.

(** The tests for a white-space rune of one, two and three bytes, on the
    bytes in the order they are met. *)
Variable sp1 : ascii -> bool.
Variable sp2 : ascii -> ascii -> bool.
Variable sp3 : ascii -> ascii -> ascii -> bool.

(** Drop the white-space runes [s] starts with. *)
Fixpoint trimRunes (s : string) : string :=
  match s with
  | EmptyString => EmptyString
  | String a s1 =>
      if sp1 a then trimRunes s1 else
      match s1 with
      | EmptyString => s
      | String b s2 =>
          if sp2 a b then trimRunes s2 else
          match s2 with
          | EmptyString => s
          | String c s3 => if sp3 a b c then trimRunes s3 else s
          end
      end
  end.

End Runes.

(** The bytes of [s], last one first. *)
Fixpoint reverse (s : string) : string :=
  match s with
  | EmptyString => EmptyString
  | String c s' => reverse s' ++ String c EmptyString
  end.

(** [strings.TrimLeftFunc(s, unicode.IsSpace)]: the rune decoded at the
    front is white space exactly when the string starts with its
    encoding. *)
Definition trimLeft (s : string) : string := trimRunes isSpace isSpace2 isSpace3 s.

(** [strings.TrimRightFunc(s, unicode.IsSpace)]: the rune decoded at the
    end is white space exactly when the string ends with its encoding;
    the bytes are met last one first. *)
Definition trimRight (s : string) : string :=
  reverse (trimRunes isSpace (fun b a => isSpace2 a b) (fun c b a => isSpace3 a b c)
             (reverse s)).

(** [strings.TrimSpace]: white space trimmed at the front, then at the end
    (Go's loops over leading and trailing ASCII bytes are a fast path to
    the same result). *)
Definition TrimSpace (s : string) : string := trimRight (trimLeft s).

(** [strings.Contains s substr]. *)
Fixpoint Contains (s substr : string) : bool :=
  if String.prefix substr s then true
  else match s with
       | EmptyString => false
       | String _ s' => Contains s' substr
       end.

(** [strings.Join elems sep]. *)
Definition Join (elems : list string) (sep : string) : string :=
  String.concat sep elems.

(** [s[len(s)-n:]] for [n <= len(s)]. *)
Definition suffix (n : nat) (s : string) : string :=
  String.substring (String.length s - n) n s.

End strings.

(** [strconv.Itoa] / the [%d] verb. *)
Definition Itoa (n : Z) : string := NilZero.string_of_int (Z.to_int n).

(* ------------------------------------------------------------------ *)
(** ** Package [errors] (Station-Manager/errors, as the adapters use it)

    [errors.New(op)] starts a detailed error; [.Msg]/[.Msgf]/[.Errorf] set its
    message, [.Err] (and the [%w] verb) set its wrapped cause.  [ErrNotFound]
    is the package's sentinel; [External] stands for an error value made by a
    collaborator (URL parser, transport, decoder, configuration service). *)

Module errors.

Inductive error : Type :=
| ErrNotFound
| External (text : string)
| Detailed (op : string) (msg : string) (cause : option error).

(** [err.Error()]. *)
Definition Error (e : error) : string :=
  match e with
  | ErrNotFound => "not found"
  | External text => text
  | Detailed _ msg _ => msg
  end.

(** [errors.Is(err, target)] for a target that is a sentinel or an
    [External] value: walk the chain of wrapped causes. *)
Fixpoint Is (e target : error) : bool :=
  match e, target with
  | ErrNotFound, ErrNotFound => true
  | External a, External b => String.eqb a b
  | Detailed _ _ (Some c), _ => Is c target
  | _, _ => false
  end.

(** Does some error of the chain carry exactly the message [m]? *)
Fixpoint carries (m : string) (e : error) : bool :=
  match e with
  | Detailed _ msg cause =>
      String.eqb msg m ||
      match cause with Some c => carries m c | None => false end
  | _ => String.eqb (Error e) m
  end.

End errors.
Import errors.

(** The spec's error taxonomy, read off the errors the adapters build. *)
Definition NotInitializedError (e : error) : Prop :=
  exists op, e = Detailed op "service is not initialized" None.

Definition InvalidArgumentError (e : error) : Prop :=
  exists op, e = Detailed op "callsign cannot be empty" None.

Definition NotFoundError (e : error) : Prop := Is e ErrNotFound = true.

(** An upstream error: built by the adapter, not a not-found, and with the
    diagnostic text [m] somewhere in its chain. *)
Definition UpstreamError (m : string) (e : error) : Prop :=
  Is e ErrNotFound = false /\ carries m e = true.

(** A Go [(T, error)] pair coming from a collaborator. *)
Inductive result (A : Type) : Type :=
| Ok (a : A)
| Err (e : error).
Arguments Ok {A} a.
Arguments Err {A} e.

(* ------------------------------------------------------------------ *)
(** ** Package [types]: the configuration and the canonical records *)

Module types.

(** [types.LookupConfig].  The JSON adapter and the XML adapter's
    [Initialize] read the timeout as [HttpTimeoutSec]; the XML adapter's
    [validateConfig] reads it as [HttpTimeout]. *)
Record LookupConfig : Type := mkLookupConfig {
  Enabled : bool;
  URL : string;
  UserAgent : string;
  HttpTimeoutSec : Z;
  HttpTimeout : Z;
  Username : string;
  Password : string
}.

Definition HamNutLookupServiceName : string := "hamnut".
Definition QrzLookupServiceName : string := "qrz".

Module Country.
Record t : Type := mk {
  Name : string;
  Prefix : string;
  Ccode : string;
  Continent : string;
  CQZone : string;
  ITUZone : string;
  DXCC : string;
  TimeOffset : string
}.
(** [types.Country{}]. *)
Definition zero : t := mk "" "" "" "" "" "" "" "".
End Country.

Module ContactedStation.
Record t : Type := mk {
  Call : string;
  Name : string;
  Address : string;
  QTH : string;
  Country : string;
  Gridsquare : string;
  CQZ : string;
  ITUZ : string;
  DXCC : string;
  Email : string;
  EqCall : string;
  Web : string;
  Lat : string;
  Lon : string;
  ContactedOp : string
}.
(** [types.ContactedStation{}]. *)
Definition zero : t := mk "" "" "" "" "" "" "" "" "" "" "" "" "" "" "".
(** [types.ContactedStation{Call: c}]. *)
Definition onlyCall (c : string) : t := mk c "" "" "" "" "" "" "" "" "" "" "" "" "" "".
End ContactedStation.

End types.
Import types.

(* ------------------------------------------------------------------ *)
(** ** The collaborators: URL, HTTP, logging, decoders *)

(** [context.Context]: the background context or a derived one, which may
    already be cancelled or carry a deadline. *)
Inductive Context : Type :=
| Background
| Derived (cancelled : bool) (deadline : option Z).

(** A parsed [url.URL]; [Query] is the decoded query string, which
    [q.Set] edits and [q.Encode] writes back. *)
Record URLValue : Type := mkURL {
  Scheme : string;
  Host : string;
  Path : string;
  Query : list (string * string)
}.

(** [url.Values.Set]: the key gets exactly this value. *)
Fixpoint Set_ (q : list (string * string)) (k v : string) : list (string * string) :=
  match q with
  | [] => [(k, v)]
  | (k', v') :: q' =>
      if String.eqb k' k
      then (k, v) :: filter (fun kv => negb (String.eqb (fst kv) k)) q'
      else (k', v') :: Set_ q' k v
  end.

(** [url.Values.Get]. *)
Fixpoint Get (q : list (string * string)) (k : string) : string :=
  match q with
  | [] => ""
  | (k', v') :: q' => if String.eqb k' k then v' else Get q' k
  end.

Definition withQuery (u : URLValue) (q : list (string * string)) : URLValue :=
  mkURL (Scheme u) (Host u) (Path u) q.

Record Request : Type := mkRequest {
  rq_ctx : Context;
  rq_url : URLValue;
  rq_header : list (string * string)
}.

(** What came back: the status line, the bytes [io.ReadAll] delivers and
    the error it may deliver with them. *)
Record Response : Type := mkResponse {
  StatusCode : Z;
  Body : string;
  ReadErr : option error
}.

(** [*http.Client], as [utils.NewHTTPClient] builds it. *)
Record Client : Type := mkClient { Timeout : Z }.

Definition NewHTTPClient (timeout : Z) : Client := mkClient timeout.

(** [time.Second], in nanoseconds. *)
Definition Second : Z := 1000000000.

Inductive Logger : Type := TheLogger.

(** What a call leaves behind in the world. *)
Inductive event : Type :=
| Sent (c : Client) (r : Request)
| Info (msg : string).

Definition isSent (e : event) : bool :=
  match e with Sent _ _ => true | Info _ => false end.

(** The requests among the events of a run. *)
Definition outbound (evs : list event) : list event := filter isSent evs.

(** A Go call either returns (leaving events behind) or panics. *)
Inductive outcome (A : Type) : Type :=
| Done (a : A) (evs : list event)
| Panic (why : string).
Arguments Done {A} a evs.
Arguments Panic {A} why.

Definition nilDeref : string := "invalid memory address or nil pointer dereference".

(** The network-facing collaborators both adapters call. *)
Record Net : Type := mkNet {
  (** [url.Parse] *)
  url_Parse : string -> result URLValue;
  (** [http.NewRequestWithContext(ctx, GET, u.String(), nil)]: its error, if any *)
  http_NewRequest : Context -> URLValue -> option error;
  (** [client.Do(req)] *)
  client_Do : Client -> Request -> result Response
}.

(** [*config.Service]: its [LookupServiceConfig] method. *)
Definition ConfigSvc : Type := string -> result LookupConfig.

(** 64-bit two's-complement wrap-around ([int64], [time.Duration]). *)
Definition wrap64 (z : Z) : Z := (z + 2 ^ 63) mod 2 ^ 64 - 2 ^ 63.

(* ------------------------------------------------------------------ *)
(** ** Package [hamnut]: the JSON adapter *)

Module hamnut.

Definition ServiceName : string := HamNutLookupServiceName.

(** Modelled from the spec: the declaration of [PrefixLookupResponse] (the
    typed decode target of the JSON body) is not among the sources; its
    fields are the ones [unmarshalResponse] reads, with the Go types those
    reads fix ([Found] is tested with [!], the zones are compared with [0]
    and passed to [strconv.Itoa]). *)
Record PrefixLookupResponse : Type := mkResp {
  Found : bool;
  CountryName : string;
  Prefix : string;
  CountryCode : string;
  Continent : string;
  PrimaryDXCCPrefix : string;
  CQZone : Z;
  ITUZone : Z;
  TimeOffset : string;
  LocalTime : string
}.

Record Env : Type := mkEnv {
  net : Net;
  (** [json.Unmarshal(body, &resp)] on a zero [resp] *)
  json_Unmarshal : string -> result PrefixLookupResponse;
  (** [time.Parse(time.RFC3339, v)] followed by [t.Zone()]: the zone offset
      in seconds east of UTC, or [None] when the parse fails *)
  time_Parse_RFC3339 : string -> option Z
}.

Record Service : Type := mkService {
  ConfigService : option ConfigSvc;
  LoggerService : option Logger;
  Config : option LookupConfig;
  client : option Client;
  isInitialized : bool;
  (** [sync.Once]: has [Do] already run a function? *)
  initOnce : bool
}.

(** [NewService]. *)
Definition NewService (logger : option Logger) (cfgSvc : option ConfigSvc)
  (cfg : option LookupConfig) (cl : option Client) : Service :=
  mkService cfgSvc logger cfg cl false false.

Definition with_Config (c : option LookupConfig) (s : Service) : Service :=
  mkService (ConfigService s) (LoggerService s) c (client s) (isInitialized s) (initOnce s).
Definition with_client (c : option Client) (s : Service) : Service :=
  mkService (ConfigService s) (LoggerService s) (Config s) c (isInitialized s) (initOnce s).
Definition with_isInitialized (b : bool) (s : Service) : Service :=
  mkService (ConfigService s) (LoggerService s) (Config s) (client s) b (initOnce s).
Definition with_initOnce (b : bool) (s : Service) : Service :=
  mkService (ConfigService s) (LoggerService s) (Config s) (client s) (isInitialized s) b.

Definition with_URL (u : string) (c : LookupConfig) : LookupConfig :=
  mkLookupConfig (Enabled c) u (UserAgent c) (HttpTimeoutSec c) (HttpTimeout c)
    (Username c) (Password c).
Definition with_UserAgent (a : string) (c : LookupConfig) : LookupConfig :=
  mkLookupConfig (Enabled c) (URL c) a (HttpTimeoutSec c) (HttpTimeout c)
    (Username c) (Password c).

(** [time.Duration] units. *)
Definition Minute : Z := 60 * Second.
Definition Hour : Z := 60 * Minute.

(** The sign-HH:MM rendering of a zone offset, lines 50-70 of
    [unmarshalResponse].  [offset.Hours()] and [offset.Minutes()] are
    floats truncated by [int(...)]; on a whole number of seconds that is
    the truncated integer quotient. *)
Definition formatOffset (offsetSec : Z) : string :=
  let offset := wrap64 (offsetSec * Second) in
  let sign := if offset <? 0 then "-" else "+" in
  let offset := if offset <? 0 then wrap64 (- offset) else offset in
  let hours := Z.quot offset Hour in
  let minutes := Z.rem (Z.quot offset Minute) 60 in
  let timeOffset :=
    if hours <? 10 then sign ++ "0" ++ Itoa hours else sign ++ Itoa hours in
  if minutes <? 10
  then timeOffset ++ ":0" ++ Itoa minutes
  else timeOffset ++ ":" ++ Itoa minutes.

Section WithEnv.
Variable E : Env.

(** The time-offset part of [unmarshalResponse] (lines 46-75). *)
Definition resolveTimeOffset (resp : PrefixLookupResponse) : string :=
  if negb (strings.isEmpty (TimeOffset resp)) then TimeOffset resp
  else if negb (strings.isEmpty (LocalTime resp)) then
    match time_Parse_RFC3339 E (LocalTime resp) with
    | Some offsetSec => formatOffset offsetSec
    | None =>
        if Nat.leb 6 (String.length (LocalTime resp))
        then strings.suffix 6 (LocalTime resp)
        else ""
    end
  else "".

(** [unmarshalResponse], the typed decoder of [internal.go]. *)
Definition unmarshalResponse (body : string) : Country.t * option error :=
  let op := "hamnut.Service.unmarshalResponse" in
  let country := Country.zero in
  match json_Unmarshal E body with
  | Err err => (country, Some (Detailed op "decoding Hamnut response" (Some err)))
  | Ok resp =>
      if negb (Found resp) then
        (country,
         Some (Detailed op "prefix not found by Hamnut (found=false)" (Some ErrNotFound)))
      else
        (Country.mk (CountryName resp) (Prefix resp) (CountryCode resp)
           (Continent resp)
           (if negb (CQZone resp =? 0) then Itoa (CQZone resp) else "")
           (if negb (ITUZone resp =? 0) then Itoa (ITUZone resp) else "")
           (PrimaryDXCCPrefix resp)
           (resolveTimeOffset resp),
         None)
  end.

(** [validateConfig]: it trims the URL and the user agent in place, so it
    returns the service along with the error. *)
Definition validateConfig (op : string) (s : Service) : Service * option error :=
  match Config s with
  | None => (s, Some (Detailed op "service config is not set" None))
  | Some cfg =>
      if negb (Enabled cfg) then (s, None)
      else
        let cfg := with_URL (strings.TrimSpace (URL cfg)) cfg in
        let s := with_Config (Some cfg) s in
        if strings.isEmpty (URL cfg) then
          (s, Some (Detailed op "lookup service URL cannot be empty" None))
        else
          let bad cause := (s, Some (Detailed op "lookup service URL is invalid" cause)) in
          match url_Parse (net E) (URL cfg) with
          | Err err => bad (Some err)
          | Ok u =>
              if strings.isEmpty (Scheme u) || strings.isEmpty (Host u) then bad None
              else
                let cfg := with_UserAgent (strings.TrimSpace (UserAgent cfg)) cfg in
                let s := with_Config (Some cfg) s in
                if strings.isEmpty (UserAgent cfg) then
                  (s, Some (Detailed op "lookup service user agent cannot be empty" None))
                else if HttpTimeoutSec cfg <=? 0 then
                  (s, Some (Detailed op "lookup service timeout must be greater than zero" None))
                else (s, None)
          end
  end.

(** The configuration step of the function below: an injected [Config]
    is kept, else the configuration service is asked. *)
Definition resolveConfig (op : string) (s : Service) : result Service :=
  match Config s with
  | Some _ => Ok s
  | None =>
      match ConfigService s with
      | None => Err (Detailed op "application config has not been set/injected" None)
      | Some cs =>
          match cs ServiceName with
          | Err err => Err (Detailed op "getting lookup service config" (Some err))
          | Ok cfg => Ok (with_Config (Some cfg) s)
          end
      end
  end.

(** The function [Initialize] hands to [initOnce.Do]; its first component
    is the [initErr] it leaves in the caller's local variable. *)
Definition initBody (s : Service) : option error * Service * list event :=
  let op := "hamnut.Service.Initialize" in
  match LoggerService s with
  | None => (Some (Detailed op "logger service has not been set/injected" None), s, [])
  | Some _ =>
      match resolveConfig op s with
      | Err e => (Some e, s, [])
      | Ok s =>
          match validateConfig op s with
          | (s, Some err) => (Some err, s, [])
          | (s, None) =>
              let '(s, evs) :=
                match client s, Config s with
                | None, Some cfg =>
                    if Enabled cfg
                    then (with_client
                            (Some (NewHTTPClient (wrap64 (HttpTimeoutSec cfg * Second)))) s,
                          [])
                    else (s, [Info "Hamnut callsign/prefix lookup is disabled in the config"])
                | _, _ => (s, [])
                end in
              (None, with_isInitialized true s, evs)
          end
      end
  end.

(** [Initialize]: the fast path on the ready flag, then the one-shot gate.
    [initErr] starts as nil in every call; a [Do] that finds the gate
    already used runs nothing and leaves it nil. *)
Definition Initialize (s : Service) : option error * Service * list event :=
  if isInitialized s then (None, s, [])
  else if initOnce s then (None, s, [])
  else initBody (with_initOnce true s).

(** The request of [LookupWithContext]: the base URL with [prefix] set
    (lines 137-139), then the two headers (lines 146-147). *)
Definition lookupURL (u : URLValue) (callsign : string) : URLValue :=
  withQuery u (Set_ (Query u) "prefix" callsign).

Definition lookupRequest (cfg : LookupConfig) (ctx : Context) (u : URLValue) : Request :=
  mkRequest ctx u
    (Set_ (Set_ [] "User-Agent" (UserAgent cfg)) "Accept" "application/json").

(** [LookupWithContext]; a nil context is [None]. *)
Definition LookupWithContext (s : Service) (ctx : option Context) (callsign : string)
  : outcome (Country.t * option error) :=
  let op := "hamnut.Service.LookupWithContext" in
  let ctx := match ctx with None => Background | Some c => c end in
  let emptyRetVal := Country.zero in
  if negb (isInitialized s) then
    Done (emptyRetVal, Some (Detailed op "service is not initialized" None)) []
  else
  match Config s with
  | None => Done (emptyRetVal, Some (Detailed op "service config is not set" None)) []
  | Some cfg =>
  let callsign := strings.TrimSpace callsign in
  if negb (Enabled cfg) then
    Done (Country.mk callsign "" "" "" "" "" "" "", None)
      match LoggerService s with
      | Some _ => [Info "Hamnut callsign/prefix lookup is disabled in the config"]
      | None => []
      end
  else
  match client s with
  | None => Done (emptyRetVal, Some (Detailed op "http client is not configured" None)) []
  | Some cl =>
  if strings.isEmpty callsign then
    Done (emptyRetVal, Some (Detailed op "callsign cannot be empty" None)) []
  else
  match url_Parse (net E) (URL cfg) with
  | Err err => Done (emptyRetVal, Some (Detailed op "invalid Hamnut base URL" (Some err))) []
  | Ok u =>
  let u := lookupURL u callsign in
  match http_NewRequest (net E) ctx u with
  | Some err =>
      Done (emptyRetVal, Some (Detailed op "Failed to create HTTP GET request" (Some err))) []
  | None =>
  let req := lookupRequest cfg ctx u in
  match client_Do (net E) cl req with
  | Err err =>
      Done (emptyRetVal, Some (Detailed op "Failed to perform HTTP GET request" (Some err)))
        [Sent cl req]
  | Ok resp =>
  if StatusCode resp =? 404 then
    Done (emptyRetVal, Some (Detailed op "Prefix not found by Hamnut" (Some ErrNotFound)))
      [Sent cl req]
  else if (StatusCode resp <? 200) || (300 <=? StatusCode resp) then
    Done (emptyRetVal,
          Some (Detailed op
                  ("Service returned unexpected status " ++ Itoa (StatusCode resp)
                   ++ ": " ++ Body resp) None))
      [Sent cl req]
  else
  match ReadErr resp with
  | Some err =>
      Done (emptyRetVal,
            Some (Detailed op ("Failed to read response body: " ++ Error err) (Some err)))
        [Sent cl req]
  | None =>
  match unmarshalResponse (Body resp) with
  | (_, Some err) =>
      Done (emptyRetVal, Some (Detailed op "Failed to unmarshal response body" (Some err)))
        [Sent cl req]
  | (country, None) => Done (country, None) [Sent cl req]
  end end end end end end end.

(** [Lookup]. *)
Definition Lookup (s : Service) (callsign : string) : outcome (Country.t * option error) :=
  LookupWithContext s (Some Background) callsign.

(** The instance is ready and enabled and has a transport client. *)
Definition ready (s : Service) (cfg : LookupConfig) (cl : Client) : Prop :=
  isInitialized s = true /\ Config s = Some cfg /\ Enabled cfg = true /\
  client s = Some cl.

(** The call [LookupWithContext(ctx, callsign)] on [s] gets as far as
    sending [req] through [cl], and the server answers [resp]. *)
Definition answered (s : Service) (ctx : option Context) (callsign : string)
  (cl : Client) (req : Request) (resp : Response) : Prop :=
  exists cfg u,
    ready s cfg cl /\
    strings.TrimSpace callsign <> "" /\
    url_Parse (net E) (URL cfg) = Ok u /\
    let ctx := match ctx with None => Background | Some c => c end in
    let u := lookupURL u (strings.TrimSpace callsign) in
    http_NewRequest (net E) ctx u = None /\
    req = lookupRequest cfg ctx u /\
    client_Do (net E) cl req = Ok resp.

End WithEnv.

End hamnut.

(* ------------------------------------------------------------------ *)
(** ** Package [qrz]: the XML adapter *)

Module qrz.

Definition ServiceName : string := QrzLookupServiceName.

(** [Callsign]: the sub-elements of the [Callsign] element that
    [unmarshalResponse] reads (the other sub-elements of the struct are
    decoded and never read). *)
Module Callsign.
Record t : Type := mk {
  Call : string;
  Dxcc : string;
  Fname : string;
  Name : string;
  Addr1 : string;
  Addr2 : string;
  State : string;
  Zip : string;
  Country : string;
  Lat : string;
  Lon : string;
  Grid : string;
  PCall : string;
  Email : string;
  URL : string;
  Cqzone : string;
  Ituzone : string;
  Attn : string;
  Nickname : string;
  NameFmt : string
}.
Definition zero : t := mk "" "" "" "" "" "" "" "" "" "" "" "" "" "" "" "" "" "" "" "".
End Callsign.

Module Session.
Record t : Type := mk {
  Key : string;
  Count : Z;
  SubExp : string;
  GMTime : string;
  Remark : string;
  Error : string
}.
Definition zero : t := mk "" 0 "" "" "" "".
End Session.

Record Database : Type := mkDatabase {
  Version : string;
  Callsign_ : Callsign.t;
  Session_ : Session.t
}.

Record Env : Type := mkEnv {
  net : Net;
  (** [xml.Unmarshal(body, &db)] on a zero [db] *)
  xml_Unmarshal : string -> result Database;
  (** does a method call on a nil [*logging.Service] panic? *)
  nilLoggerPanics : bool;
  (** [strings.ToUpper] and [strings.ToLower]: they follow the Unicode case
      tables, which are not part of these sources *)
  ToUpper : string -> string;
  ToLower : string -> string
}.

Record Service : Type := mkService {
  ConfigService : option ConfigSvc;
  LoggerService : option Logger;
  Config : option LookupConfig;
  client : option Client;
  isInitialized : bool;
  (** [sync.Once]: has [Do] already run a function? *)
  initOnce : bool;
  sessionKey : string
}.

(** [&Service{}]. *)
Definition zeroService : Service := mkService None None None None false false "".

Definition with_Config (c : option LookupConfig) (s : Service) : Service :=
  mkService (ConfigService s) (LoggerService s) c (client s) (isInitialized s)
    (initOnce s) (sessionKey s).
Definition with_client (c : option Client) (s : Service) : Service :=
  mkService (ConfigService s) (LoggerService s) (Config s) c (isInitialized s)
    (initOnce s) (sessionKey s).
Definition with_isInitialized (b : bool) (s : Service) : Service :=
  mkService (ConfigService s) (LoggerService s) (Config s) (client s) b
    (initOnce s) (sessionKey s).
Definition with_initOnce (b : bool) (s : Service) : Service :=
  mkService (ConfigService s) (LoggerService s) (Config s) (client s) (isInitialized s)
    b (sessionKey s).
Definition with_sessionKey (k : string) (s : Service) : Service :=
  mkService (ConfigService s) (LoggerService s) (Config s) (client s) (isInitialized s)
    (initOnce s) k.

Definition with_Enabled (b : bool) (c : LookupConfig) : LookupConfig :=
  mkLookupConfig b (types.URL c) (UserAgent c) (HttpTimeoutSec c) (HttpTimeout c)
    (Username c) (Password c).
Definition with_URL (u : string) (c : LookupConfig) : LookupConfig :=
  mkLookupConfig (Enabled c) u (UserAgent c) (HttpTimeoutSec c) (HttpTimeout c)
    (Username c) (Password c).
Definition with_UserAgent (a : string) (c : LookupConfig) : LookupConfig :=
  mkLookupConfig (Enabled c) (types.URL c) a (HttpTimeoutSec c) (HttpTimeout c)
    (Username c) (Password c).

(** The closures of [unmarshalResponse]. *)
Definition trim (v : string) : string := strings.TrimSpace v.

Fixpoint cleaned (parts : list string) : list string :=
  match parts with
  | [] => []
  | part :: rest =>
      let part := trim part in
      if negb (strings.isEmpty part) then part :: cleaned rest else cleaned rest
  end.

Definition joinParts (parts : list string) : string :=
  strings.Join (cleaned parts) ", ".

Definition buildName (cs : Callsign.t) : string :=
  let v := trim (Callsign.NameFmt cs) in
  if negb (strings.isEmpty v) then v
  else
    let pieces : list string := [] in
    let pieces :=
      let v := trim (Callsign.Fname cs) in
      if negb (strings.isEmpty v) then (pieces ++ [v])%list else pieces in
    let pieces :=
      let v := trim (Callsign.Name cs) in
      if negb (strings.isEmpty v) then (pieces ++ [v])%list else pieces in
    if Nat.ltb 0 (List.length pieces) then strings.Join pieces " "
    else trim (Callsign.Nickname cs).

Section WithEnv.
Variable E : Env.

(** The mapping of a decoded [Callsign] element (lines 142-156). *)
Definition mapStation (call : string) (cs : Callsign.t) : ContactedStation.t :=
  ContactedStation.mk
    call
    (buildName cs)
    (joinParts [Callsign.Addr1 cs; joinParts [Callsign.Addr2 cs; Callsign.State cs];
                Callsign.Zip cs; Callsign.Country cs])
    (joinParts [Callsign.Addr2 cs; Callsign.State cs])
    (trim (Callsign.Country cs))
    (ToUpper E (trim (Callsign.Grid cs)))
    (trim (Callsign.Cqzone cs))
    (trim (Callsign.Ituzone cs))
    (trim (Callsign.Dxcc cs))
    (trim (Callsign.Email cs))
    (ToUpper E (trim (Callsign.PCall cs)))
    (trim (Callsign.URL cs))
    (trim (Callsign.Lat cs))
    (trim (Callsign.Lon cs))
    (trim (Callsign.Attn cs)).

(** What [unmarshalResponse] does with the decoded envelope. *)
Definition classify (db : Database) : ContactedStation.t * option error :=
  let op := "qrz.Service.unmarshalResponse" in
  let station := ContactedStation.zero in
  let sessionErr := strings.TrimSpace (Session.Error (Session_ db)) in
  if negb (strings.isEmpty sessionErr) then
    let lower := ToLower E sessionErr in
    if strings.Contains lower "not found"
    then (station, Some (Detailed op sessionErr (Some ErrNotFound)))
    else (station, Some (Detailed op sessionErr None))
  else
    let cs := Callsign_ db in
    let call := ToUpper E (trim (Callsign.Call cs)) in
    if strings.isEmpty call then
      (station,
       Some (Detailed op "callsign not present in QRZ response" (Some ErrNotFound)))
    else (mapStation call cs, None).

(** [unmarshalResponse]. *)
Definition unmarshalResponse (body : string) : ContactedStation.t * option error :=
  let op := "qrz.Service.unmarshalResponse" in
  match xml_Unmarshal E body with
  | Err err =>
      (ContactedStation.zero,
       Some (Detailed op "failed to unmarshal QRZ XML response" (Some err)))
  | Ok db => classify db
  end.

(** The request of [requestAndSetSessionKey]: the base URL with
    [username], [password] and [agent] set (lines 22-26), built without a
    context, then the two headers (lines 34-35). *)
Definition sessionURL (cfg : LookupConfig) (u : URLValue) : URLValue :=
  withQuery u (Set_ (Set_ (Set_ (Query u) "username" (Username cfg))
                       "password" (Password cfg)) "agent" (UserAgent cfg)).

Definition sessionRequest (cfg : LookupConfig) (u : URLValue) : Request :=
  mkRequest Background u
    (Set_ (Set_ [] "User-Agent" (UserAgent cfg)) "Accept" "application/xml").

(** [requestAndSetSessionKey], called with [s.Config] and [s.client] set. *)
Definition requestAndSetSessionKey (s : Service) (cfg : LookupConfig) (cl : Client)
  : Service * option error * list event :=
  let op := "qrz.Service.fetchAndSetSessionKey" in
  match url_Parse (net E) (types.URL cfg) with
  | Err err => (s, Some (Detailed op "invalid QRZ base URL" (Some err)), [])
  | Ok u =>
  let u := sessionURL cfg u in
  match http_NewRequest (net E) Background u with
  | Some err =>
      (s, Some (Detailed op ("Failed to create HTTP GET request: " ++ Error err) (Some err)),
       [])
  | None =>
  let req := sessionRequest cfg u in
  match client_Do (net E) cl req with
  | Err err =>
      (s, Some (Detailed op ("Failed to perform HTTP GET request: " ++ Error err) (Some err)),
       [Sent cl req])
  | Ok resp =>
  if (StatusCode resp <? 200) || (300 <=? StatusCode resp) then
    (s, Some (Detailed op
                ("QRZ.com returned unexpected status " ++ Itoa (StatusCode resp)
                 ++ ": " ++ Body resp) None),
     [Sent cl req])
  else
  match ReadErr resp with
  | Some err =>
      (s, Some (Detailed op ("Failed to read response body: " ++ Error err) (Some err)),
       [Sent cl req])
  | None =>
  match xml_Unmarshal E (Body resp) with
  | Err err =>
      (s, Some (Detailed op ("Failed to unmarshal XML: " ++ Error err) (Some err)),
       [Sent cl req])
  | Ok db =>
  if negb (strings.isEmpty (Session.Error (Session_ db))) then
    (s, Some (Detailed op ("QRZ.com returned error: " ++ Session.Error (Session_ db)) None),
     [Sent cl req])
  else if strings.isEmpty (Session.Key (Session_ db)) then
    (s, Some (Detailed op "QRZ.com returned missing session key" None), [Sent cl req])
  else
    (with_sessionKey (Session.Key (Session_ db)) s, None, [Sent cl req])
  end end end end end.

(** [validateConfig]; unlike the JSON adapter's it also validates a
    disabled configuration. *)
Definition validateConfig (op : string) (s : Service) : Service * option error :=
  match Config s with
  | None => (s, Some (Detailed op "service config is not set" None))
  | Some cfg =>
      let cfg := with_URL (strings.TrimSpace (types.URL cfg)) cfg in
      let s := with_Config (Some cfg) s in
      if strings.isEmpty (types.URL cfg) then
        (s, Some (Detailed op "lookup service URL cannot be empty" None))
      else
        let bad cause := (s, Some (Detailed op "lookup service URL is invalid" cause)) in
        match url_Parse (net E) (types.URL cfg) with
        | Err err => bad (Some err)
        | Ok u =>
            if strings.isEmpty (Scheme u) || strings.isEmpty (Host u) then bad None
            else
              let cfg := with_UserAgent (strings.TrimSpace (UserAgent cfg)) cfg in
              let s := with_Config (Some cfg) s in
              if strings.isEmpty (UserAgent cfg) then
                (s, Some (Detailed op "lookup service user agent cannot be empty" None))
              else if HttpTimeout cfg <=? 0 then
                (s, Some (Detailed op "lookup service timeout must be greater than zero" None))
              else (s, None)
        end
  end.

(** The configuration step of the function below: an injected [Config]
    is kept, else the configuration service is asked. *)
Definition resolveConfig (op : string) (s : Service) : result Service :=
  match Config s with
  | Some _ => Ok s
  | None =>
      match ConfigService s with
      | None => Err (Detailed op "application config has not been set/injected" None)
      | Some cs =>
          match cs ServiceName with
          | Err err => Err (Detailed op "getting lookup service config" (Some err))
          | Ok cfg => Ok (with_Config (Some cfg) s)
          end
      end
  end.

(** The function [Initialize] hands to [initOnce.Do]; its first component
    is the [initErr] it leaves in the caller's local variable. *)
Definition initBody (s : Service) : option error * Service * list event :=
  let op := "qrz.Service.Initialize" in
  match LoggerService s with
  | None => (Some (Detailed op "logger service has not been set/injected" None), s, [])
  | Some _ =>
      match resolveConfig op s with
      | Err e => (Some e, s, [])
      | Ok s =>
          match validateConfig op s with
          | (s, Some err) => (Some err, s, [])
          | (s, None) =>
              match client s, Config s with
              | None, Some cfg =>
                  if Enabled cfg then
                    let cl := NewHTTPClient (wrap64 (HttpTimeoutSec cfg * Second)) in
                    let s := with_client (Some cl) s in
                    match requestAndSetSessionKey s cfg cl with
                    | (s, Some err, evs) =>
                        (* Any error here and we should disable the service *)
                        (Some err, with_Config (Some (with_Enabled false cfg)) s, evs)
                    | (s, None, evs) => (None, with_isInitialized true s, evs)
                    end
                  else
                    (None, with_isInitialized true s,
                     [Info "QRZ.com callsign lookup is disabled in the config"])
              | _, _ => (None, with_isInitialized true s, [])
              end
          end
      end
  end.

(** [Initialize]: the fast path on the ready flag, then the one-shot gate.
    [initErr] starts as nil in every call; a [Do] that finds the gate
    already used runs nothing and leaves it nil. *)
Definition Initialize (s : Service) : option error * Service * list event :=
  if isInitialized s then (None, s, [])
  else if initOnce s then (None, s, [])
  else initBody (with_initOnce true s).

(** A first [Initialize] on [s] gets as far as the session acquisition:
    the configuration is resolved and valid, it is enabled, no client was
    injected; [cl] is the client it builds and [s1] the instance handed to
    [requestAndSetSessionKey]. *)
Definition acquiring (s s1 : Service) (cfg : LookupConfig) (cl : Client) : Prop :=
  isInitialized s = false /\ initOnce s = false /\ LoggerService s <> None /\
  exists s0 sv,
    resolveConfig "qrz.Service.Initialize" (with_initOnce true s) = Ok s0 /\
    validateConfig "qrz.Service.Initialize" s0 = (sv, None) /\
    client sv = None /\ Config sv = Some cfg /\ Enabled cfg = true /\
    cl = NewHTTPClient (wrap64 (HttpTimeoutSec cfg * Second)) /\
    s1 = with_client (Some cl) sv.

(** The session request got a 2xx answer whose body was read and decoded
    to [db]. *)
Definition sessionDecoded (cfg : LookupConfig) (cl : Client) (req : Request)
  (db : Database) : Prop :=
  exists u resp,
    url_Parse (net E) (types.URL cfg) = Ok u /\
    http_NewRequest (net E) Background (sessionURL cfg u) = None /\
    req = sessionRequest cfg (sessionURL cfg u) /\
    client_Do (net E) cl req = Ok resp /\
    200 <= StatusCode resp < 300 /\ ReadErr resp = None /\
    xml_Unmarshal E (Body resp) = Ok db.

(** [s.LoggerService.InfoWith()...Msg(msg)], with no nil check before it. *)
Definition InfoWith (s : Service) (msg : string) : outcome unit :=
  match LoggerService s with
  | Some _ => Done tt [Info msg]
  | None => if nilLoggerPanics E then Panic nilDeref else Done tt []
  end.

(** Log, then return [r]. *)
Definition logged {A : Type} (l : outcome unit) (r : A) (before : list event) : outcome A :=
  match l with
  | Panic why => Panic why
  | Done _ evs => Done r (before ++ evs)%list
  end.

(** The request of [LookupWithContext]: the base URL with [s], [callsign]
    and [agent] set (lines 136-140), then the two headers (lines 147-148). *)
Definition lookupURL (s : Service) (cfg : LookupConfig) (u : URLValue) (callsign : string)
  : URLValue :=
  withQuery u (Set_ (Set_ (Set_ (Query u) "s" (sessionKey s))
                       "callsign" callsign) "agent" (UserAgent cfg)).

Definition lookupRequest (cfg : LookupConfig) (ctx : Context) (u : URLValue) : Request :=
  mkRequest ctx u
    (Set_ (Set_ [] "User-Agent" (UserAgent cfg)) "Accept" "application/xml").

(** [LookupWithContext]; a nil context is [None]. *)
Definition LookupWithContext (s : Service) (ctx : option Context) (callsign : string)
  : outcome (ContactedStation.t * option error) :=
  let op := "qrz.service.LookupWithContext" in
  let ctx := match ctx with None => Background | Some c => c end in
  let emptyRetVal := ContactedStation.zero in
  if negb (isInitialized s) then
    Done (emptyRetVal, Some (Detailed op "service is not initialized" None)) []
  else
  match Config s with
  | None => Done (emptyRetVal, Some (Detailed op "service config is not set" None)) []
  | Some cfg =>
  let callsign := strings.TrimSpace callsign in
  if negb (Enabled cfg) then
    logged (InfoWith s "QRZ.com callsign lookup is disabled in the config")
      (ContactedStation.onlyCall callsign, None) []
  else
  match client s with
  | None => Done (emptyRetVal, Some (Detailed op "http client is not configured" None)) []
  | Some cl =>
  match url_Parse (net E) (types.URL cfg) with
  | Err err => Done (emptyRetVal, Some (Detailed op "invalid QRZ base URL" (Some err))) []
  | Ok u =>
  let u := lookupURL s cfg u callsign in
  match http_NewRequest (net E) ctx u with
  | Some err =>
      Done (emptyRetVal, Some (Detailed op "Failed to create HTTP GET request" (Some err))) []
  | None =>
  let req := lookupRequest cfg ctx u in
  match client_Do (net E) cl req with
  | Err err =>
      Done (emptyRetVal, Some (Detailed op "Failed to perform HTTP GET request" (Some err)))
        [Sent cl req]
  | Ok resp =>
  if (StatusCode resp <? 200) || (300 <=? StatusCode resp) then
    Done (emptyRetVal,
          Some (Detailed op
                  ("Service returned unexpected status " ++ Itoa (StatusCode resp)
                   ++ ": " ++ Body resp) None))
      [Sent cl req]
  else
  match ReadErr resp with
  | Some err =>
      Done (emptyRetVal,
            Some (Detailed op ("Failed to read response body: " ++ Error err) (Some err)))
        [Sent cl req]
  | None =>
  match unmarshalResponse (Body resp) with
  | (_, Some err) =>
      if Is err ErrNotFound then
        logged (InfoWith s "Callsign not found in QRZ.com database")
          (ContactedStation.onlyCall callsign, None) [Sent cl req]
      else
        Done (emptyRetVal, Some (Detailed op "Failed to unmarshal response body" (Some err)))
          [Sent cl req]
  | (station, None) => Done (station, None) [Sent cl req]
  end end end end end end end.

(** The instance is ready and enabled and has a transport client. *)
Definition ready (s : Service) (cfg : LookupConfig) (cl : Client) : Prop :=
  isInitialized s = true /\ Config s = Some cfg /\ Enabled cfg = true /\
  client s = Some cl.

(** The call [LookupWithContext(ctx, callsign)] on [s] gets as far as
    sending [req] through [cl], and the server answers [resp]. *)
Definition answered (s : Service) (ctx : option Context) (callsign : string)
  (cl : Client) (req : Request) (resp : Response) : Prop :=
  exists cfg u,
    ready s cfg cl /\
    url_Parse (net E) (types.URL cfg) = Ok u /\
    let ctx := match ctx with None => Background | Some c => c end in
    let u := lookupURL s cfg u (strings.TrimSpace callsign) in
    http_NewRequest (net E) ctx u = None /\
    req = lookupRequest cfg ctx u /\
    client_Do (net E) cl req = Ok resp.

(** ... and the answer is a 2xx whose body was read and decoded to [db]. *)
Definition decoded (s : Service) (ctx : option Context) (callsign : string)
  (cl : Client) (req : Request) (db : Database) : Prop :=
  exists resp,
    answered s ctx callsign cl req resp /\
    200 <= StatusCode resp < 300 /\ ReadErr resp = None /\
    xml_Unmarshal E (Body resp) = Ok db.

(** [Lookup]: the disabled guard reads [s.Config] before anything checks it. *)
Definition Lookup (s : Service) (callsign : string)
  : outcome (ContactedStation.t * option error) :=
  match Config s with
  | None => Panic nilDeref
  | Some cfg =>
      if negb (Enabled cfg) then
        (* If not enabled, just return an empty station object - NO ERROR *)
        logged (InfoWith s "QRZ.com lookup not enabled in the config.")
          (ContactedStation.zero, None) []
      else LookupWithContext s (Some Background) callsign
  end.

End WithEnv.

End qrz.

(* ------------------------------------------------------------------ *)
(** ** Package [time]: the strict RFC 3339 reader

    Go's [time.Parse(time.RFC3339, v)] first tries its strict reader
    [parseRFC3339]; the zone offset [t.Zone()] then reports is the one read
    from the text.  This is that reader, reduced to the offset it yields. *)

Module time.

Definition isDigit (c : ascii) : bool :=
  let n := nat_of_ascii c in Nat.leb 48 n && Nat.leb n 57.

Fixpoint digitsValue (acc : Z) (s : string) : option Z :=
  match s with
  | EmptyString => Some acc
  | String c s' =>
      if isDigit c
      then digitsValue (acc * 10 + Z.of_nat (nat_of_ascii c - 48)) s'
      else None
  end.

(** The closure [parseUint]: decimal digits only, value within [lo, hi]. *)
Definition parseUint (s : string) (lo hi : Z) : option Z :=
  match digitsValue 0 s with
  | Some x => if (x <? lo) || (hi <? x) then None else Some x
  | None => None
  end.

Definition isLeap (year : Z) : bool :=
  (year mod 4 =? 0) && (negb (year mod 100 =? 0) || (year mod 400 =? 0)).

Definition daysIn (month year : Z) : Z :=
  if month =? 2 then (if isLeap year then 29 else 28)
  else 30 + Z.land (month + Z.shiftr month 3) 1.

Definition byteIs (s : string) (i : nat) (c : ascii) : bool :=
  match String.get i s with
  | Some c' => Ascii.eqb c' c
  | None => false
  end.

Fixpoint dropDigits (s : string) : string :=
  match s with
  | EmptyString => EmptyString
  | String c s' => if isDigit c then dropDigits s' else s
  end.

(** The optional fractional second: a dot followed by at least one digit. *)
Definition dropFraction (s : string) : string :=
  match s with
  | String "." (String d rest) => if isDigit d then dropDigits rest else s
  | _ => s
  end.

(** The zone: [Z], or sign, two-digit hour, colon, two-digit minute. *)
Definition parseZone (s : string) : option Z :=
  if String.eqb s "Z" then Some 0
  else if negb (Nat.eqb (String.length s) 6) then None
  else
    match parseUint (String.substring 1 2 s) 0 23,
          parseUint (String.substring 4 2 s) 0 59 with
    | Some hr, Some mm =>
        if (byteIs s 0 "-" || byteIs s 0 "+") && byteIs s 3 ":" then
          let zoneOffset := (hr * 60 + mm) * 60 in
          Some (if byteIs s 0 "-" then zoneOffset * -1 else zoneOffset)
        else None
    | _, _ => None
    end.

Definition parseRFC3339 (s : string) : option Z :=
  if Nat.ltb (String.length s) 19 then None
  else
    match parseUint (String.substring 0 4 s) 0 9999,
          parseUint (String.substring 5 2 s) 1 12 with
    | Some year, Some month =>
        match parseUint (String.substring 8 2 s) 1 (daysIn month year),
              parseUint (String.substring 11 2 s) 0 23,
              parseUint (String.substring 14 2 s) 0 59,
              parseUint (String.substring 17 2 s) 0 59 with
        | Some _, Some _, Some _, Some _ =>
            if byteIs s 4 "-" && byteIs s 7 "-" && byteIs s 10 "T"
               && byteIs s 13 ":" && byteIs s 16 ":"
            then parseZone (dropFraction (String.substring 19 (String.length s - 19) s))
            else None
        | _, _, _, _ => None
        end
    | _, _ => None
    end.

End time.


(* ------------------------------------------------------------------ *)
(** ** The specification's side of the refinement statements *)

Module spec.

(** A decimal digit as a character. *)
Definition digit (d : Z) : ascii := ascii_of_nat (48 + Z.to_nat d).

(** Two decimal digits, zero-padded. *)
Definition twoDigits (n : Z) : string :=
  String (digit (n / 10)) (String (digit (n mod 10)) EmptyString).

(** A zone offset of [off] seconds as sign, two-digit hour, colon,
    two-digit minute. *)
Definition signHHMM (off : Z) : string :=
  (if off <? 0 then "-" else "+")
  ++ twoDigits (Z.abs off / 3600) ++ ":" ++ twoDigits ((Z.abs off / 60) mod 60).

(** [r] is the last [n] characters of [s], verbatim. *)
Definition lastChars (n : nat) (s r : string) : Prop :=
  String.length r = n /\ exists front, s = front ++ r.

(** Keep the non-empty strings. *)
Definition skipEmpty (parts : list string) : list string :=
  filter (fun p => negb (strings.isEmpty p)) parts.

(** Join with a separator, skipping empty parts. *)
Definition joinSkippingEmpty (sep : string) (parts : list string) : string :=
  String.concat sep (skipEmpty parts).

(** The name: the trimmed display name when non-empty, else first and
    last name joined by one space (empty parts skipped), else the
    nickname, else empty. *)
Definition name (nameFmt fname lname nickname : string) : string :=
  let t := strings.TrimSpace in
  if negb (strings.isEmpty (t nameFmt)) then t nameFmt
  else if negb (strings.isEmpty (joinSkippingEmpty " " [t fname; t lname]))
  then joinSkippingEmpty " " [t fname; t lname]
  else if negb (strings.isEmpty (t nickname)) then t nickname
  else "".

(** The address: line 1, then (line 2 joined with state), then postal
    code, then country, joined with [", "], empty parts skipped. *)
Definition address (addr1 addr2 state zip country : string) : string :=
  joinSkippingEmpty ", "
    [addr1; joinSkippingEmpty ", " [addr2; state]; zip; country].

End spec.

(** What the JSON adapter needs from [time.Parse]: the empty string does
    not parse, and a zone offset read from text is at most 24 hours and 60
    minutes either way (the bound of Go's lenient reader; the strict one
    stops at 23:59). *)
Definition goTime (parse : string -> option Z) : Prop :=
  parse "" = None /\
  forall v off, parse v = Some off -> -90000 <= off <= 90000.

(** A string given by its bytes. *)
Definition ofBytes (l : list Z) : string :=
  fold_right (fun n s => String (ascii_of_nat (Z.to_nat n)) s) EmptyString l.

(* ------------------------------------------------------------------ *)
(** ** Stub collaborators, as the packages' tests build them *)

Module stub.

(** A base-URL reader good enough for the stubs: [scheme://host]. *)
Definition url_Parse (s : string) : result URLValue :=
  if String.prefix "http://" s
  then Ok (mkURL "http" (String.substring 7 (String.length s - 7) s) "" [])
  else if String.prefix "://" s
  then Err (External "missing protocol scheme")
  else Ok (mkURL "" "" s []).

(** A server is a function from the request to what comes back. *)
Definition net (server : Request -> result Response) : Net :=
  mkNet url_Parse (fun _ _ => None) (fun _ => server).

Definition ok200 (body : string) : result Response := Ok (mkResponse 200 body None).

(** A decoder given by the table of the bodies it understands. *)
Fixpoint decode {A : Type} (table : list (string * A)) (body : string) : result A :=
  match table with
  | [] => Err (External "unexpected end of input")
  | (b, a) :: rest => if String.eqb b body then Ok a else decode rest body
  end.

Definition logger : option Logger := Some TheLogger.

Definition config (enabled : bool) : LookupConfig :=
  mkLookupConfig enabled "http://example.test" "test" 5 5 "user" "secret".

Fixpoint mapString (f : ascii -> ascii) (s : string) : string :=
  match s with
  | EmptyString => EmptyString
  | String c s' => String (f c) (mapString f s')
  end.

(** Test bodies are written with ['] where the wire has a double quote. *)
Definition wire (s : string) : string :=
  mapString
    (fun c => if Ascii.eqb c "'" then ascii_of_nat 34 else c) s.

(** JSON bodies of the hamnut tests, and how the typed decoder reads them. *)
Definition bodyLocalTime : string :=
  wire "{'status':'ok','found':true,'_t':'2025-11-30T13:31:07.321Z','countryName':'TestLand','prefix':'K1','cqZone':14,'ituZone':28,'localTime':'2025-11-30T13:31:07+02:00'}".
Definition respLocalTime : hamnut.PrefixLookupResponse :=
  hamnut.mkResp true "TestLand" "K1" "" "" "" 14 28 "" "2025-11-30T13:31:07+02:00".

Definition bodyFoundFalse : string :=
  wire "{'status':'ok','found':false,'_t':'2025-11-30T13:31:07.321Z'}".
Definition respFoundFalse : hamnut.PrefixLookupResponse :=
  hamnut.mkResp false "" "" "" "" "" 0 0 "" "".

(** The body of section 8's scenario: complete country data, no [found] key. *)
Definition bodyNoFoundKey : string :=
  wire "{'countryName':'United States','prefix':'K','countryCode':'US','continent':'NA','cqZone':5,'ituZone':8,'primaryDXCCPrefix':'291','timeOffset':'-05:00'}".
Definition respNoFoundKey : hamnut.PrefixLookupResponse :=
  hamnut.mkResp false "United States" "K" "US" "NA" "291" 5 8 "-05:00" "".

Definition json_Unmarshal : string -> result hamnut.PrefixLookupResponse :=
  decode [(bodyLocalTime, respLocalTime); (bodyFoundFalse, respFoundFalse);
          (bodyNoFoundKey, respNoFoundKey)].

Definition hamnutEnv (server : Request -> result Response) : hamnut.Env :=
  hamnut.mkEnv (net server) json_Unmarshal time.parseRFC3339.

Definition client : Client := NewHTTPClient (5 * Second).

(** A JSON adapter as [Initialize] leaves it on an enabled configuration. *)
Definition hamnutReady : hamnut.Service :=
  hamnut.mkService None logger (Some (config true)) (Some client) true true.

(** The request [hamnutReady] sends for the identifier K1ABC. *)
Definition hamnutRequest : Request :=
  hamnut.lookupRequest (config true) Background
    (hamnut.lookupURL (mkURL "http" "example.test" "" []) "K1ABC").

Definition answering (status : Z) (body : string) : Request -> result Response :=
  fun _ => Ok (mkResponse status body None).

(** XML bodies of the qrz tests, and how the decoder reads them. *)
Definition bodySuccess : string :=
  wire "<QRZDatabase version='1.34'><Callsign><call>aa7bq</call><fname>FRED L</fname><name>LLOYD</name><addr1>8711 E PINNACLE PEAK RD 193</addr1><addr2>SCOTTSDALE</addr2><state>AZ</state><zip>85255</zip><country>United States</country><grid>DM32af</grid><cqzone>3</cqzone><ituzone>2</ituzone><dxcc>291</dxcc><email>flloyd@qrz.com</email><p_call>KJ6RK</p_call><url>https://www.qrz.com/db/aa7bq</url><lat>34.23456</lat><lon>-112.34356</lon><attn>c/o QRZ LLC</attn><name_fmt>FRED 'The Boss' LLOYD</name_fmt></Callsign><Session></Session></QRZDatabase>".
Definition csSuccess : qrz.Callsign.t :=
  qrz.Callsign.mk "aa7bq" "291" "FRED L" "LLOYD" "8711 E PINNACLE PEAK RD 193"
    "SCOTTSDALE" "AZ" "85255" "United States" "34.23456" "-112.34356" "DM32af"
    "KJ6RK" "flloyd@qrz.com" "https://www.qrz.com/db/aa7bq" "3" "2" "c/o QRZ LLC" ""
    (wire "FRED 'The Boss' LLOYD").
Definition dbSuccess : qrz.Database := qrz.mkDatabase "1.34" csSuccess qrz.Session.zero.
(** The record the test expects for [bodySuccess]. *)
Definition stationSuccess : ContactedStation.t :=
  ContactedStation.mk "AA7BQ" (wire "FRED 'The Boss' LLOYD")
    "8711 E PINNACLE PEAK RD 193, SCOTTSDALE, AZ, 85255, United States"
    "SCOTTSDALE, AZ" "United States" "DM32AF" "3" "2" "291" "flloyd@qrz.com" "KJ6RK"
    "https://www.qrz.com/db/aa7bq" "34.23456" "-112.34356" "c/o QRZ LLC".

Definition sessionWith (key err : string) : qrz.Session.t :=
  qrz.Session.mk key 0 "" "" "" err.

Definition bodySessionError : string :=
  wire "<QRZDatabase version='1.34'><Callsign></Callsign><Session><Error>Invalid session key</Error></Session></QRZDatabase>".
Definition dbSessionError : qrz.Database :=
  qrz.mkDatabase "1.34" qrz.Callsign.zero (sessionWith "" "Invalid session key").

Definition bodyNotFound : string :=
  wire "<QRZDatabase version='1.34'><Callsign></Callsign><Session><Error>Callsign not found</Error></Session></QRZDatabase>".
Definition dbNotFound : qrz.Database :=
  qrz.mkDatabase "1.34" qrz.Callsign.zero (sessionWith "" "Callsign not found").

Definition bodyMissingCall : string :=
  wire "<QRZDatabase version='1.34'><Callsign><name>LLOYD</name></Callsign><Session></Session></QRZDatabase>".
Definition dbMissingCall : qrz.Database :=
  qrz.mkDatabase "1.34"
    (qrz.Callsign.mk "" "" "" "LLOYD" "" "" "" "" "" "" "" "" "" "" "" "" "" "" "" "")
    qrz.Session.zero.

(** A session error of one space, around a full callsign record. *)
Definition bodyBlankError : string :=
  wire "<QRZDatabase version='1.34'><Callsign><call>aa7bq</call></Callsign><Session><Error> </Error></Session></QRZDatabase>".
Definition dbBlankError : qrz.Database :=
  qrz.mkDatabase "1.34"
    (qrz.Callsign.mk "aa7bq" "" "" "" "" "" "" "" "" "" "" "" "" "" "" "" "" "" "" "")
    (sessionWith "" " ").

(** A record whose address line 1 is padded with white space. *)
Definition bodyPaddedAddress : string :=
  wire "<QRZDatabase version='1.34'><Callsign><call>aa7bq</call><addr1> 1 MAIN ST </addr1><state>AZ</state></Callsign><Session></Session></QRZDatabase>".
Definition dbPaddedAddress : qrz.Database :=
  qrz.mkDatabase "1.34"
    (qrz.Callsign.mk "aa7bq" "" "" "" " 1 MAIN ST " "" "AZ" "" "" "" "" "" "" "" "" "" ""
       "" "" "")
    qrz.Session.zero.

(** The answer to a login. *)
Definition bodySessionKey : string :=
  wire "<QRZDatabase version='1.34'><Session><Key>2331uf894c4bd29f3923f3bacf02c532d7bd9</Key></Session></QRZDatabase>".
Definition dbSessionKey : qrz.Database :=
  qrz.mkDatabase "1.34" qrz.Callsign.zero
    (sessionWith "2331uf894c4bd29f3923f3bacf02c532d7bd9" "").

Definition bodyLoginRefused : string :=
  wire "<QRZDatabase version='1.34'><Session><Error>Username/password incorrect</Error></Session></QRZDatabase>".
Definition dbLoginRefused : qrz.Database :=
  qrz.mkDatabase "1.34" qrz.Callsign.zero (sessionWith "" "Username/password incorrect").

Definition bodyNoKey : string :=
  wire "<QRZDatabase version='1.34'><Session></Session></QRZDatabase>".
Definition dbNoKey : qrz.Database :=
  qrz.mkDatabase "1.34" qrz.Callsign.zero qrz.Session.zero.

Definition xml_Unmarshal : string -> result qrz.Database :=
  decode [(bodySuccess, dbSuccess); (bodySessionError, dbSessionError);
          (bodyNotFound, dbNotFound); (bodyMissingCall, dbMissingCall);
          (bodyBlankError, dbBlankError); (bodyPaddedAddress, dbPaddedAddress);
          (bodySessionKey, dbSessionKey);
          (bodyLoginRefused, dbLoginRefused); (bodyNoKey, dbNoKey)].

(** A QRZ-like server: [login] answers the session request (the one with
    a [username]), [lookup] every other request. *)
Definition qrzServer (login lookup : string) : Request -> result Response :=
  fun req =>
    if String.eqb (Get (Query (rq_url req)) "username") "user"
    then ok200 login else ok200 lookup.

(** Case mapping as Go does it on text that is all ASCII, which the text
    of these fixtures is. *)
Definition upperChar (c : ascii) : ascii :=
  let n := nat_of_ascii c in
  if Nat.leb 97 n && Nat.leb n 122 then ascii_of_nat (n - 32) else c.

Definition lowerChar (c : ascii) : ascii :=
  let n := nat_of_ascii c in
  if Nat.leb 65 n && Nat.leb n 90 then ascii_of_nat (n + 32) else c.

Definition ToUpper : string -> string := mapString upperChar.
Definition ToLower : string -> string := mapString lowerChar.

Definition qrzEnv (server : Request -> result Response) : qrz.Env :=
  qrz.mkEnv (net server) xml_Unmarshal true ToUpper ToLower.

(** A fresh XML adapter with its logger and an enabled configuration. *)
Definition qrzFresh : qrz.Service :=
  qrz.mkService None logger (Some (config true)) None false false "".

(** An XML adapter as a successful [Initialize] leaves it. *)
Definition qrzReady : qrz.Service :=
  qrz.mkService None logger (Some (config true)) (Some client) true true
    "2331uf894c4bd29f3923f3bacf02c532d7bd9".

(** An XML adapter as [Initialize] leaves it on a disabled configuration. *)
Definition qrzDisabled : qrz.Service :=
  qrz.mkService None logger (Some (config false)) None true true "".

(** A configuration service that has the configuration [cfg]. *)
Definition configService (cfg : LookupConfig) : option ConfigSvc :=
  Some (fun _ => Ok cfg).

(** The JSON adapter the factory builds, before any logger is injected. *)
Definition hamnutNoLogger : hamnut.Service :=
  hamnut.NewService None (configService (config true)) None None.

(** The XML adapter in the same situation. *)
Definition qrzNoLogger : qrz.Service :=
  qrz.mkService (configService (config true)) None None None false false "".

(** The request [qrzReady] sends for the trimmed identifier [callsign]. *)
Definition qrzRequest (callsign : string) : Request :=
  qrz.lookupRequest (config true) Background
    (qrz.lookupURL qrzReady (config true) (mkURL "http" "example.test" "" []) callsign).

End stub.

(** The exhaustive check behind [Itoa_padded]. *)
Definition twoDigitsAgree (n : Z) : bool :=
  String.eqb (if n <? 10 then "0" ++ Itoa n else Itoa n) (spec.twoDigits n).

(** A tidy string is one [TrimSpace] leaves alone. *)
Definition tidy (s : string) : Prop := strings.TrimSpace s = s.

(** What follows the white-space rune [s] starts with, if it starts with
    one (the tests as for [strings.trimRunes]). *)
Definition dropRune (sp1 : ascii -> bool) (sp2 : ascii -> ascii -> bool)
  (sp3 : ascii -> ascii -> ascii -> bool) (s : string) : option string :=
  match s with
  | EmptyString => None
  | String a s1 =>
      if sp1 a then Some s1 else
      match s1 with
      | EmptyString => None
      | String b s2 =>
          if sp2 a b then Some s2 else
          match s2 with
          | EmptyString => None
          | String c s3 => if sp3 a b c then Some s3 else None
          end
      end
  end.

(** A byte outside the ASCII range. *)
Definition hi (c : ascii) : bool := Nat.leb 128 (strings.byte c).

(** A string that does not start with such a byte. *)
Definition plainHead (q : string) : bool :=
  match q with
  | EmptyString => true
  | String c _ => negb (hi c)
  end.

(** A separator with an ASCII byte at either end. *)
Definition plainSep (sep : string) : Prop :=
  plainHead sep = true /\ plainHead (strings.reverse sep) = true /\
  strings.isEmpty sep = false.

(* ------------------------------------------------------------------ *)
(** ** Concurrent callers of [Initialize]

    [Initialize] is the same code in both packages: an atomic load of the
    ready flag, then [initOnce.Do] around the setup function.  [sync.Once]
    is an atomic [done] flag and a mutex: [Do] returns at once when [done]
    is set, else takes the mutex, tests [done] again, runs the function,
    sets [done] and releases the mutex.  Several goroutines calling
    [Initialize] on one instance are threads over that shared state, each
    with its own program counter and its own local [initErr]; a scheduler
    picks who moves.  The setup function runs under the mutex and other
    callers of [Initialize] read nothing but the two flags, so it is one
    step here. *)

Module once.

Section Model.
Variable S : Type.
Variable isInitialized : S -> bool.
(** The setup function: the [initErr] it leaves and the instance after it. *)
Variable body : S -> option error * S.

(** Where a caller stands. *)
Inductive pc : Type :=
| AtLoad                          (* before [s.isInitialized.Load()] *)
| AtOnce                          (* before [o.done.Load()] of [Do] *)
| AtLock                          (* before [o.m.Lock()] of [doSlow] *)
| InLock                          (* holding the mutex, before [o.done.Load()] *)
| Running                         (* holding the mutex, about to run the function *)
| Returned (initErr : option error).

Definition inCS (p : pc) : bool :=
  match p with InLock | Running => true | _ => false end.

(** The shared instance, the state of its [sync.Once], the callers; [runs]
    counts the executions of the setup function and [winner] remembers who
    ran it (both are bookkeeping, no code reads them). *)
Record sys : Type := mkSys {
  svc : S;
  done : bool;
  holder : option nat;
  runs : nat;
  winner : option nat;
  pcs : list pc
}.

Fixpoint setNth {A : Type} (i : nat) (x : A) (l : list A) : list A :=
  match i, l with
  | _, [] => []
  | O, _ :: l' => x :: l'
  | Datatypes.S i', y :: l' => y :: setNth i' x l'
  end.

Definition moveTo (i : nat) (p : pc) (st : sys) : sys :=
  mkSys (svc st) (done st) (holder st) (runs st) (winner st) (setNth i p (pcs st)).

(** Caller [i] takes its next step (nothing happens if it is blocked on
    the mutex, has returned, or does not exist). *)
Definition step (i : nat) (st : sys) : sys :=
  match nth_error (pcs st) i with
  | None => st
  | Some AtLoad =>
      moveTo i (if isInitialized (svc st) then Returned None else AtOnce) st
  | Some AtOnce =>
      moveTo i (if done st then Returned None else AtLock) st
  | Some AtLock =>
      match holder st with
      | Some _ => st
      | None =>
          mkSys (svc st) (done st) (Some i) (runs st) (winner st)
            (setNth i InLock (pcs st))
      end
  | Some InLock =>
      if done st
      then mkSys (svc st) (done st) None (runs st) (winner st)
             (setNth i (Returned None) (pcs st))
      else moveTo i Running st
  | Some Running =>
      let '(initErr, s') := body (svc st) in
      mkSys s' true None (Datatypes.S (runs st)) (Some i)
        (setNth i (Returned initErr) (pcs st))
  | Some (Returned _) => st
  end.

(** A schedule is the list of callers in the order they move. *)
Definition run (schedule : list nat) (st : sys) : sys :=
  fold_left (fun st i => step i st) schedule st.

(** [n] callers enter [Initialize] on a fresh instance. *)
Definition start (s : S) (n : nat) : sys :=
  mkSys s false None 0 None (repeat AtLoad n).

(** What holds of every reachable state. *)
Definition invariant (s0 : S) (st : sys) : Prop :=
  (forall j p, nth_error (pcs st) j = Some p -> inCS p = true -> holder st = Some j) /\
  (forall j, nth_error (pcs st) j = Some Running -> done st = false) /\
  (done st = false ->
   svc st = s0 /\ runs st = 0%nat /\ isInitialized (svc st) = false) /\
  (done st = true -> runs st = 1%nat) /\
  (forall j e, nth_error (pcs st) j = Some (Returned e) ->
     done st = true /\
     (e = None \/ (winner st = Some j /\ e = fst (body s0)))).

End Model.

End once.

(** The setup functions of the two adapters, as [once] takes them. *)
Definition hamnutBody (E : hamnut.Env) (s : hamnut.Service)
  : option error * hamnut.Service :=
  let '(initErr, s', _) := hamnut.initBody E s in (initErr, s').

Definition qrzBody (E : qrz.Env) (s : qrz.Service) : option error * qrz.Service :=
  let '(initErr, s', _) := qrz.initBody E s in (initErr, s').

(* ------------------------------------------------------------------ *)
(** ** What a validated configuration looks like *)

(** The checks of [validateConfig] on an enabled configuration, as facts
    about the configuration it leaves: URL and user agent trimmed and
    non-empty, the URL parsing to a scheme and a host, the timeout
    (the field [timeout] picks) positive. *)
Definition validated (N : Net) (timeout : LookupConfig -> Z) (cfg : LookupConfig) : Prop :=
  tidy (URL cfg) /\ URL cfg <> "" /\
  (exists u, url_Parse N (URL cfg) = Ok u /\ Scheme u <> "" /\ Host u <> "") /\
  tidy (UserAgent cfg) /\ UserAgent cfg <> "" /\
  0 < timeout cfg.

(** More instances for the examples. *)
Module fixture.

(** A fresh JSON adapter with its logger and an enabled configuration,
    padded with white space as a configuration file may leave it. *)
Definition paddedConfig : LookupConfig :=
  mkLookupConfig true "  http://example.test " " test  " 5 5 "user" "secret".

Definition hamnutFresh : hamnut.Service :=
  hamnut.mkService None stub.logger (Some paddedConfig) None false false.

(** A fresh JSON adapter whose configuration is disabled and blank. *)
Definition blankDisabled : LookupConfig :=
  mkLookupConfig false "" "" 0 0 "" "".

Definition hamnutOff : hamnut.Service :=
  hamnut.mkService None stub.logger (Some blankDisabled) None false false.

Definition qrzOff : qrz.Service :=
  qrz.mkService None stub.logger (Some blankDisabled) None false false "".

(** An XML adapter built with a transport client of the caller's. *)
Definition qrzInjected : qrz.Service :=
  qrz.mkService None stub.logger (Some (stub.config true)) (Some stub.client)
    false false "".

End fixture.

(** The collaborators' own errors are not the not-found sentinel: nothing
    that URL parsing, request building, the transport or the body reader
    reports wraps [ErrNotFound]. *)
Definition foreignErrors (N : Net) : Prop :=
  (forall x e, url_Parse N x = Err e -> Is e ErrNotFound = false) /\
  (forall c u e, http_NewRequest N c u = Some e -> Is e ErrNotFound = false) /\
  (forall c r e, client_Do N c r = Err e -> Is e ErrNotFound = false) /\
  (forall c r resp e,
     client_Do N c r = Ok resp -> ReadErr resp = Some e -> Is e ErrNotFound = false).

(** No field of the record has white space at either end. *)
Definition stationTidy (st : ContactedStation.t) : Prop :=
  tidy (ContactedStation.Call st) /\ tidy (ContactedStation.Name st) /\
  tidy (ContactedStation.Address st) /\ tidy (ContactedStation.QTH st) /\
  tidy (ContactedStation.Country st) /\ tidy (ContactedStation.Gridsquare st) /\
  tidy (ContactedStation.CQZ st) /\ tidy (ContactedStation.ITUZ st) /\
  tidy (ContactedStation.DXCC st) /\ tidy (ContactedStation.Email st) /\
  tidy (ContactedStation.EqCall st) /\ tidy (ContactedStation.Web st) /\
  tidy (ContactedStation.Lat st) /\ tidy (ContactedStation.Lon st) /\
  tidy (ContactedStation.ContactedOp st).

(** Read a decimal numeral (an optional minus sign, then digits). *)
Definition readDecimal (s : string) : option Z :=
  option_map Z.of_int (NilZero.int_of_string s).

(* ------------------------------------------------------------------ *)
(** ** Go error values, as [errors.As] and [errors.Is] walk them

    An error value has a dynamic type and the errors its [Unwrap] method
    gives: none, one, or several for a joined error.  The types the
    classifier of [hamnut] names are kept apart; a [syscall.Errno] carries
    its number.  No type is taken to define [As] or [Is] methods that
    answer for the targets used here. *)

Module goerrors.

Inductive dyn : Type :=
| DNSError              (* *net.DNSError *)
| OpError               (* *net.OpError *)
| URLError              (* *url.Error *)
| Errno (n : Z)         (* syscall.Errno *)
| Other (name : string).

Inductive value : Type :=
| Node (t : dyn) (inner : list value).

Definition typeOf (e : value) : dyn := match e with Node t _ => t end.

Definition Unwrap (e : value) : list value := match e with Node _ inner => inner end.

(** The errors of the tree in the order [errors.As] and [errors.Is] visit
    them: the error itself, then depth first through what it unwraps to. *)
Fixpoint walk (e : value) : list value :=
  match e with
  | Node _ inner => e :: flat_map walk inner
  end.

(** The same for a possibly nil [error]. *)
Definition nodes (err : option value) : list value :=
  match err with
  | None => []
  | Some e => walk e
  end.

Fixpoint height (e : value) : nat :=
  match e with
  | Node _ inner => S (list_max (map height inner))
  end.

Definition depthOf (err : option value) : nat :=
  match err with
  | None => O
  | Some e => height e
  end.

(** [errors.As(err, &target)] for a target type picked out by [fits]: the
    first error visited whose dynamic type fits. *)
Definition As (fits : dyn -> bool) (err : value) : option value :=
  List.find (fun x => fits (typeOf x)) (walk err).

(** [errors.Is(err, target)] for a [syscall.Errno] target. *)
Definition Is (err : value) (target : Z) : bool :=
  existsb (fun x => match typeOf x with Errno n => n =? target | _ => false end)
    (walk err).

Definition isDNSError (t : dyn) : bool := match t with DNSError => true | _ => false end.
Definition isOpError (t : dyn) : bool := match t with OpError => true | _ => false end.
Definition isURLError (t : dyn) : bool := match t with URLError => true | _ => false end.

(** Every error has at most one inner error, and an errno none: the
    shape of an error built by wrapping alone, without joining. *)
Inductive chain : value -> Prop :=
| chain_leaf (t : dyn) : chain (Node t [])
| chain_wrap (t : dyn) (x : value) :
    (forall n, t <> Errno n) -> chain x -> chain (Node t [x]).

End goerrors.

(** [hamnut.IsNetworkError] (the classifier of network failures). *)
Module network.
Import goerrors.

Section IsNetworkError.

(** The dynamic types that implement the interface [net.Error]. *)
Variable netError : dyn -> bool.
(** The platform's numbers of the three [syscall] constants. *)
Variables ECONNREFUSED ENETUNREACH EHOSTUNREACH : Z.

(** The function calls itself on [urlErr.Err]; [depth] bounds the calls. *)
Fixpoint IsNetworkErrorWithin (depth : nat) (err : option value) : option bool :=
  match depth with
  | O => None
  | S depth =>
      match err with
      | None => Some false
      | Some err =>
          (* Check for net.Error interface (includes timeout, temporary errors) *)
          match As netError err with
          | Some _ => Some true
          | None =>
          (* Check for DNS errors *)
          match As isDNSError err with
          | Some _ => Some true
          | None =>
          (* Check for connection refused, network unreachable, etc. *)
          match As isOpError err with
          | Some _ => Some true
          | None =>
          (* Check for URL errors (which wrap network errors) *)
          match As isURLError err with
          | Some urlErr => IsNetworkErrorWithin depth (hd_error (Unwrap urlErr))
          | None =>
          (* Check for specific syscall errors *)
          Some (Is err ECONNREFUSED || Is err ENETUNREACH || Is err EHOSTUNREACH)
          end end end end
      end
  end.

Definition IsNetworkError (err : option value) : option bool :=
  IsNetworkErrorWithin (S (depthOf err)) err.

(** What the checks look for: a type one of the three [errors.As] checks
    accepts, or one of the three errno values. *)
Definition typed (t : dyn) : bool := netError t || isDNSError t || isOpError t.

Definition listed (t : dyn) : bool :=
  match t with
  | Errno n => (n =? ECONNREFUSED) || (n =? ENETUNREACH) || (n =? EHOSTUNREACH)
  | _ => false
  end.

Definition networkish (t : dyn) : bool := typed t || listed t.

End IsNetworkError.

End network.

(* ------------------------------------------------------------------ *)
(** ** Package [lookup]: the provider factory *)

Module lookup.

(** [ServiceFactory]; the only provider it builds is the JSON adapter, so
    a [Provider] value is a [hamnut.Service]. *)
Record ServiceFactory : Type := mkServiceFactory {
  logger : option Logger;
  config : option ConfigSvc
}.

Definition NewServiceFactory (lg : option Logger) (cfg : option ConfigSvc)
  : ServiceFactory :=
  mkServiceFactory lg cfg.

Section WithQuote.

(** The [%q] verb ([strconv.Quote]). *)
Variable Quote : string -> string.

(** [NewProvider]; the receiver is a pointer, read only by the first case. *)
Definition NewProvider (f : option ServiceFactory) (name : string)
  : outcome (option hamnut.Service * option error) :=
  if String.eqb name HamNutLookupServiceName then
    match f with
    | None => Panic nilDeref
    | Some f => Done (Some (hamnut.NewService (logger f) (config f) None None), None) []
    end
  else
    Done (None,
          Some (Detailed "lookup.ServiceFactory.NewProvider"
                  ("unsupported lookup provider " ++ Quote name) None)) [].

(** [MustProvider]: it panics with the error. *)
Definition MustProvider (f : option ServiceFactory) (name : string)
  : outcome (option hamnut.Service) :=
  match NewProvider f name with
  | Panic why => Panic why
  | Done (p, Some err) _ => Panic (Error err)
  | Done (p, None) evs => Done p evs
  end.

End WithQuote.

End lookup.

Module gofixture.
Import goerrors.

(** The method sets of Go's standard library: all four named types have
    [Timeout] and [Temporary]. *)
Definition netError (t : dyn) : bool :=
  match t with
  | Other _ => false
  | _ => true
  end.

(** A failed dial as the transport reports it: a [*url.Error] around a
    [*net.OpError] around an [*os.SyscallError] around the errno. *)
Definition refused (errno : Z) : value :=
  Node URLError [Node OpError [Node (Other "*os.SyscallError") [Node (Errno errno) []]]].

End gofixture.

Module quoting.

(** The [%q] verb on a string with nothing to escape. *)
Definition Quote (s : string) : string := stub.wire "'" ++ s ++ stub.wire "'".

End quoting.

(* ------------------------------------------------------------------ *)
(** * Checks and theorems *)

(** ** The helpers on concrete inputs *)

Example Itoa_404 : Itoa 404 = "404".
Proof. reflexivity. Qed.

Example TrimSpace_padded : strings.TrimSpace "  K1 ABC  " = "K1 ABC".
Proof. reflexivity. Qed.

(** U+00A0, a tab, the text, U+2003 and U+3000. *)
Example TrimSpace_unicode :
  strings.TrimSpace (ofBytes [194; 160; 9; 75; 49; 226; 128; 131; 227; 128; 128]) = "K1".
Proof. reflexivity. Qed.

(** A lone continuation byte is not white space. *)
Example TrimSpace_stray_byte :
  strings.TrimSpace (ofBytes [160; 75; 49; 194]) = ofBytes [160; 75; 49; 194].
Proof. reflexivity. Qed.

Example Contains_not_found :
  strings.Contains "callsign not found, try again" "not found" = true.
Proof. reflexivity. Qed.

(** An identifier of one no-break space is blank for the JSON adapter. *)
Example hamnut_blank_unicode_identifier :
  hamnut.LookupWithContext (stub.hamnutEnv (stub.answering 200 "")) stub.hamnutReady
    None (ofBytes [194; 160])
  = Done (Country.zero,
          Some (Detailed "hamnut.Service.LookupWithContext" "callsign cannot be empty"
                  None)) [].
Proof. reflexivity. Qed.

(** A callsign element of one no-break space is no callsign. *)
Example qrz_blank_unicode_call :
  qrz.classify (stub.qrzEnv (stub.answering 200 ""))
    (qrz.mkDatabase "1.34"
       (qrz.Callsign.mk (ofBytes [194; 160]) "" "" "" (ofBytes [194; 160]) "" "" "" ""
          "" "" "" "" "" "" "" "" "" "" "")
       qrz.Session.zero)
  = (ContactedStation.zero,
     Some (Detailed "qrz.Service.unmarshalResponse"
             "callsign not present in QRZ response" (Some ErrNotFound))).
Proof. reflexivity. Qed.

(** A session error of one no-break space is no session error, and an
    address line of one is no address line. *)
Example qrz_blank_unicode_fields :
  let E := stub.qrzEnv (stub.answering 200 "") in
  let cs := qrz.Callsign.mk "aa7bq" "" "" "" (ofBytes [194; 160]) "" "AZ" "" ""
              "" "" "" "" "" "" "" "" "" "" "" in
  qrz.classify E (qrz.mkDatabase "1.34" cs (stub.sessionWith "" (ofBytes [194; 160])))
  = (qrz.mapStation E "AA7BQ" cs, None) /\
  ContactedStation.Address (qrz.mapStation E "AA7BQ" cs) = "AZ".
Proof. split; reflexivity. Qed.

Example parseRFC3339_plus2 : time.parseRFC3339 "2025-11-30T13:31:07+02:00" = Some 7200.
Proof. reflexivity. Qed.

Example parseRFC3339_fraction_utc : time.parseRFC3339 "2025-11-30T13:31:07.321Z" = Some 0.
Proof. reflexivity. Qed.

Example parseRFC3339_minus : time.parseRFC3339 "2025-09-09T12:34:00-05:30" = Some (-19800).
Proof. reflexivity. Qed.

Example parseRFC3339_bad_day : time.parseRFC3339 "2025-02-30T12:34:00-05:00" = None.
Proof. reflexivity. Qed.

Example parseRFC3339_legacy : time.parseRFC3339 "12:34 +02:00" = None.
Proof. reflexivity. Qed.

Example formatOffset_plus2 : hamnut.formatOffset 7200 = "+02:00".
Proof. reflexivity. Qed.

Example formatOffset_minus : hamnut.formatOffset (-19800) = "-05:30".
Proof. reflexivity. Qed.

Example formatOffset_big : hamnut.formatOffset 90000 = "+25:00".
Proof. reflexivity. Qed.

(* ------------------------------------------------------------------ *)
(** ** Strings *)

Lemma append_nil_r (s : string) : s ++ "" = s.
Proof. induction s as [|c s IH]; simpl; [reflexivity | now rewrite IH]. Qed.

Lemma append_assoc (a b c : string) : (a ++ b) ++ c = a ++ (b ++ c).
Proof. induction a as [|x a IH]; simpl; [reflexivity | now rewrite IH]. Qed.

Lemma length_append (a b : string) :
  String.length (a ++ b) = (String.length a + String.length b)%nat.
Proof. induction a as [|x a IH]; simpl; [reflexivity | now rewrite IH]. Qed.

Lemma isEmpty_true (s : string) : strings.isEmpty s = true <-> s = "".
Proof. destruct s; simpl; split; intro H; congruence. Qed.

Lemma isEmpty_false (s : string) : strings.isEmpty s = false <-> s <> "".
Proof. destruct s; simpl; split; intro H; congruence. Qed.

Lemma substring_whole (s : string) : String.substring 0 (String.length s) s = s.
Proof. induction s as [|c s IH]; simpl; [reflexivity | now rewrite IH]. Qed.

Lemma substring_drop (k : nat) : forall s : string,
  (k <= String.length s)%nat ->
  exists front, String.length front = k /\
                s = front ++ String.substring k (String.length s - k) s.
Proof.
  induction k as [|k IH]; intros s Hk.
  - exists "". split; [reflexivity|].
    rewrite Nat.sub_0_r, substring_whole. reflexivity.
  - destruct s as [|c s]; simpl in Hk; [lia|].
    destruct (IH s) as [front [Hlen Hs]]; [lia|].
    exists (String c front). split; [simpl; now rewrite Hlen|].
    simpl. now rewrite <- Hs.
Qed.

(** [s[len(s)-n:]] is the last [n] characters of [s]. *)
Lemma suffix_lastChars (n : nat) (s : string) :
  (n <= String.length s)%nat -> spec.lastChars n s (strings.suffix n s).
Proof.
  intro Hn. unfold strings.suffix, spec.lastChars.
  destruct (@substring_drop (String.length s - n) s) as [front [Hlen Hs]]; [lia|].
  replace (String.length s - (String.length s - n))%nat with n in Hs by lia.
  split; [| now exists front].
  apply (f_equal String.length) in Hs. rewrite length_append in Hs. lia.
Qed.

(* ------------------------------------------------------------------ *)
(** ** Decimal printing and the offset format *)

Lemma twoDigitsAgree_upto_99 :
  forallb twoDigitsAgree (map Z.of_nat (seq 0 100)) = true.
Proof. vm_compute. reflexivity. Qed.

(** Below 100, [Itoa] with the code's zero padding is two digits. *)
Lemma Itoa_padded (n : Z) :
  0 <= n < 100 ->
  (if n <? 10 then "0" ++ Itoa n else Itoa n) = spec.twoDigits n.
Proof.
  intro Hn. apply String.eqb_eq.
  pose proof twoDigitsAgree_upto_99 as Hall.
  rewrite forallb_forall in Hall. apply (Hall n).
  apply in_map_iff. exists (Z.to_nat n). split; [lia|].
  apply in_seq. lia.
Qed.

Lemma wrap64_small (z : Z) : - 2 ^ 63 <= z < 2 ^ 63 -> wrap64 z = z.
Proof.
  intro H. unfold wrap64. rewrite Z.mod_small; lia.
Qed.

Lemma quot_seconds (a unit : Z) :
  0 <= a -> 0 < unit -> Z.quot (a * Second) (unit * Second) = a / unit.
Proof.
  intros Ha Hu. unfold Second.
  rewrite Z.quot_div_nonneg by lia.
  apply Z.div_mul_cancel_r; lia.
Qed.

(** The code's rendering is the spec's [signHHMM] on every offset a parsed
    timestamp can carry. *)
Lemma formatOffset_signHHMM (off : Z) :
  -90000 <= off <= 90000 -> hamnut.formatOffset off = spec.signHHMM off.
Proof.
  intro Hoff. unfold hamnut.formatOffset, spec.signHHMM.
  assert (Hw : wrap64 (off * Second) = off * Second)
    by (apply wrap64_small; unfold Second; lia).
  rewrite Hw.
  assert (Hsign : (off * Second <? 0) = (off <? 0)).
  { unfold Second. destruct (Z.ltb_spec off 0), (Z.ltb_spec (off * 1000000000) 0);
      try reflexivity; lia. }
  rewrite Hsign.
  assert (Habs : (if off <? 0 then wrap64 (- (off * Second)) else off * Second)
                 = Z.abs off * Second).
  { destruct (Z.ltb_spec off 0).
    - rewrite wrap64_small by (unfold Second; lia). lia.
    - lia. }
  rewrite Habs.
  assert (Ha : 0 <= Z.abs off <= 90000) by lia.
  set (a := Z.abs off) in *.
  replace hamnut.Hour with (3600 * Second) by (unfold hamnut.Hour, hamnut.Minute; lia).
  replace hamnut.Minute with (60 * Second) by (unfold hamnut.Minute; lia).
  rewrite !quot_seconds by lia.
  rewrite Z.rem_mod_nonneg by (try apply Z.div_pos; lia).
  assert (Hh : 0 <= a / 3600 < 100).
  { split; [apply Z.div_pos; lia|]. apply Z.div_lt_upper_bound; lia. }
  assert (Hm : 0 <= (a / 60) mod 60 < 100).
  { pose proof (Z.mod_pos_bound (a / 60) 60). lia. }
  pose proof (Itoa_padded Hh) as Ph. pose proof (Itoa_padded Hm) as Pm.
  set (h := a / 3600) in *. set (m := (a / 60) mod 60) in *.
  destruct (off <? 0), (h <? 10), (m <? 10);
    rewrite <- Ph, <- Pm; simpl; rewrite ?append_assoc; reflexivity.
Qed.

(* ------------------------------------------------------------------ *)
(** ** The strict RFC 3339 reader meets [goTime] *)

Lemma parseUint_range (s : string) (lo hi x : Z) :
  time.parseUint s lo hi = Some x -> lo <= x <= hi.
Proof.
  unfold time.parseUint. destruct (time.digitsValue 0 s) as [v|]; [|discriminate].
  destruct (Z.ltb_spec v lo), (Z.ltb_spec hi v); simpl; intro Hx;
    try discriminate. injection Hx as <-. lia.
Qed.

Lemma parseZone_range (s : string) (off : Z) :
  time.parseZone s = Some off -> -90000 <= off <= 90000.
Proof.
  unfold time.parseZone.
  destruct (String.eqb s "Z"); [intro H; injection H as <-; lia|].
  destruct (negb _); [discriminate|].
  destruct (time.parseUint (substring 1 2 s) 0 23) as [hr|] eqn:Hhr; [|discriminate].
  destruct (time.parseUint (substring 4 2 s) 0 59) as [mm|] eqn:Hmm; [|discriminate].
  apply parseUint_range in Hhr, Hmm.
  destruct (_ && _); [|discriminate].
  destruct (time.byteIs s 0 "-"); intro H; injection H as <-; lia.
Qed.

Lemma parseRFC3339_goTime : goTime time.parseRFC3339.
Proof.
  split; [reflexivity|].
  intros v off. unfold time.parseRFC3339.
  destruct (Nat.ltb _ _); [discriminate|].
  destruct (time.parseUint (substring 0 4 v) 0 9999) as [year|]; [|discriminate].
  destruct (time.parseUint (substring 5 2 v) 1 12) as [month|]; [|discriminate].
  destruct (time.parseUint (substring 8 2 v) 1 _); [|discriminate].
  destruct (time.parseUint (substring 11 2 v) 0 23); [|discriminate].
  destruct (time.parseUint (substring 14 2 v) 0 59); [|discriminate].
  destruct (time.parseUint (substring 17 2 v) 0 59); [|discriminate].
  destruct (_ && _); [|discriminate].
  apply parseZone_range.
Qed.

(* ------------------------------------------------------------------ *)
(** ** The JSON adapter: time-offset normalisation *)

Section ResolveTimeOffset.
Variable E : hamnut.Env.
Variable resp : hamnut.PrefixLookupResponse.

Lemma resolveTimeOffset_explicit :
  hamnut.TimeOffset resp <> "" ->
  hamnut.resolveTimeOffset E resp = hamnut.TimeOffset resp.
Proof.
  intro Hne. unfold hamnut.resolveTimeOffset.
  apply isEmpty_false in Hne. now rewrite Hne.
Qed.

Lemma resolveTimeOffset_derived :
  hamnut.TimeOffset resp = "" -> hamnut.LocalTime resp <> "" ->
  hamnut.resolveTimeOffset E resp =
  match hamnut.time_Parse_RFC3339 E (hamnut.LocalTime resp) with
  | Some offsetSec => hamnut.formatOffset offsetSec
  | None =>
      if Nat.leb 6 (String.length (hamnut.LocalTime resp))
      then strings.suffix 6 (hamnut.LocalTime resp)
      else ""
  end.
Proof.
  intros Hto Hl. unfold hamnut.resolveTimeOffset.
  apply isEmpty_true in Hto. apply isEmpty_false in Hl.
  now rewrite Hto, Hl.
Qed.

Lemma resolveTimeOffset_nothing :
  hamnut.TimeOffset resp = "" -> hamnut.LocalTime resp = "" ->
  hamnut.resolveTimeOffset E resp = "".
Proof.
  intros Hto Hl. unfold hamnut.resolveTimeOffset. now rewrite Hto, Hl.
Qed.

End ResolveTimeOffset.

(** C6.  Time-offset resolution of the JSON adapter, in priority order: an
    explicit offset field is copied; else a local time that parses as
    RFC 3339 yields its zone offset as sign, two zero-padded hour digits,
    colon, two zero-padded minute digits (and the timestamp
    2025-11-30T13:31:07+02:00 yields exactly +02:00); else a local time of
    at least 6 characters yields its last 6 characters verbatim; else the
    offset is empty; and whatever the timestamp, decoding a found response
    returns no error, with this offset in the record. *)
Theorem hamnut_time_offset_resolution
  (E : hamnut.Env) (resp : hamnut.PrefixLookupResponse) :
  goTime (hamnut.time_Parse_RFC3339 E) ->
  let parse := hamnut.time_Parse_RFC3339 E in
  let localTime := hamnut.LocalTime resp in
  let out := hamnut.resolveTimeOffset E resp in
  (hamnut.TimeOffset resp <> "" -> out = hamnut.TimeOffset resp) /\
  (hamnut.TimeOffset resp = "" ->
     (forall off, parse localTime = Some off -> out = spec.signHHMM off) /\
     (localTime = "2025-11-30T13:31:07+02:00" ->
      parse localTime = Some 7200 -> out = "+02:00") /\
     (parse localTime = None -> (6 <= String.length localTime)%nat ->
      spec.lastChars 6 localTime out) /\
     (parse localTime = None -> (String.length localTime < 6)%nat -> out = "")) /\
  (forall body,
     hamnut.json_Unmarshal E body = Ok resp -> hamnut.Found resp = true ->
     snd (hamnut.unmarshalResponse E body) = None /\
     Country.TimeOffset (fst (hamnut.unmarshalResponse E body)) = out).
Proof.
  intros [Hempty Hrange] parse localTime out.
  assert (Hb : hamnut.TimeOffset resp = "" ->
               forall off, parse localTime = Some off -> out = spec.signHHMM off).
  { intros Hto off Hp. subst out parse localTime.
    rewrite resolveTimeOffset_derived; [| exact Hto |].
    - rewrite Hp. apply formatOffset_signHHMM. eapply Hrange, Hp.
    - intro Hl. rewrite Hl, Hempty in Hp. discriminate. }
  split; [|split].
  - intro Hne. subst out. now apply resolveTimeOffset_explicit.
  - intro Hto. split; [exact (Hb Hto)|]. split; [|split].
    + intros _ Hp. rewrite (Hb Hto _ Hp). reflexivity.
    + intros Hp Hlen. subst out parse localTime.
      rewrite resolveTimeOffset_derived; [| exact Hto |].
      * rewrite Hp. apply Nat.leb_le in Hlen as Hlen'. rewrite Hlen'.
        now apply suffix_lastChars.
      * intro Hl. rewrite Hl in Hlen. simpl in Hlen. lia.
    + intros Hp Hlen. subst out parse localTime.
      destruct (string_dec (hamnut.LocalTime resp) "") as [Hl|Hl].
      * now apply resolveTimeOffset_nothing.
      * rewrite resolveTimeOffset_derived by assumption.
        rewrite Hp. apply Nat.leb_gt in Hlen. now rewrite Hlen.
  - intros body Hdec Hfound. unfold hamnut.unmarshalResponse.
    rewrite Hdec, Hfound. simpl. split; reflexivity.
Qed.

Lemma hamnut_time_offset_resolution_witness :
  hamnut.unmarshalResponse (stub.hamnutEnv (fun _ => stub.ok200 "")) stub.bodyLocalTime
  = (Country.mk "TestLand" "K1" "" "" "14" "28" "" "+02:00", None)
  /\ hamnut.resolveTimeOffset (stub.hamnutEnv (fun _ => stub.ok200 "")) stub.respLocalTime
     = "+02:00".
Proof.
  pose proof (@hamnut_time_offset_resolution
                (stub.hamnutEnv (fun _ => stub.ok200 "")) stub.respLocalTime
                parseRFC3339_goTime) as [_ [Hb _]].
  split; [reflexivity|].
  destruct (Hb eq_refl) as [_ [Hex _]].
  apply Hex; reflexivity.
Defined.

(* ------------------------------------------------------------------ *)
(** ** Errors and containment *)

Lemma Contains_unfold (s substr : string) :
  strings.Contains s substr =
  if String.prefix substr s then true
  else match s with
       | EmptyString => false
       | String _ s' => strings.Contains s' substr
       end.
Proof. destruct s; reflexivity. Qed.

Lemma prefix_append (a b : string) : String.prefix a (a ++ b) = true.
Proof.
  induction a as [|c a IH]; simpl.
  - destruct b; reflexivity.
  - destruct (ascii_dec c c) as [_|Hc]; [exact IH | congruence].
Qed.

Lemma Contains_prefix (s substr : string) :
  String.prefix substr s = true -> strings.Contains s substr = true.
Proof. intro H. rewrite Contains_unfold, H. reflexivity. Qed.

Lemma Contains_skip (front s substr : string) :
  strings.Contains s substr = true -> strings.Contains (front ++ s) substr = true.
Proof.
  intro H. induction front as [|c front IH]; simpl append; [exact H|].
  rewrite Contains_unfold. destruct (String.prefix _ _); [reflexivity | exact IH].
Qed.

(** A string contains each of its infixes. *)
Lemma Contains_infix (a b c : string) : strings.Contains (a ++ b ++ c) b = true.
Proof. apply Contains_skip, Contains_prefix, prefix_append. Qed.

Lemma Contains_tail (a b : string) : strings.Contains (a ++ b) b = true.
Proof.
  rewrite <- (append_nil_r b) at 1. apply Contains_infix.
Qed.

(* ------------------------------------------------------------------ *)
(** ** The JSON adapter: response classification *)

Section HamnutClassification.
Variable E : hamnut.Env.

Lemma hamnut_unmarshal_found_false (body : string) (resp : hamnut.PrefixLookupResponse) :
  hamnut.json_Unmarshal E body = Ok resp -> hamnut.Found resp = false ->
  hamnut.unmarshalResponse E body =
  (Country.zero,
   Some (Detailed "hamnut.Service.unmarshalResponse"
           "prefix not found by Hamnut (found=false)" (Some ErrNotFound))).
Proof.
  intros Hdec Hf. unfold hamnut.unmarshalResponse. now rewrite Hdec, Hf.
Qed.

Lemma hamnut_unmarshal_success (body : string) (c : Country.t) :
  hamnut.unmarshalResponse E body = (c, None) ->
  exists resp, hamnut.json_Unmarshal E body = Ok resp /\ hamnut.Found resp = true.
Proof.
  unfold hamnut.unmarshalResponse.
  destruct (hamnut.json_Unmarshal E body) as [resp|err]; [|discriminate].
  destruct (hamnut.Found resp) eqn:Hf; simpl; [|discriminate].
  intros _. now exists resp.
Qed.

(** Once the server has answered, [LookupWithContext] is a case analysis
    on the response. *)
Lemma hamnut_answered_unfold s ctx callsign cl req resp :
  hamnut.answered E s ctx callsign cl req resp ->
  hamnut.LookupWithContext E s ctx callsign =
  let op := "hamnut.Service.LookupWithContext" in
  if StatusCode resp =? 404 then
    Done (Country.zero, Some (Detailed op "Prefix not found by Hamnut" (Some ErrNotFound)))
      [Sent cl req]
  else if (StatusCode resp <? 200) || (300 <=? StatusCode resp) then
    Done (Country.zero,
          Some (Detailed op
                  ("Service returned unexpected status " ++ Itoa (StatusCode resp)
                   ++ ": " ++ Body resp) None))
      [Sent cl req]
  else
  match ReadErr resp with
  | Some err =>
      Done (Country.zero,
            Some (Detailed op ("Failed to read response body: " ++ Error err) (Some err)))
        [Sent cl req]
  | None =>
  match hamnut.unmarshalResponse E (Body resp) with
  | (_, Some err) =>
      Done (Country.zero, Some (Detailed op "Failed to unmarshal response body" (Some err)))
        [Sent cl req]
  | (country, None) => Done (country, None) [Sent cl req]
  end end.
Proof.
  intros (cfg & u & (Hinit & Hcfg & Hen & Hcl) & Hcs & Hu & Hreq & -> & Hdo).
  unfold hamnut.LookupWithContext.
  rewrite Hinit, Hcfg, Hen, Hcl. simpl negb. cbv iota.
  apply isEmpty_false in Hcs. rewrite Hcs, Hu.
  cbv zeta in Hreq, Hdo |- *. rewrite Hreq, Hdo. reflexivity.
Qed.

End HamnutClassification.

(** C7.  Response classification of the JSON adapter, once the server has
    answered the request of [LookupWithContext]: status 404 yields a
    not-found error; any other status outside [200,300) yields an upstream
    error whose text contains the decimal status code and the body; a 2xx
    answer whose payload decodes with found = false yields a not-found
    error and the empty record, not a decoded success. *)
Theorem hamnut_response_classification
  (E : hamnut.Env) (s : hamnut.Service) (ctx : option Context) (callsign : string)
  (cl : Client) (req : Request) (resp : Response) :
  hamnut.answered E s ctx callsign cl req resp ->
  exists record err,
    hamnut.LookupWithContext E s ctx callsign = Done (record, err) [Sent cl req] /\
    (StatusCode resp = 404 -> exists e, err = Some e /\ NotFoundError e) /\
    (StatusCode resp <> 404 -> StatusCode resp < 200 \/ 300 <= StatusCode resp ->
     exists e, err = Some e /\
       UpstreamError ("Service returned unexpected status " ++ Itoa (StatusCode resp)
                      ++ ": " ++ Body resp) e /\
       strings.Contains (Error e) (Itoa (StatusCode resp)) = true /\
       strings.Contains (Error e) (Body resp) = true) /\
    (200 <= StatusCode resp < 300 -> ReadErr resp = None ->
     forall payload, hamnut.json_Unmarshal E (Body resp) = Ok payload ->
       hamnut.Found payload = false ->
       record = Country.zero /\ exists e, err = Some e /\ NotFoundError e).
Proof.
  intro Hans. rewrite (hamnut_answered_unfold Hans). cbv zeta.
  destruct (Z.eqb_spec (StatusCode resp) 404) as [H404|H404].
  { eexists _, _. split; [reflexivity|]. split; [|split].
    - intros _. eexists. split; reflexivity.
    - intro Hne. contradiction.
    - intros Hrange. lia. }
  destruct ((StatusCode resp <? 200) || (300 <=? StatusCode resp)) eqn:Hout.
  { eexists _, _. split; [reflexivity|]. split; [|split].
    - intro Heq. contradiction.
    - intros _ _. eexists. split; [reflexivity|]. split; [|split].
      + split; [reflexivity|]. cbn [carries]. now rewrite String.eqb_refl.
      + unfold Error. apply Contains_infix.
      + unfold Error. apply Contains_skip, Contains_skip, Contains_tail.
    - intros Hrange. apply orb_true_iff in Hout. destruct Hout as [Hlt|Hge].
      + apply Z.ltb_lt in Hlt. lia.
      + apply Z.leb_le in Hge. lia. }
  apply orb_false_iff in Hout. destruct Hout as [Hlt Hge].
  apply Z.ltb_ge in Hlt. apply Z.leb_gt in Hge.
  destruct (ReadErr resp) as [rerr|] eqn:Hread.
  { eexists _, _. split; [reflexivity|]. split; [|split].
    - intro. contradiction.
    - intros _ [Hl|Hg]; lia.
    - intros _ Hnone. discriminate. }
  destruct (hamnut.unmarshalResponse E (Body resp)) as [country [uerr|]] eqn:Hun.
  - eexists _, _. split; [reflexivity|]. split; [|split].
    + intro. contradiction.
    + intros _ [Hl|Hg]; lia.
    + intros _ _ payload Hdec Hfound.
      rewrite (hamnut_unmarshal_found_false E _ Hdec Hfound) in Hun.
      injection Hun as <- <-. split; [reflexivity|].
      eexists. split; reflexivity.
  - eexists _, _. split; [reflexivity|]. split; [|split].
    + intro. contradiction.
    + intros _ [Hl|Hg]; lia.
    + intros _ _ payload Hdec Hfound.
      rewrite (hamnut_unmarshal_found_false E _ Hdec Hfound) in Hun. discriminate.
Qed.

Lemma stub_hamnut_answered (status : Z) (body : string) :
  hamnut.answered (stub.hamnutEnv (stub.answering status body)) stub.hamnutReady
    (Some Background) "K1ABC" stub.client stub.hamnutRequest
    (mkResponse status body None).
Proof.
  exists (stub.config true), (mkURL "http" "example.test" "" []).
  repeat split. discriminate.
Qed.

Lemma hamnut_response_classification_witness :
  exists e,
    hamnut.Lookup (stub.hamnutEnv (stub.answering 400 "bad request")) stub.hamnutReady
      "K1ABC"
    = Done (Country.zero, Some e) [Sent stub.client stub.hamnutRequest] /\
    strings.Contains (Error e) "400" = true /\
    strings.Contains (Error e) "bad request" = true.
Proof.
  destruct (hamnut_response_classification (stub_hamnut_answered 400 "bad request"))
    as (record & err & Heq & _ & Hup & _).
  destruct Hup as (e & -> & _ & Hcode & Hbody);
    [simpl; discriminate | right; simpl; lia |].
  exists e. split; [| split; [exact Hcode | exact Hbody]].
  unfold hamnut.Lookup. rewrite Heq.
  vm_compute in Heq. injection Heq as Hrecord _. now rewrite <- Hrecord.
Defined.

(** C10.  In the JSON adapter a body that decodes with [Found] at its false
    default (the [found] key omitted) is a not-found error whatever country
    data the payload carries, from [unmarshalResponse] and from
    [LookupWithContext] on a 2xx answer alike; and a body decodes to a
    record without error only when the payload has found = true. *)
Theorem hamnut_found_defaults_to_not_found
  (E : hamnut.Env) (body : string) (payload : hamnut.PrefixLookupResponse) :
  hamnut.json_Unmarshal E body = Ok payload ->
  hamnut.Found payload = false ->
  (exists e, hamnut.unmarshalResponse E body = (Country.zero, Some e) /\
             NotFoundError e) /\
  (forall s ctx callsign cl req resp,
     hamnut.answered E s ctx callsign cl req resp ->
     200 <= StatusCode resp < 300 -> ReadErr resp = None -> Body resp = body ->
     exists e, hamnut.LookupWithContext E s ctx callsign
               = Done (Country.zero, Some e) [Sent cl req] /\
               NotFoundError e) /\
  (forall body' country,
     hamnut.unmarshalResponse E body' = (country, None) ->
     exists payload', hamnut.json_Unmarshal E body' = Ok payload' /\
                      hamnut.Found payload' = true).
Proof.
  intros Hdec Hfound. split; [|split].
  - rewrite (hamnut_unmarshal_found_false E _ Hdec Hfound).
    eexists. split; reflexivity.
  - intros s ctx callsign cl req resp Hans Hrange Hread Hbody.
    rewrite (hamnut_answered_unfold Hans). cbv zeta.
    destruct (Z.eqb_spec (StatusCode resp) 404) as [H404|_]; [lia|].
    destruct (Z.ltb_spec (StatusCode resp) 200) as [Hlt|_]; [lia|].
    destruct (Z.leb_spec 300 (StatusCode resp)) as [Hge|_]; [lia|].
    simpl orb. cbv iota. rewrite Hread, Hbody.
    rewrite (hamnut_unmarshal_found_false E _ Hdec Hfound).
    eexists. split; reflexivity.
  - intros body' country. apply hamnut_unmarshal_success.
Qed.

Lemma hamnut_found_defaults_to_not_found_witness :
  hamnut.CountryName stub.respNoFoundKey = "United States" /\
  exists e,
    hamnut.Lookup (stub.hamnutEnv (stub.answering 200 stub.bodyNoFoundKey))
      stub.hamnutReady "K1ABC"
    = Done (Country.zero, Some e) [Sent stub.client stub.hamnutRequest] /\
    NotFoundError e.
Proof.
  split; [reflexivity|].
  destruct (@hamnut_found_defaults_to_not_found
              (stub.hamnutEnv (stub.answering 200 stub.bodyNoFoundKey))
              stub.bodyNoFoundKey stub.respNoFoundKey eq_refl eq_refl)
    as (_ & Hlookup & _).
  apply (Hlookup _ _ _ _ _ _ (stub_hamnut_answered 200 stub.bodyNoFoundKey));
    [simpl; lia | reflexivity | reflexivity].
Defined.

(* ------------------------------------------------------------------ *)
(** ** [TrimSpace]: what it leaves is tidy *)

Section RunesFacts.
Import strings.
Variable sp1 : ascii -> bool.
Variable sp2 : ascii -> ascii -> bool.
Variable sp3 : ascii -> ascii -> ascii -> bool.

Local Abbreviation D := (dropRune sp1 sp2 sp3).
Local Abbreviation T := (trimRunes sp1 sp2 sp3).

Lemma trimRunes_unfold (s : string) :
  T s = match D s with Some r => T r | None => s end.
Proof.
  destruct s as [|a [|b [|c s]]]; simpl; try reflexivity.
  - now destruct (sp1 a).
  - destruct (sp1 a); [reflexivity|]. now destruct (sp2 a b).
  - destruct (sp1 a); [reflexivity|]. destruct (sp2 a b); [reflexivity|].
    now destruct (sp3 a b c).
Qed.

Lemma dropRune_suffix (s r : string) :
  D s = Some r -> exists p, s = p ++ r /\ isEmpty p = false.
Proof.
  destruct s as [|a [|b [|c s]]]; simpl; try discriminate.
  - destruct (sp1 a); [|discriminate]. intro H. injection H as <-.
    now exists (String a "").
  - destruct (sp1 a); [intro H; injection H as <-; now exists (String a "")|].
    destruct (sp2 a b); [|discriminate]. intro H; injection H as <-.
    now exists (String a (String b "")).
  - destruct (sp1 a); [intro H; injection H as <-; now exists (String a "")|].
    destruct (sp2 a b); [intro H; injection H as <-; now exists (String a (String b ""))|].
    destruct (sp3 a b c); [|discriminate]. intro H; injection H as <-.
    now exists (String a (String b (String c ""))).
Qed.

Lemma dropRune_shorter (s r : string) :
  D s = Some r -> (String.length r < String.length s)%nat.
Proof.
  intro H. apply dropRune_suffix in H. destruct H as (p & -> & Hp).
  rewrite length_append. destruct p; [discriminate | simpl; lia].
Qed.

Lemma trimRunes_facts (n : nat) :
  forall s, (String.length s <= n)%nat ->
    D (T s) = None /\ exists p, s = p ++ T s.
Proof.
  induction n as [|n IH]; intros s Hn.
  - destruct s; [|simpl in Hn; lia]. split; [reflexivity | now exists ""].
  - rewrite trimRunes_unfold. destruct (D s) as [r|] eqn:Hd.
    + pose proof (dropRune_shorter _ Hd) as Hlt.
      destruct (IH r) as [Hfix [p Hp]]; [lia|].
      split; [exact Hfix|].
      apply dropRune_suffix in Hd. destruct Hd as (q & -> & _).
      exists (q ++ p). now rewrite append_assoc, <- Hp.
    + split; [exact Hd | now exists ""].
Qed.

Lemma dropRune_trimRunes (s : string) : D (T s) = None.
Proof. apply (trimRunes_facts (n := String.length s)). lia. Qed.

Lemma trimRunes_suffix (s : string) : exists p, s = p ++ T s.
Proof. apply (trimRunes_facts (n := String.length s)). lia. Qed.

Lemma trimRunes_id (s : string) : D s = None -> T s = s.
Proof. intro H. now rewrite trimRunes_unfold, H. Qed.

Lemma dropRune_append (p q r : string) :
  D p = Some r -> D (p ++ q) = Some (r ++ q).
Proof.
  destruct p as [|a [|b [|c p]]]; simpl; try discriminate.
  - destruct (sp1 a); [|discriminate]. intro H. now injection H as <-.
  - destruct (sp1 a); [intro H; now injection H as <-|].
    destruct (sp2 a b); [|discriminate]. intro H. now injection H as <-.
  - destruct (sp1 a); [intro H; now injection H as <-|].
    destruct (sp2 a b); [intro H; now injection H as <-|].
    destruct (sp3 a b c); [|discriminate]. intro H. now injection H as <-.
Qed.

Hypothesis sp2_hi : forall a b, sp2 a b = true -> hi b = true.
Hypothesis sp3_hi : forall a b c, sp3 a b c = true -> hi b = true /\ hi c = true.

Lemma dropRune_blocked (p q : string) :
  D p = None -> isEmpty p = false -> plainHead q = true -> D (p ++ q) = None.
Proof.
  intros Hd Hp Hq.
  assert (H2 : forall a b, hi b = false -> sp2 a b = false).
  { intros a b Hb. destruct (sp2 a b) eqn:H; [|reflexivity].
    apply sp2_hi in H. congruence. }
  assert (H3b : forall a b c, hi b = false -> sp3 a b c = false).
  { intros a b c Hb. destruct (sp3 a b c) eqn:H; [|reflexivity].
    apply sp3_hi in H. destruct H. congruence. }
  assert (H3c : forall a b c, hi c = false -> sp3 a b c = false).
  { intros a b c Hb. destruct (sp3 a b c) eqn:H; [|reflexivity].
    apply sp3_hi in H. destruct H. congruence. }
  destruct p as [|a [|b [|c p]]]; [discriminate| | |]; simpl in Hd |- *.
  - destruct (sp1 a); [discriminate|].
    destruct q as [|x [|y q]]; [reflexivity| |]; simpl in Hq;
      apply negb_true_iff in Hq.
    + now rewrite (H2 a x Hq).
    + now rewrite (H2 a x Hq), (H3b a x y Hq).
  - destruct (sp1 a); [discriminate|]. destruct (sp2 a b); [discriminate|].
    destruct q as [|x q]; [reflexivity|]. simpl in Hq. apply negb_true_iff in Hq.
    simpl. now rewrite (H3c a b x Hq).
  - destruct (sp1 a); [discriminate|]. destruct (sp2 a b); [discriminate|].
    now destruct (sp3 a b c).
Qed.

End RunesFacts.

Section Reverse.
Import strings.

Lemma reverse_append (a b : string) : reverse (a ++ b) = reverse b ++ reverse a.
Proof.
  induction a as [|c a IH]; simpl; [now rewrite append_nil_r|].
  now rewrite IH, append_assoc.
Qed.

Lemma reverse_involutive (s : string) : reverse (reverse s) = s.
Proof.
  induction s as [|c s IH]; simpl; [reflexivity|].
  now rewrite reverse_append, IH.
Qed.

Lemma isEmpty_reverse (s : string) : isEmpty (reverse s) = isEmpty s.
Proof. destruct s as [|c s]; simpl; [reflexivity|]. now destruct (reverse s). Qed.

End Reverse.

(** The bytes of a white-space rune above the ASCII range are all high. *)
Lemma isSpace2_hi (a b : ascii) : strings.isSpace2 a b = true -> hi a = true /\ hi b = true.
Proof.
  unfold strings.isSpace2, hi. intro H.
  apply andb_true_iff in H. destruct H as [Ha Hb].
  apply Nat.eqb_eq in Ha. apply orb_true_iff in Hb.
  split; apply Nat.leb_le; [lia|].
  destruct Hb as [Hb|Hb]; apply Nat.eqb_eq in Hb; lia.
Qed.

Lemma isSpace3_hi (a b c : ascii) :
  strings.isSpace3 a b c = true -> hi a = true /\ hi b = true /\ hi c = true.
Proof.
  unfold strings.isSpace3, hi. intro H.
  repeat (apply orb_true_iff in H; destruct H as [H|H]);
    repeat (apply andb_true_iff in H; destruct H as [H ?]);
    repeat match goal with
           | X : (_ || _) = true |- _ => apply orb_true_iff in X; destruct X as [X|X]
           | X : (_ && _) = true |- _ => apply andb_true_iff in X; destruct X as [X ?]
           end;
    repeat match goal with
           | X : Nat.eqb _ _ = true |- _ => apply Nat.eqb_eq in X
           | X : Nat.leb _ _ = true |- _ => apply Nat.leb_le in X
           end;
    repeat split; apply Nat.leb_le; lia.
Qed.

Section TrimFacts.
Import strings.

Local Abbreviation DL := (dropRune isSpace isSpace2 isSpace3).
Local Abbreviation DR :=
  (dropRune isSpace (fun b a => isSpace2 a b) (fun c b a => isSpace3 a b c)).
Local Abbreviation TR :=
  (trimRunes isSpace (fun b a => isSpace2 a b) (fun c b a => isSpace3 a b c)).

(** What [trimLeft] leaves does not start with white space ... *)
Lemma trimLeft_solid (s : string) : DL (trimLeft s) = None.
Proof. apply dropRune_trimRunes. Qed.

(** ... and what [trimRight] leaves does not end with it. *)
Lemma trimRight_solid (s : string) : DR (reverse (trimRight s)) = None.
Proof. unfold trimRight. rewrite reverse_involutive. apply dropRune_trimRunes. Qed.

Lemma trimLeft_id (s : string) : DL s = None -> trimLeft s = s.
Proof. apply trimRunes_id. Qed.

Lemma trimRight_id (s : string) : DR (reverse s) = None -> trimRight s = s.
Proof.
  intro H. unfold trimRight. rewrite trimRunes_id by exact H. apply reverse_involutive.
Qed.

Lemma trimRight_prefix (s : string) : exists q, s = trimRight s ++ q.
Proof.
  destruct (trimRunes_suffix isSpace (fun b a => isSpace2 a b)
              (fun c b a => isSpace3 a b c) (reverse s)) as [p Hp].
  exists (reverse p). unfold trimRight.
  rewrite <- reverse_append, <- Hp. symmetry. apply reverse_involutive.
Qed.

Lemma trimRight_keeps_solid (s : string) : DL s = None -> DL (trimRight s) = None.
Proof.
  intro H. destruct (trimRight_prefix s) as [q Hq].
  destruct (DL (trimRight s)) as [r|] eqn:Hd; [|reflexivity].
  apply (@dropRune_append isSpace isSpace2 isSpace3 _ q) in Hd.
  rewrite <- Hq in Hd. congruence.
Qed.

Lemma TrimSpace_idem (s : string) : TrimSpace (TrimSpace s) = TrimSpace s.
Proof.
  unfold TrimSpace.
  rewrite (trimLeft_id (trimRight (trimLeft s))).
  - apply trimRight_id, trimRight_solid.
  - apply trimRight_keeps_solid, trimLeft_solid.
Qed.

Lemma tidy_TrimSpace (s : string) : tidy (TrimSpace s).
Proof. apply TrimSpace_idem. Qed.

(** A tidy string is one with no white-space rune at either end. *)
Lemma tidy_solid (s : string) : tidy s <-> DL s = None /\ DR (reverse s) = None.
Proof.
  split.
  - intro H. unfold tidy in H. rewrite <- H. unfold TrimSpace. split.
    + apply trimRight_keeps_solid, trimLeft_solid.
    + apply trimRight_solid.
  - intros [Hl Hr]. unfold tidy, TrimSpace.
    rewrite (trimLeft_id _ Hl). now apply trimRight_id.
Qed.

Lemma plainHead_append (a b : string) :
  plainHead a = true -> isEmpty a = false -> plainHead (a ++ b) = true.
Proof. destruct a; [discriminate | simpl; auto]. Qed.

Lemma isEmpty_append (a b : string) : isEmpty b = false -> isEmpty (a ++ b) = false.
Proof. destruct a; simpl; auto. Qed.

(** Two tidy, non-empty strings around a plain separator: the whole is
    tidy. *)
Lemma tidy_append (sep a b : string) :
  plainSep sep ->
  tidy a -> isEmpty a = false -> tidy b -> isEmpty b = false ->
  tidy (a ++ sep ++ b).
Proof.
  intros (Hh & Ht & Hne) Ha Hane Hb Hbne.
  apply tidy_solid in Ha, Hb. destruct Ha as [Hal Har], Hb as [Hbl Hbr].
  apply tidy_solid. split.
  - apply dropRune_blocked; try assumption.
    + intros x y H. now apply isSpace2_hi in H.
    + intros x y z H. now apply isSpace3_hi in H.
    + now apply plainHead_append.
  - rewrite <- append_assoc, reverse_append.
    apply dropRune_blocked; try assumption.
    + intros x y H. now apply isSpace2_hi in H.
    + intros x y z H. apply isSpace3_hi in H. tauto.
    + now rewrite isEmpty_reverse.
    + rewrite reverse_append. apply plainHead_append; [exact Ht|].
      now rewrite isEmpty_reverse.
Qed.

Lemma plainSep_comma : plainSep ", ".
Proof. repeat split. Qed.

Lemma plainSep_space : plainSep " ".
Proof. repeat split. Qed.

End TrimFacts.



(* ------------------------------------------------------------------ *)
(** ** The XML adapter: field composition *)

Lemma cleaned_skipEmpty (parts : list string) :
  qrz.cleaned parts = spec.skipEmpty (map strings.TrimSpace parts).
Proof.
  induction parts as [|p parts IH]; simpl; [reflexivity|].
  unfold qrz.trim. destruct (strings.isEmpty (strings.TrimSpace p)); simpl;
    now rewrite IH.
Qed.

Lemma joinParts_joinSkippingEmpty (parts : list string) :
  qrz.joinParts parts = spec.joinSkippingEmpty ", " (map strings.TrimSpace parts).
Proof.
  unfold qrz.joinParts, spec.joinSkippingEmpty, strings.Join.
  now rewrite cleaned_skipEmpty.
Qed.

(** Joining tidy, non-empty strings gives a tidy string, non-empty unless
    there was nothing to join. *)
Lemma concat_tidy (sep : string) (l : list string) :
  plainSep sep ->
  Forall (fun p => tidy p /\ strings.isEmpty p = false) l ->
  tidy (String.concat sep l) /\
  (l <> [] -> strings.isEmpty (String.concat sep l) = false).
Proof.
  intro Hsep.
  induction 1 as [|p l [Hp Hpne] Hl [IHt IHne]]; [split; [reflexivity | congruence]|].
  destruct l as [|p' l].
  - simpl. split; [exact Hp | intros _; exact Hpne].
  - change (String.concat sep (p :: p' :: l))
      with (p ++ sep ++ String.concat sep (p' :: l)).
    assert (Hrest : strings.isEmpty (String.concat sep (p' :: l)) = false)
      by (apply IHne; discriminate).
    split.
    + now apply tidy_append.
    + intros _. destruct p; [discriminate | reflexivity].
Qed.

Lemma cleaned_Forall (parts : list string) :
  Forall (fun p => tidy p /\ strings.isEmpty p = false) (qrz.cleaned parts).
Proof.
  induction parts as [|p parts IH]; simpl; [constructor|].
  unfold qrz.trim. destruct (strings.isEmpty (strings.TrimSpace p)) eqn:Hp; simpl.
  - exact IH.
  - constructor; [split; [apply tidy_TrimSpace | exact Hp] | exact IH].
Qed.

(** What [joinParts] returns needs no more trimming. *)
Lemma joinParts_tidy (parts : list string) : tidy (qrz.joinParts parts).
Proof. apply concat_tidy; [apply plainSep_comma | apply cleaned_Forall]. Qed.

Lemma address_refines (a1 a2 st zip country : string) :
  let t := strings.TrimSpace in
  qrz.joinParts [a1; qrz.joinParts [a2; st]; zip; country]
  = spec.address (t a1) (t a2) (t st) (t zip) (t country).
Proof.
  unfold spec.address. cbv zeta.
  rewrite (joinParts_joinSkippingEmpty [a1; qrz.joinParts [a2; st]; zip; country]).
  simpl map.
  pose proof (joinParts_tidy [a2; st]) as Ht. unfold tidy in Ht. rewrite Ht.
  rewrite (joinParts_joinSkippingEmpty [a2; st]). reflexivity.
Qed.

Lemma buildName_refines (cs : qrz.Callsign.t) :
  qrz.buildName cs
  = spec.name (qrz.Callsign.NameFmt cs) (qrz.Callsign.Fname cs)
      (qrz.Callsign.Name cs) (qrz.Callsign.Nickname cs).
Proof.
  unfold qrz.buildName, spec.name, qrz.trim, spec.joinSkippingEmpty, spec.skipEmpty,
    strings.Join.
  destruct (strings.isEmpty (strings.TrimSpace (qrz.Callsign.NameFmt cs)));
    simpl negb; cbv iota; [|reflexivity].
  destruct (strings.TrimSpace (qrz.Callsign.Fname cs)) as [|c f];
    destruct (strings.TrimSpace (qrz.Callsign.Name cs)) as [|d l]; simpl;
    try reflexivity.
  now destruct (strings.TrimSpace (qrz.Callsign.Nickname cs)).
Qed.

Example qrz_test_successfully_maps_contact :
  qrz.unmarshalResponse (stub.qrzEnv (stub.answering 200 "")) stub.bodySuccess
  = (stub.stationSuccess, None).
Proof. reflexivity. Qed.

Example qrz_test_returns_raw_session_error :
  qrz.unmarshalResponse (stub.qrzEnv (stub.answering 200 "")) stub.bodySessionError
  = (ContactedStation.zero,
     Some (Detailed "qrz.Service.unmarshalResponse" "Invalid session key" None)).
Proof. reflexivity. Qed.

Example qrz_test_propagates_not_found :
  qrz.unmarshalResponse (stub.qrzEnv (stub.answering 200 "")) stub.bodyNotFound
  = (ContactedStation.zero,
     Some (Detailed "qrz.Service.unmarshalResponse" "Callsign not found"
             (Some ErrNotFound))).
Proof. reflexivity. Qed.

Example qrz_test_requires_callsign_element :
  qrz.unmarshalResponse (stub.qrzEnv (stub.answering 200 "")) stub.bodyMissingCall
  = (ContactedStation.zero,
     Some (Detailed "qrz.Service.unmarshalResponse"
             "callsign not present in QRZ response" (Some ErrNotFound))).
Proof. reflexivity. Qed.

Example qrz_Initialize_acquires_key :
  qrz.Initialize (stub.qrzEnv (stub.qrzServer stub.bodySessionKey "")) stub.qrzFresh
  = (None, stub.qrzReady,
     [Sent stub.client
        (qrz.sessionRequest (stub.config true)
           (qrz.sessionURL (stub.config true) (mkURL "http" "example.test" "" [])))]).
Proof. reflexivity. Qed.

Lemma classify_success (E : qrz.Env) (db : qrz.Database) (station : ContactedStation.t) :
  qrz.classify E db = (station, None) ->
  strings.TrimSpace (qrz.Session.Error (qrz.Session_ db)) = "" /\
  qrz.ToUpper E (strings.TrimSpace (qrz.Callsign.Call (qrz.Callsign_ db))) <> "" /\
  station = qrz.mapStation E
              (qrz.ToUpper E (strings.TrimSpace (qrz.Callsign.Call (qrz.Callsign_ db))))
              (qrz.Callsign_ db).
Proof.
  unfold qrz.classify, qrz.trim.
  destruct (strings.TrimSpace (qrz.Session.Error (qrz.Session_ db))) as [|c rest]; simpl.
  - destruct (qrz.ToUpper E _) as [|c rest]; simpl; [discriminate|].
    intro H. injection H as <-. repeat split. discriminate.
  - destruct (strings.Contains _ _); discriminate.
Qed.

(** C8, as stated, fails on the address: the claim joins the address
    fields as they are, the code trims each of them first.  With address
    line 1 padded with a space on either side the record carries the
    trimmed line, while the claimed join keeps the padding. *)
Lemma qrz_address_claim_counterexample :
  let E := stub.qrzEnv (stub.answering 200 "") in
  let cs := qrz.Callsign_ stub.dbPaddedAddress in
  (exists station,
     qrz.unmarshalResponse E stub.bodyPaddedAddress = (station, None) /\
     ContactedStation.Address station = "1 MAIN ST, AZ") /\
  spec.address (qrz.Callsign.Addr1 cs) (qrz.Callsign.Addr2 cs) (qrz.Callsign.State cs)
    (qrz.Callsign.Zip cs) (qrz.Callsign.Country cs) = " 1 MAIN ST , AZ" /\
  ~ (forall (Ex : qrz.Env) body db station,
       qrz.xml_Unmarshal Ex body = Ok db ->
       qrz.unmarshalResponse Ex body = (station, None) ->
       let c := qrz.Callsign_ db in
       ContactedStation.Address station
       = spec.address (qrz.Callsign.Addr1 c) (qrz.Callsign.Addr2 c)
           (qrz.Callsign.State c) (qrz.Callsign.Zip c) (qrz.Callsign.Country c)).
Proof.
  intros E cs. split; [|split].
  - eexists. split; reflexivity.
  - reflexivity.
  - intro Hclaim.
    specialize (Hclaim E stub.bodyPaddedAddress stub.dbPaddedAddress _ eq_refl eq_refl).
    vm_compute in Hclaim. discriminate.
Qed.

(** C8, amended.  Field composition of the XML adapter.  Whenever a body
    decodes to a station record, its name is the trimmed display name when
    that is non-empty, else trimmed first and last name joined by one
    space (empty parts skipped), else the trimmed nickname, else empty;
    its address is the claimed join applied to the trimmed fields: trimmed
    address line 1, (trimmed address line 2 joined with trimmed state),
    trimmed postal code and trimmed country joined with comma-space, parts
    that are empty after trimming skipped; call, grid square and
    equivalent call are trimmed, then uppercased.  And a body does decode
    to a record whenever the envelope has no session error and a call that
    is not empty once trimmed and uppercased. *)
Theorem qrz_field_composition (E : qrz.Env) (body : string) (db : qrz.Database) :
  qrz.xml_Unmarshal E body = Ok db ->
  let cs := qrz.Callsign_ db in
  let t := strings.TrimSpace in
  (t (qrz.Session.Error (qrz.Session_ db)) = "" ->
   qrz.ToUpper E (t (qrz.Callsign.Call cs)) <> "" ->
   exists station, qrz.unmarshalResponse E body = (station, None)) /\
  (forall station,
     qrz.unmarshalResponse E body = (station, None) ->
     ContactedStation.Name station
     = spec.name (qrz.Callsign.NameFmt cs) (qrz.Callsign.Fname cs)
         (qrz.Callsign.Name cs) (qrz.Callsign.Nickname cs) /\
     ContactedStation.Address station
     = spec.address (t (qrz.Callsign.Addr1 cs)) (t (qrz.Callsign.Addr2 cs))
         (t (qrz.Callsign.State cs)) (t (qrz.Callsign.Zip cs))
         (t (qrz.Callsign.Country cs)) /\
     ContactedStation.Call station = qrz.ToUpper E (t (qrz.Callsign.Call cs)) /\
     ContactedStation.Gridsquare station = qrz.ToUpper E (t (qrz.Callsign.Grid cs)) /\
     ContactedStation.EqCall station = qrz.ToUpper E (t (qrz.Callsign.PCall cs))).
Proof.
  intros Hdec cs t. unfold qrz.unmarshalResponse. rewrite Hdec. split.
  - intros Herr Hcall. unfold qrz.classify, qrz.trim. fold t. rewrite Herr. simpl.
    fold cs. destruct (qrz.ToUpper E (t (qrz.Callsign.Call cs))) as [|c rest];
      [congruence|].
    simpl. eexists. reflexivity.
  - intros station Hst. apply classify_success in Hst. destruct Hst as (_ & _ & ->).
    fold cs. unfold qrz.mapStation. cbn [ContactedStation.Name ContactedStation.Address
      ContactedStation.Call ContactedStation.Gridsquare ContactedStation.EqCall].
    repeat split.
    + apply buildName_refines.
    + apply address_refines.
Qed.

Lemma qrz_field_composition_witness :
  ContactedStation.Name stub.stationSuccess = stub.wire "FRED 'The Boss' LLOYD" /\
  ContactedStation.Address stub.stationSuccess
  = spec.address "8711 E PINNACLE PEAK RD 193" "SCOTTSDALE" "AZ" "85255" "United States".
Proof.
  destruct (@qrz_field_composition (stub.qrzEnv (stub.answering 200 ""))
              stub.bodySuccess stub.dbSuccess eq_refl) as [_ Hfields].
  destruct (Hfields stub.stationSuccess eq_refl) as (Hname & Haddr & _).
  split; [reflexivity | exact Haddr].
Defined.

(* ------------------------------------------------------------------ *)
(** ** The search for a substring *)

Lemma Contains_nonempty (s p : string) :
  strings.Contains s p = true -> strings.isEmpty p = false -> strings.isEmpty s = false.
Proof. destruct s; [destruct p; simpl; congruence | reflexivity]. Qed.

(* ------------------------------------------------------------------ *)
(** ** The XML adapter: classification of the lookup response *)

Section QrzClassification.
Variable E : qrz.Env.

(** Once the server has answered, [LookupWithContext] is a case analysis
    on the response. *)
Lemma qrz_answered_unfold s ctx callsign cl req resp :
  qrz.answered E s ctx callsign cl req resp ->
  qrz.LookupWithContext E s ctx callsign =
  let op := "qrz.service.LookupWithContext" in
  if (StatusCode resp <? 200) || (300 <=? StatusCode resp) then
    Done (ContactedStation.zero,
          Some (Detailed op
                  ("Service returned unexpected status " ++ Itoa (StatusCode resp)
                   ++ ": " ++ Body resp) None))
      [Sent cl req]
  else
  match ReadErr resp with
  | Some err =>
      Done (ContactedStation.zero,
            Some (Detailed op ("Failed to read response body: " ++ Error err) (Some err)))
        [Sent cl req]
  | None =>
  match qrz.unmarshalResponse E (Body resp) with
  | (_, Some err) =>
      if Is err ErrNotFound then
        qrz.logged (qrz.InfoWith E s "Callsign not found in QRZ.com database")
          (ContactedStation.onlyCall (strings.TrimSpace callsign), None) [Sent cl req]
      else
        Done (ContactedStation.zero,
              Some (Detailed op "Failed to unmarshal response body" (Some err)))
          [Sent cl req]
  | (station, None) => Done (station, None) [Sent cl req]
  end end.
Proof.
  intros (cfg & u & (Hinit & Hcfg & Hen & Hcl) & Hu & Hreq & -> & Hdo).
  unfold qrz.LookupWithContext.
  rewrite Hinit, Hcfg, Hen, Hcl. simpl negb. cbv iota. rewrite Hu.
  cbv zeta in Hreq, Hdo |- *. rewrite Hreq, Hdo. reflexivity.
Qed.

(** ... and once the body is decoded, on the envelope. *)
Lemma qrz_decoded_unfold s ctx callsign cl req db :
  qrz.decoded E s ctx callsign cl req db ->
  qrz.LookupWithContext E s ctx callsign =
  match qrz.classify E db with
  | (_, Some err) =>
      if Is err ErrNotFound then
        qrz.logged (qrz.InfoWith E s "Callsign not found in QRZ.com database")
          (ContactedStation.onlyCall (strings.TrimSpace callsign), None) [Sent cl req]
      else
        Done (ContactedStation.zero,
              Some (Detailed "qrz.service.LookupWithContext"
                      "Failed to unmarshal response body" (Some err)))
          [Sent cl req]
  | (station, None) => Done (station, None) [Sent cl req]
  end.
Proof.
  intros (resp & Hans & Hrange & Hread & Hdec).
  rewrite (qrz_answered_unfold Hans). cbv zeta.
  destruct (Z.ltb_spec (StatusCode resp) 200) as [Hlt|_]; [lia|].
  destruct (Z.leb_spec 300 (StatusCode resp)) as [Hge|_]; [lia|].
  simpl orb. cbv iota. rewrite Hread.
  unfold qrz.unmarshalResponse. rewrite Hdec. reflexivity.
Qed.

(** On an enabled configuration [Lookup] is [LookupWithContext] with the
    background context. *)
Lemma qrz_Lookup_enabled s cfg callsign :
  qrz.Config s = Some cfg -> Enabled cfg = true ->
  qrz.Lookup E s callsign = qrz.LookupWithContext E s (Some Background) callsign.
Proof. intros Hcfg Hen. unfold qrz.Lookup. now rewrite Hcfg, Hen. Qed.

Lemma qrz_classify_not_found (db : qrz.Database) :
  let sessionErr := strings.TrimSpace (qrz.Session.Error (qrz.Session_ db)) in
  sessionErr <> "" ->
  strings.Contains (qrz.ToLower E sessionErr) "not found" = true ->
  qrz.classify E db =
  (ContactedStation.zero,
   Some (Detailed "qrz.Service.unmarshalResponse" sessionErr (Some ErrNotFound))).
Proof.
  intros sessionErr Hne Hc. unfold qrz.classify. fold sessionErr. rewrite Hc.
  apply isEmpty_false in Hne. now rewrite Hne.
Qed.

Lemma qrz_classify_upstream (db : qrz.Database) :
  let sessionErr := strings.TrimSpace (qrz.Session.Error (qrz.Session_ db)) in
  sessionErr <> "" ->
  strings.Contains (qrz.ToLower E sessionErr) "not found" = false ->
  qrz.classify E db =
  (ContactedStation.zero,
   Some (Detailed "qrz.Service.unmarshalResponse" sessionErr None)).
Proof.
  intros sessionErr Hne Hc. unfold qrz.classify. fold sessionErr. rewrite Hc.
  apply isEmpty_false in Hne. now rewrite Hne.
Qed.

Lemma qrz_classify_no_callsign (db : qrz.Database) :
  strings.TrimSpace (qrz.Session.Error (qrz.Session_ db)) = "" ->
  qrz.ToUpper E (strings.TrimSpace (qrz.Callsign.Call (qrz.Callsign_ db))) = "" ->
  qrz.classify E db =
  (ContactedStation.zero,
   Some (Detailed "qrz.Service.unmarshalResponse"
           "callsign not present in QRZ response" (Some ErrNotFound))).
Proof.
  intros Herr Hcall. unfold qrz.classify, qrz.trim. now rewrite Herr, Hcall.
Qed.

End QrzClassification.

Lemma stub_qrz_decoded (lookup : string) (db : qrz.Database) (callsign : string) :
  stub.xml_Unmarshal lookup = Ok db ->
  qrz.decoded (stub.qrzEnv (stub.qrzServer stub.bodySessionKey lookup)) stub.qrzReady
    (Some Background) callsign stub.client
    (stub.qrzRequest (strings.TrimSpace callsign)) db.
Proof.
  intro Hdec. exists (mkResponse 200 lookup None).
  split; [|split; [simpl; lia | split; [reflexivity | exact Hdec]]].
  exists (stub.config true), (mkURL "http" "example.test" "" []).
  repeat split.
Qed.

(** C5, as stated, fails: a session error of one space is non-empty and
    lacks the words, yet the caller gets the decoded station and no
    error, because the code trims the field before it tests it. *)
Lemma qrz_session_error_claim_counterexample :
  qrz.Lookup (stub.qrzEnv (stub.qrzServer stub.bodySessionKey stub.bodyBlankError))
    stub.qrzReady "aa7bq"
  = Done (qrz.mapStation
            (stub.qrzEnv (stub.qrzServer stub.bodySessionKey stub.bodyBlankError))
            "AA7BQ" (qrz.Callsign_ stub.dbBlankError), None)
      [Sent stub.client (stub.qrzRequest "aa7bq")]
  /\
  ~ (forall (E : qrz.Env) s ctx callsign cl req db,
       qrz.decoded E s ctx callsign cl req db ->
       qrz.Session.Error (qrz.Session_ db) <> "" ->
       strings.Contains (qrz.ToLower E (qrz.Session.Error (qrz.Session_ db)))
         "not found" = false ->
       exists record e,
         qrz.LookupWithContext E s ctx callsign = Done (record, Some e) [Sent cl req] /\
         UpstreamError (qrz.Session.Error (qrz.Session_ db)) e).
Proof.
  split; [reflexivity|].
  intro Hclaim.
  destruct (Hclaim _ _ _ _ _ _ _
              (@stub_qrz_decoded stub.bodyBlankError stub.dbBlankError "aa7bq" eq_refl))
    as (record & e & Heq & _); [discriminate | reflexivity |].
  vm_compute in Heq. discriminate.
Qed.

(** C5, amended.  Classification of the XML adapter's lookup response,
    on a decoded envelope, the session-error field being taken trimmed of
    white space as the code takes it.  If it is non-empty and its
    lower-case form contains the words not found, the caller of an
    instance that has a logger gets a successful result whose only
    populated field is the trimmed input callsign.  If it is non-empty and
    lacks the words, the caller gets an upstream error carrying the
    trimmed message.  If it is empty and the callsign element is empty
    once trimmed and uppercased, the decoder classifies the body as not
    found, with the message callsign not present in QRZ response.
    [Lookup] is [LookupWithContext] with the background context here. *)
Theorem qrz_lookup_classification
  (E : qrz.Env) (s : qrz.Service) (ctx : option Context) (callsign : string)
  (cl : Client) (req : Request) (db : qrz.Database) :
  qrz.decoded E s ctx callsign cl req db ->
  let sessionErr := strings.TrimSpace (qrz.Session.Error (qrz.Session_ db)) in
  let lower := qrz.ToLower E sessionErr in
  (sessionErr <> "" -> strings.Contains lower "not found" = true ->
   forall lg, qrz.LoggerService s = Some lg ->
   qrz.LookupWithContext E s ctx callsign
   = Done (ContactedStation.onlyCall (strings.TrimSpace callsign), None)
       [Sent cl req; Info "Callsign not found in QRZ.com database"]) /\
  (sessionErr <> "" -> strings.Contains lower "not found" = false ->
   exists e,
     qrz.LookupWithContext E s ctx callsign
     = Done (ContactedStation.zero, Some e) [Sent cl req] /\
     UpstreamError sessionErr e) /\
  (sessionErr = "" ->
   qrz.ToUpper E (strings.TrimSpace (qrz.Callsign.Call (qrz.Callsign_ db))) = "" ->
   exists e,
     qrz.classify E db = (ContactedStation.zero, Some e) /\
     NotFoundError e /\ Error e = "callsign not present in QRZ response") /\
  qrz.Lookup E s callsign = qrz.LookupWithContext E s (Some Background) callsign.
Proof.
  intros Hdec sessionErr lower.
  pose proof (qrz_decoded_unfold Hdec) as Hunfold.
  split; [|split; [|split]].
  - intros Hne Hc lg Hlg. rewrite Hunfold.
    rewrite (qrz_classify_not_found E db Hne Hc). cbn [Is].
    unfold qrz.logged, qrz.InfoWith. rewrite Hlg. reflexivity.
  - intros Hne Hc. rewrite Hunfold.
    rewrite (qrz_classify_upstream E db Hne Hc). cbn [Is].
    eexists. split; [reflexivity|].
    split; [reflexivity|]. cbn [carries].
    rewrite String.eqb_refl. now rewrite orb_true_r.
  - intros Herr Hcall. rewrite (qrz_classify_no_callsign E db Herr Hcall).
    eexists. split; [reflexivity|]. split; reflexivity.
  - destruct Hdec as (resp & (cfg & u & (_ & Hcfg & Hen & _) & _) & _).
    now apply qrz_Lookup_enabled with cfg.
Qed.

Lemma qrz_lookup_classification_witness :
  qrz.Lookup (stub.qrzEnv (stub.qrzServer stub.bodySessionKey stub.bodyNotFound))
    stub.qrzReady "  k1abc "
  = Done (ContactedStation.onlyCall "k1abc", None)
      [Sent stub.client (stub.qrzRequest "k1abc");
       Info "Callsign not found in QRZ.com database"].
Proof.
  destruct (qrz_lookup_classification
              (@stub_qrz_decoded stub.bodyNotFound stub.dbNotFound "  k1abc " eq_refl))
    as (Hnf & _ & _ & Hlookup).
  rewrite Hlookup.
  apply (Hnf ltac:(discriminate) eq_refl TheLogger eq_refl).
Defined.

(* ------------------------------------------------------------------ *)
(** ** Query strings *)

Lemma Get_filter_other (q : list (string * string)) (k k' : string) :
  k' <> k ->
  Get (filter (fun kv => negb (String.eqb (fst kv) k)) q) k' = Get q k'.
Proof.
  intro Hne. induction q as [|[a v] q IH]; simpl; [reflexivity|].
  destruct (String.eqb_spec a k) as [->|Hak]; simpl.
  - destruct (String.eqb_spec k k'); [congruence | exact IH].
  - destruct (String.eqb a k'); [reflexivity | exact IH].
Qed.

Lemma Get_Set_same (q : list (string * string)) (k v : string) : Get (Set_ q k v) k = v.
Proof.
  induction q as [|[a w] q IH]; simpl.
  - now rewrite String.eqb_refl.
  - destruct (String.eqb_spec a k) as [->|Hak]; simpl.
    + now rewrite String.eqb_refl.
    + destruct (String.eqb_spec a k); [congruence | exact IH].
Qed.

Lemma Get_Set_other (q : list (string * string)) (k k' v : string) :
  k' <> k -> Get (Set_ q k v) k' = Get q k'.
Proof.
  intro Hne. induction q as [|[a w] q IH]; simpl.
  - destruct (String.eqb_spec k k'); [congruence | reflexivity].
  - destruct (String.eqb_spec a k) as [->|Hak]; simpl.
    + destruct (String.eqb_spec k k'); [congruence|]. now apply Get_filter_other.
    + destruct (String.eqb a k'); [reflexivity | exact IH].
Qed.

(* ------------------------------------------------------------------ *)
(** ** The XML adapter: session acquisition *)

Section QrzSession.
Variable E : qrz.Env.

Lemma qrz_Initialize_acquiring s s1 cfg cl :
  qrz.acquiring E s s1 cfg cl ->
  qrz.Initialize E s =
  match qrz.requestAndSetSessionKey E s1 cfg cl with
  | (s2, Some err, evs) =>
      (Some err, qrz.with_Config (Some (qrz.with_Enabled false cfg)) s2, evs)
  | (s2, None, evs) => (None, qrz.with_isInitialized true s2, evs)
  end.
Proof.
  intros (Hinit & Honce & Hlog & s0 & sv & Hres & Hval & Hcl & Hcfg & Hen & -> & ->).
  unfold qrz.Initialize. rewrite Hinit, Honce. unfold qrz.initBody.
  change (qrz.LoggerService (qrz.with_initOnce true s)) with (qrz.LoggerService s).
  destruct (qrz.LoggerService s); [|congruence].
  rewrite Hres, Hval, Hcl, Hcfg, Hen. reflexivity.
Qed.

Lemma qrz_session_unfold s cfg cl req db :
  qrz.sessionDecoded E cfg cl req db ->
  qrz.requestAndSetSessionKey E s cfg cl =
  let op := "qrz.Service.fetchAndSetSessionKey" in
  if negb (strings.isEmpty (qrz.Session.Error (qrz.Session_ db))) then
    (s, Some (Detailed op ("QRZ.com returned error: "
                           ++ qrz.Session.Error (qrz.Session_ db)) None),
     [Sent cl req])
  else if strings.isEmpty (qrz.Session.Key (qrz.Session_ db)) then
    (s, Some (Detailed op "QRZ.com returned missing session key" None), [Sent cl req])
  else
    (qrz.with_sessionKey (qrz.Session.Key (qrz.Session_ db)) s, None, [Sent cl req]).
Proof.
  intros (u & resp & Hu & Hreq & -> & Hdo & Hrange & Hread & Hdec).
  unfold qrz.requestAndSetSessionKey. rewrite Hu. cbv zeta. rewrite Hreq, Hdo.
  destruct (Z.ltb_spec (StatusCode resp) 200) as [Hlt|_]; [lia|].
  destruct (Z.leb_spec 300 (StatusCode resp)) as [Hge|_]; [lia|].
  simpl orb. cbv iota. rewrite Hread, Hdec. reflexivity.
Qed.

(** The lookup request carries the instance's session key as [s]. *)
Lemma qrz_request_carries_key s ctx callsign cl req resp :
  qrz.answered E s ctx callsign cl req resp ->
  Get (Query (rq_url req)) "s" = qrz.sessionKey s.
Proof.
  intros (cfg & u & _ & _ & _ & -> & _).
  unfold qrz.lookupRequest, qrz.lookupURL. simpl.
  rewrite !Get_Set_other by discriminate. apply Get_Set_same.
Qed.

End QrzSession.

(** C9.  Session acquisition of the XML adapter, in a first [Initialize]
    that reaches it.  A decoded envelope whose session block has a
    non-empty error makes it fail with an error embedding that message; one
    with no error and no session key makes it fail reporting a missing
    session key; otherwise the key is stored on the instance, a further
    [Initialize] leaves the instance as it is, and every later lookup
    request carries that key.  Any acquisition failure sets the
    configuration to enabled = false, leaves the instance uninitialized
    and is the error [Initialize] returns. *)
Theorem qrz_session_acquisition
  (E : qrz.Env) (s s1 : qrz.Service) (cfg : LookupConfig) (cl : Client) :
  qrz.acquiring E s s1 cfg cl ->
  (forall e s2 evs,
     qrz.requestAndSetSessionKey E s1 cfg cl = (s2, Some e, evs) ->
     exists s',
       qrz.Initialize E s = (Some e, s', evs) /\
       qrz.Config s' = Some (qrz.with_Enabled false cfg) /\
       qrz.isInitialized s' = false) /\
  (forall req db,
     qrz.sessionDecoded E cfg cl req db ->
     let err := qrz.Session.Error (qrz.Session_ db) in
     let key := qrz.Session.Key (qrz.Session_ db) in
     (err <> "" ->
      exists e s',
        qrz.Initialize E s = (Some e, s', [Sent cl req]) /\
        Error e = "QRZ.com returned error: " ++ err /\
        strings.Contains (Error e) err = true /\
        qrz.Config s' = Some (qrz.with_Enabled false cfg) /\
        qrz.isInitialized s' = false) /\
     (err = "" -> key = "" ->
      exists e s',
        qrz.Initialize E s = (Some e, s', [Sent cl req]) /\
        Error e = "QRZ.com returned missing session key" /\
        qrz.Config s' = Some (qrz.with_Enabled false cfg) /\
        qrz.isInitialized s' = false) /\
     (err = "" -> key <> "" ->
      exists s',
        qrz.Initialize E s = (None, s', [Sent cl req]) /\
        qrz.sessionKey s' = key /\
        qrz.isInitialized s' = true /\
        qrz.Initialize E s' = (None, s', []) /\
        forall ctx callsign cl' req' resp,
          qrz.answered E s' ctx callsign cl' req' resp ->
          Get (Query (rq_url req')) "s" = key)).
Proof.
  intro Hacq. pose proof (qrz_Initialize_acquiring Hacq) as Hinit.
  assert (Hs1 : qrz.Config s1 = Some cfg /\ qrz.isInitialized s1 = false).
  { destruct Hacq as (Hi & _ & _ & s0 & sv & Hres & Hval & _ & Hcfg & _ & _ & ->).
    split; [exact Hcfg|]. simpl.
    assert (Hsv : qrz.isInitialized sv = qrz.isInitialized s0).
    { revert Hval. unfold qrz.validateConfig.
      destruct (qrz.Config s0); [|discriminate].
      repeat match goal with
             | |- context [if ?b then _ else _] => destruct b
             | |- context [match ?x with Ok _ => _ | Err _ => _ end] => destruct x
             end; intro Hv; inversion Hv; reflexivity. }
    rewrite Hsv. revert Hres. unfold qrz.resolveConfig. simpl.
    destruct (qrz.Config s); [intro Hr; injection Hr as <-; exact Hi|].
    destruct (qrz.ConfigService s) as [cs|]; [|discriminate].
    destruct (cs qrz.ServiceName); [|discriminate].
    intro Hr; injection Hr as <-; exact Hi. }
  destruct Hs1 as [Hcfg1 Hinit1].
  split.
  - intros e s2 evs Hreq. rewrite Hreq in Hinit. eexists. split; [exact Hinit|].
    split; [reflexivity|].
    revert Hreq. unfold qrz.requestAndSetSessionKey.
    repeat match goal with
           | |- context [if ?b then _ else _] => destruct b
           | |- context [match ?x with Ok _ => _ | Err _ => _ end] => destruct x
           | |- context [match ?x with Some _ => _ | None => _ end] => destruct x
           end; intro Hv; inversion Hv; subst; exact Hinit1.
  - intros req db Hdec err key.
    rewrite (qrz_session_unfold s1 Hdec) in Hinit. cbv zeta in Hinit.
    fold err key in Hinit.
    split; [|split].
    + intro Herr. apply isEmpty_false in Herr. rewrite Herr in Hinit.
      eexists _, _. split; [exact Hinit|]. unfold Error.
      split; [reflexivity|]. split; [apply Contains_tail|].
      split; [reflexivity | exact Hinit1].
    + intros Herr Hkey. rewrite Herr, Hkey in Hinit.
      eexists _, _. split; [exact Hinit|].
      split; [reflexivity|]. split; [reflexivity | exact Hinit1].
    + intros Herr Hkey. apply isEmpty_false in Hkey. rewrite Herr, Hkey in Hinit.
      eexists. split; [exact Hinit|].
      split; [reflexivity|]. split; [reflexivity|]. split; [reflexivity|].
      intros ctx callsign cl' req' resp Hans.
      now rewrite (qrz_request_carries_key Hans).
Qed.

Lemma stub_qrz_acquiring (login : string) :
  qrz.acquiring (stub.qrzEnv (stub.qrzServer login "")) stub.qrzFresh
    (qrz.with_client (Some stub.client)
       (qrz.mkService None stub.logger (Some (stub.config true)) None false true ""))
    (stub.config true) stub.client.
Proof.
  split; [reflexivity|]. split; [reflexivity|]. split; [discriminate|].
  eexists _, _. split; [reflexivity|]. split; [reflexivity|].
  repeat split.
Qed.

Lemma stub_qrz_sessionDecoded (login : string) (db : qrz.Database) :
  stub.xml_Unmarshal login = Ok db ->
  qrz.sessionDecoded (stub.qrzEnv (stub.qrzServer login "")) (stub.config true)
    stub.client
    (qrz.sessionRequest (stub.config true)
       (qrz.sessionURL (stub.config true) (mkURL "http" "example.test" "" [])))
    db.
Proof.
  intro Hdec. exists (mkURL "http" "example.test" "" []), (mkResponse 200 login None).
  repeat split; try exact Hdec; simpl; lia.
Qed.

Lemma qrz_session_acquisition_witness :
  exists e s',
    qrz.Initialize (stub.qrzEnv (stub.qrzServer stub.bodyLoginRefused "")) stub.qrzFresh
    = (Some e, s',
       [Sent stub.client
          (qrz.sessionRequest (stub.config true)
             (qrz.sessionURL (stub.config true) (mkURL "http" "example.test" "" [])))]) /\
    Error e = "QRZ.com returned error: Username/password incorrect" /\
    qrz.Config s' = Some (stub.config false) /\
    qrz.isInitialized s' = false.
Proof.
  destruct (qrz_session_acquisition (stub_qrz_acquiring stub.bodyLoginRefused))
    as [_ Hdecoded].
  destruct (Hdecoded _ _
              (@stub_qrz_sessionDecoded stub.bodyLoginRefused stub.dbLoginRefused eq_refl))
    as (Herr & _ & _).
  destruct (Herr ltac:(discriminate)) as (e & s' & Hinit & He & _ & Hcfg & Hready).
  exists e, s'. repeat split; assumption.
Defined.

(* ------------------------------------------------------------------ *)
(** ** The lifecycle: [Initialize] and the one-shot gate *)

Ltac break_match :=
  repeat match goal with
         | |- context [if ?b then _ else _] => destruct b
         | |- context [match ?x with Ok _ => _ | Err _ => _ end] => destruct x
         | |- context [match ?x with Some _ => _ | None => _ end] => destruct x
         | |- context [let '(_, _) := ?x in _] => destruct x
         end.

Section Lifecycle.
Variable Eh : hamnut.Env.
Variable Ex : qrz.Env.

Lemma hamnut_validateConfig_keeps op s s' e :
  hamnut.validateConfig Eh op s = (s', e) ->
  hamnut.initOnce s' = hamnut.initOnce s /\
  hamnut.isInitialized s' = hamnut.isInitialized s.
Proof.
  unfold hamnut.validateConfig. break_match; intro H; inversion H; split; reflexivity.
Qed.

Lemma hamnut_resolveConfig_keeps op s s' :
  hamnut.resolveConfig op s = Ok s' ->
  hamnut.initOnce s' = hamnut.initOnce s /\
  hamnut.isInitialized s' = hamnut.isInitialized s /\
  hamnut.LoggerService s' = hamnut.LoggerService s.
Proof.
  unfold hamnut.resolveConfig.
  destruct (hamnut.Config s); [intro H; now inversion H|].
  destruct (hamnut.ConfigService s) as [cs|]; [|discriminate].
  destruct (cs hamnut.ServiceName); [|discriminate].
  intro H. inversion H. repeat split.
Qed.

(** The body never touches the gate. *)
Lemma hamnut_initBody_initOnce s e s' evs :
  hamnut.initBody Eh s = (e, s', evs) -> hamnut.initOnce s' = hamnut.initOnce s.
Proof.
  unfold hamnut.initBody.
  destruct (hamnut.LoggerService s); [|intro H; now inversion H].
  destruct (hamnut.resolveConfig "hamnut.Service.Initialize" s) as [s0|] eqn:Hres;
    [|intro H; now inversion H].
  apply hamnut_resolveConfig_keeps in Hres. destruct Hres as (Ho & _ & _).
  destruct (hamnut.validateConfig Eh "hamnut.Service.Initialize" s0) as [sv [err|]] eqn:Hval;
    apply hamnut_validateConfig_keeps in Hval; destruct Hval as [Hv _].
  - intro H. inversion H. subst. congruence.
  - destruct (hamnut.client sv), (hamnut.Config sv) as [cfg|];
      try destruct (Enabled cfg); intro H; inversion H; simpl; congruence.
Qed.

(** A failing body leaves the ready flag down. *)
Lemma hamnut_initBody_failure s e s' evs :
  hamnut.initBody Eh s = (Some e, s', evs) ->
  hamnut.isInitialized s' = hamnut.isInitialized s.
Proof.
  unfold hamnut.initBody.
  destruct (hamnut.LoggerService s); [|intro H; now inversion H].
  destruct (hamnut.resolveConfig "hamnut.Service.Initialize" s) as [s0|] eqn:Hres;
    [|intro H; now inversion H].
  apply hamnut_resolveConfig_keeps in Hres. destruct Hres as (_ & Hi & _).
  destruct (hamnut.validateConfig Eh "hamnut.Service.Initialize" s0) as [sv [err|]] eqn:Hval;
    apply hamnut_validateConfig_keeps in Hval; destruct Hval as [_ Hv].
  - intro H. inversion H. subst. congruence.
  - destruct (hamnut.client sv), (hamnut.Config sv) as [cfg|];
      try destruct (Enabled cfg); intro H; inversion H.
Qed.

(** After any [Initialize], a further one returns nil and changes nothing. *)
Lemma hamnut_Initialize_again s e s' evs :
  hamnut.Initialize Eh s = (e, s', evs) -> hamnut.Initialize Eh s' = (None, s', []).
Proof.
  unfold hamnut.Initialize at 1.
  destruct (hamnut.isInitialized s) eqn:Hi.
  { intro H. inversion H. subst. unfold hamnut.Initialize. now rewrite Hi. }
  destruct (hamnut.initOnce s) eqn:Ho.
  { intro H. inversion H. subst. unfold hamnut.Initialize. now rewrite Hi, Ho. }
  intro H. apply hamnut_initBody_initOnce in H. simpl in H.
  unfold hamnut.Initialize. rewrite H. now destruct (hamnut.isInitialized s').
Qed.

Lemma qrz_validateConfig_keeps op s s' e :
  qrz.validateConfig Ex op s = (s', e) ->
  qrz.initOnce s' = qrz.initOnce s /\
  qrz.isInitialized s' = qrz.isInitialized s /\
  qrz.sessionKey s' = qrz.sessionKey s.
Proof.
  unfold qrz.validateConfig. break_match; intro H; inversion H; repeat split.
Qed.

Lemma qrz_resolveConfig_keeps op s s' :
  qrz.resolveConfig op s = Ok s' ->
  qrz.initOnce s' = qrz.initOnce s /\
  qrz.isInitialized s' = qrz.isInitialized s /\
  qrz.LoggerService s' = qrz.LoggerService s.
Proof.
  unfold qrz.resolveConfig.
  destruct (qrz.Config s); [intro H; now inversion H|].
  destruct (qrz.ConfigService s) as [cs|]; [|discriminate].
  destruct (cs qrz.ServiceName); [|discriminate].
  intro H. inversion H. repeat split.
Qed.

Lemma qrz_requestAndSetSessionKey_keeps s cfg cl s' e evs :
  qrz.requestAndSetSessionKey Ex s cfg cl = (s', e, evs) ->
  qrz.initOnce s' = qrz.initOnce s /\
  qrz.isInitialized s' = qrz.isInitialized s /\
  qrz.Config s' = qrz.Config s /\
  (e <> None -> s' = s).
Proof.
  unfold qrz.requestAndSetSessionKey.
  break_match; intro H; inversion H; subst; repeat split; congruence.
Qed.

Lemma qrz_initBody_initOnce s e s' evs :
  qrz.initBody Ex s = (e, s', evs) -> qrz.initOnce s' = qrz.initOnce s.
Proof.
  unfold qrz.initBody.
  destruct (qrz.LoggerService s); [|intro H; now inversion H].
  destruct (qrz.resolveConfig "qrz.Service.Initialize" s) as [s0|] eqn:Hres;
    [|intro H; now inversion H].
  apply qrz_resolveConfig_keeps in Hres. destruct Hres as (Ho & _ & _).
  destruct (qrz.validateConfig Ex "qrz.Service.Initialize" s0) as [sv [err|]] eqn:Hval;
    apply qrz_validateConfig_keeps in Hval; destruct Hval as (Hv & _ & _).
  - intro H. inversion H. subst. congruence.
  - destruct (qrz.client sv), (qrz.Config sv) as [cfg|];
      try (intro H; inversion H; simpl; congruence).
    destruct (Enabled cfg); [|intro H; inversion H; simpl; congruence].
    destruct (qrz.requestAndSetSessionKey Ex _ cfg _) as [[s2 [err|]] evs2] eqn:Hreq;
      apply qrz_requestAndSetSessionKey_keeps in Hreq; destruct Hreq as (Hr & _);
      intro H; inversion H; simpl in *; congruence.
Qed.

Lemma qrz_initBody_failure s e s' evs :
  qrz.initBody Ex s = (Some e, s', evs) ->
  qrz.isInitialized s' = qrz.isInitialized s.
Proof.
  unfold qrz.initBody.
  destruct (qrz.LoggerService s); [|intro H; now inversion H].
  destruct (qrz.resolveConfig "qrz.Service.Initialize" s) as [s0|] eqn:Hres;
    [|intro H; now inversion H].
  apply qrz_resolveConfig_keeps in Hres. destruct Hres as (_ & Hi & _).
  destruct (qrz.validateConfig Ex "qrz.Service.Initialize" s0) as [sv [err|]] eqn:Hval;
    apply qrz_validateConfig_keeps in Hval; destruct Hval as (_ & Hv & _).
  - intro H. inversion H. subst. congruence.
  - destruct (qrz.client sv), (qrz.Config sv) as [cfg|];
      try (intro H; now inversion H).
    destruct (Enabled cfg); [|intro H; now inversion H].
    destruct (qrz.requestAndSetSessionKey Ex _ cfg _) as [[s2 [err|]] evs2] eqn:Hreq;
      apply qrz_requestAndSetSessionKey_keeps in Hreq; destruct Hreq as (_ & Hr & _);
      intro H; inversion H; simpl in *; congruence.
Qed.

Lemma qrz_Initialize_again s e s' evs :
  qrz.Initialize Ex s = (e, s', evs) -> qrz.Initialize Ex s' = (None, s', []).
Proof.
  unfold qrz.Initialize at 1.
  destruct (qrz.isInitialized s) eqn:Hi.
  { intro H. inversion H. subst. unfold qrz.Initialize. now rewrite Hi. }
  destruct (qrz.initOnce s) eqn:Ho.
  { intro H. inversion H. subst. unfold qrz.Initialize. now rewrite Hi, Ho. }
  intro H. apply qrz_initBody_initOnce in H. simpl in H.
  unfold qrz.Initialize. rewrite H. now destruct (qrz.isInitialized s').
Qed.

End Lifecycle.

(* ------------------------------------------------------------------ *)
(** ** Concurrent first calls of [Initialize] *)

Lemma nth_error_setNth {A : Type} (l : list A) (i j : nat) (x y : A) :
  nth_error l i = Some y ->
  nth_error (once.setNth i x l) j = if Nat.eqb j i then Some x else nth_error l j.
Proof.
  revert i j. induction l as [|a l IH]; intros [|i] [|j] H; simpl in *;
    try discriminate; try reflexivity.
  now apply IH.
Qed.

(** Look at caller [j] after caller [i] moved: either it is [i], or it is
    where it was. *)
Ltac caller Hj Hi j i :=
  rewrite (@nth_error_setNth _ _ _ _ _ _ Hi) in Hj;
  let Heq := fresh "Heq" in
  let Hne := fresh "Hne" in
  destruct (Nat.eq_dec j i) as [Heq|Hne];
  [ subst j; rewrite Nat.eqb_refl in Hj; try discriminate;
    try (injection Hj as Hj;
         try match type of Hj with _ = ?v => is_var v; subst v end;
         try discriminate)
  | rewrite (proj2 (Nat.eqb_neq j i) Hne) in Hj ].

Section Once.
Variable S : Type.
Variable isInitialized : S -> bool.
Variable body : S -> option error * S.
Variable s0 : S.
Hypothesis fresh : isInitialized s0 = false.

Lemma invariant_start (n : nat) :
  once.invariant isInitialized body s0 (once.start s0 n).
Proof.
  assert (Hall : forall j p, nth_error (repeat once.AtLoad n) j = Some p ->
                             p = once.AtLoad).
  { intros j p H. apply nth_error_In, repeat_spec in H. exact H. }
  unfold once.invariant, once.start. simpl.
  split; [|split; [|split; [|split]]].
  - intros j p Hj Hcs. apply Hall in Hj. subst. discriminate.
  - intros j Hj. apply Hall in Hj. discriminate.
  - intros _. repeat split. exact fresh.
  - discriminate.
  - intros j e Hj. apply Hall in Hj. discriminate.
Qed.

(** Under the mutex a caller is alone. *)
Lemma alone_in_lock (st : once.sys S) (i : nat) (p : once.pc) :
  once.invariant isInitialized body s0 st ->
  nth_error (once.pcs st) i = Some p -> once.inCS p = true ->
  forall j q, j <> i -> nth_error (once.pcs st) j = Some q -> once.inCS q = false.
Proof.
  intros (I1 & _) Hi Hcs j q Hne Hj.
  destruct (once.inCS q) eqn:Hq; [|reflexivity].
  pose proof (I1 _ _ Hj Hq). pose proof (I1 _ _ Hi Hcs). congruence.
Qed.

Lemma invariant_step (i : nat) (st : once.sys S) :
  once.invariant isInitialized body s0 st ->
  once.invariant isInitialized body s0 (once.step isInitialized body i st).
Proof.
  intros Hinv. pose proof Hinv as (I1 & I2 & I3 & I4 & I5). unfold once.step.
  destruct (nth_error (once.pcs st) i) as [p|] eqn:Hi; [|exact Hinv].
  destruct p.
  - (* the ready flag is read *)
    unfold once.invariant, once.moveTo. simpl.
    split; [|split; [|split; [|split]]]; try assumption.
    + intros j q Hj Hcs. caller Hj Hi j i.
      * destruct (isInitialized (once.svc st)); discriminate.
      * now apply I1 with q.
    + intros j Hj. caller Hj Hi j i.
      * destruct (isInitialized (once.svc st)); discriminate.
      * now apply I2 with j.
    + intros j e Hj. caller Hj Hi j i.
      * destruct (isInitialized (once.svc st)) eqn:Hready; [|discriminate].
        injection Hj as <-. split; [|now left].
        destruct (once.done st) eqn:Hd; [reflexivity|].
        destruct (I3 eq_refl) as (_ & _ & Hno). congruence.
      * now apply I5.
  - (* the fast path of Do *)
    unfold once.invariant, once.moveTo. simpl.
    split; [|split; [|split; [|split]]]; try assumption.
    + intros j q Hj Hcs. caller Hj Hi j i.
      * destruct (once.done st); discriminate.
      * now apply I1 with q.
    + intros j Hj. caller Hj Hi j i.
      * destruct (once.done st); discriminate.
      * now apply I2 with j.
    + intros j e Hj. caller Hj Hi j i.
      * destruct (once.done st) eqn:Hd; [|discriminate].
        injection Hj as <-. split; [reflexivity | now left].
      * now apply I5.
  - (* the mutex is taken, if it is free *)
    destruct (once.holder st) as [h|] eqn:Hh; [exact Hinv|].
    unfold once.invariant. simpl.
    split; [|split; [|split; [|split]]]; try assumption.
    + intros j q Hj Hcs. caller Hj Hi j i; [reflexivity|].
      pose proof (I1 _ _ Hj Hcs). congruence.
    + intros j Hj. caller Hj Hi j i. now apply I2 with j.
    + intros j e Hj. caller Hj Hi j i. now apply I5.
  - (* under the mutex, the flag of the gate is read again *)
    pose proof (alone_in_lock Hinv Hi eq_refl) as Halone.
    destruct (sumbool_of_bool (once.done st)) as [Hd|Hd]; unfold once.moveTo;
      rewrite Hd; unfold once.invariant; simpl;
      (split; [|split; [|split; [|split]]]).
    + intros j q Hj Hcs. caller Hj Hi j i.
      rewrite (Halone _ _ Hne Hj) in Hcs. discriminate.
    + intros j Hj. caller Hj Hi j i.
      pose proof (Halone _ _ Hne Hj). discriminate.
    + discriminate.
    + intros _. exact (I4 Hd).
    + intros j e Hj. caller Hj Hi j i.
      * split; [reflexivity | now left].
      * apply I5 in Hj. destruct Hj as [_ Hj]. split; [reflexivity | exact Hj].
    + intros j q Hj Hcs. caller Hj Hi j i.
      * now apply I1 with once.InLock.
      * now apply I1 with q.
    + intros j Hj. reflexivity.
    + intros _. exact (I3 Hd).
    + discriminate.
    + intros j e Hj. caller Hj Hi j i. apply I5 in Hj. destruct Hj as [Hj _].
      congruence.
  - (* the setup function runs *)
    pose proof (alone_in_lock Hinv Hi eq_refl) as Halone.
    pose proof (I2 _ Hi) as Hd. destruct (I3 Hd) as (Hs & Hr & _).
    destruct (body (once.svc st)) as [initErr s'] eqn:Hb.
    unfold once.invariant. simpl.
    split; [|split; [|split; [|split]]].
    + intros j q Hj Hcs. caller Hj Hi j i.
      rewrite (Halone _ _ Hne Hj) in Hcs. discriminate.
    + intros j Hj. caller Hj Hi j i.
      pose proof (Halone _ _ Hne Hj). discriminate.
    + discriminate.
    + intros _. now rewrite Hr.
    + intros j e Hj. caller Hj Hi j i.
      * split; [reflexivity|]. right. split; [reflexivity|].
        rewrite <- Hs, Hb. reflexivity.
      * apply I5 in Hj. destruct Hj as [Hdone _]. congruence.
  - (* a caller that has returned stays there *)
    exact Hinv.
Qed.

Lemma invariant_run (schedule : list nat) (st : once.sys S) :
  once.invariant isInitialized body s0 st ->
  once.invariant isInitialized body s0 (once.run isInitialized body schedule st).
Proof.
  revert st. induction schedule as [|i schedule IH]; intros st Hinv; [exact Hinv|].
  simpl. apply IH, invariant_step, Hinv.
Qed.

(** Whatever the schedule of [n] callers: the setup function runs at most
    once; a caller that has returned did so after the one run; it got nil
    unless it is the caller that ran the function, which got the function's
    [initErr]. *)
Lemma concurrent_Initialize (n : nat) (schedule : list nat) :
  let final := once.run isInitialized body schedule (once.start s0 n) in
  (once.runs final <= 1)%nat /\
  forall j e,
    nth_error (once.pcs final) j = Some (once.Returned e) ->
    once.runs final = 1%nat /\
    (e = None \/ (once.winner final = Some j /\ e = fst (body s0))).
Proof.
  intro final. pose proof (invariant_run schedule (invariant_start n)) as Hinv.
  fold final in Hinv. destruct Hinv as (_ & _ & I3 & I4 & I5).
  split.
  - destruct (once.done final) eqn:Hd.
    + rewrite (I4 eq_refl). lia.
    + destruct (I3 eq_refl) as (_ & -> & _). lia.
  - intros j e Hj. destruct (I5 _ _ Hj) as [Hd He]. split; [now apply I4 | exact He].
Qed.

(** Two callers that have both returned cannot both hold an error: when
    the setup function fails, one of them is told nil. *)
Lemma concurrent_Initialize_loser (n : nat) (schedule : list nat) (j k : nat)
  (e1 e2 : option error) :
  let final := once.run isInitialized body schedule (once.start s0 n) in
  j <> k ->
  nth_error (once.pcs final) j = Some (once.Returned e1) ->
  nth_error (once.pcs final) k = Some (once.Returned e2) ->
  e1 = None \/ e2 = None.
Proof.
  intros final Hne Hj Hk.
  destruct (concurrent_Initialize n schedule) as [_ Hret]. fold final in Hret.
  destruct (Hret _ _ Hj) as [_ [H1 | [Hw1 _]]]; [now left|].
  destruct (Hret _ _ Hk) as [_ [H2 | [Hw2 _]]]; [now right|].
  congruence.
Qed.

End Once.

(** C1.  Two [Initialize] calls in a row, on either adapter: the second
    call always returns nil and leaves the instance exactly as the first
    left it.  So when the first call fails (here: no logger injected) the
    second one still returns nil, on an instance that is not ready; the
    error of the first call is lost with the local variable it was
    stored in.  With concurrent first calls the setup function runs at most
    once, and exactly once by the time any caller has returned; but of two
    callers that have returned at most one holds its error, so when it
    fails they do not see the same outcome (here: the caller that ran it
    gets the error, the one that waited on the gate gets nil). *)
Theorem Initialize_twice (Eh : hamnut.Env) (Ex : qrz.Env) :
  (forall s,
     let '(_, s1, _) := hamnut.Initialize Eh s in
     hamnut.Initialize Eh s1 = (None, s1, [])) /\
  (forall s,
     let '(_, s1, _) := qrz.Initialize Ex s in
     qrz.Initialize Ex s1 = (None, s1, [])) /\
  (exists e s1,
     hamnut.Initialize Eh stub.hamnutNoLogger = (Some e, s1, []) /\
     hamnut.isInitialized s1 = false /\
     hamnut.Initialize Eh s1 = (None, s1, [])) /\
  (exists e s1,
     qrz.Initialize Ex stub.qrzNoLogger = (Some e, s1, []) /\
     qrz.isInitialized s1 = false /\
     qrz.Initialize Ex s1 = (None, s1, [])) /\
  (forall s callers schedule,
     hamnut.isInitialized s = false ->
     let final := once.run hamnut.isInitialized (hamnutBody Eh) schedule
                    (once.start s callers) in
     (once.runs final <= 1)%nat /\
     (forall j e, nth_error (once.pcs final) j = Some (once.Returned e) ->
                  once.runs final = 1%nat) /\
     (forall j k e1 e2, j <> k ->
        nth_error (once.pcs final) j = Some (once.Returned e1) ->
        nth_error (once.pcs final) k = Some (once.Returned e2) ->
        e1 = None \/ e2 = None)) /\
  (forall s callers schedule,
     qrz.isInitialized s = false ->
     let final := once.run qrz.isInitialized (qrzBody Ex) schedule
                    (once.start s callers) in
     (once.runs final <= 1)%nat /\
     (forall j e, nth_error (once.pcs final) j = Some (once.Returned e) ->
                  once.runs final = 1%nat) /\
     (forall j k e1 e2, j <> k ->
        nth_error (once.pcs final) j = Some (once.Returned e1) ->
        nth_error (once.pcs final) k = Some (once.Returned e2) ->
        e1 = None \/ e2 = None)) /\
  (exists e,
     once.pcs (once.run hamnut.isInitialized (hamnutBody Eh) [0; 1; 0; 1; 0; 1; 0; 0; 1; 1]%nat
                 (once.start stub.hamnutNoLogger 2))
     = [once.Returned (Some e); once.Returned None]).
Proof.
  split; [|split; [|split; [|split; [|split; [|split]]]]].
  - intro s. destruct (hamnut.Initialize Eh s) as [[e s1] evs] eqn:H.
    exact (hamnut_Initialize_again _ _ H).
  - intro s. destruct (qrz.Initialize Ex s) as [[e s1] evs] eqn:H.
    exact (qrz_Initialize_again _ _ H).
  - eexists _, _. repeat split.
  - eexists _, _. repeat split.
  - intros s callers schedule Hfresh final.
    destruct (concurrent_Initialize hamnut.isInitialized (hamnutBody Eh) s Hfresh
                callers schedule) as [Hruns Hret].
    fold final in Hruns, Hret. split; [exact Hruns|]. split.
    + intros j e Hj. now destruct (Hret j e Hj).
    + intros j k e1 e2.
      apply (concurrent_Initialize_loser hamnut.isInitialized (hamnutBody Eh) s Hfresh).
  - intros s callers schedule Hfresh final.
    destruct (concurrent_Initialize qrz.isInitialized (qrzBody Ex) s Hfresh
                callers schedule) as [Hruns Hret].
    fold final in Hruns, Hret. split; [exact Hruns|]. split.
    + intros j e Hj. now destruct (Hret j e Hj).
    + intros j k e1 e2.
      apply (concurrent_Initialize_loser qrz.isInitialized (qrzBody Ex) s Hfresh).
  - eexists. reflexivity.
Qed.

Lemma Initialize_twice_witness :
  (once.runs (once.run hamnut.isInitialized
                (hamnutBody (stub.hamnutEnv (stub.answering 200 "")))
                [0; 1; 0; 1; 0; 1; 0; 0; 1; 1]%nat (once.start stub.hamnutNoLogger 2))
   <= 1)%nat.
Proof.
  destruct (Initialize_twice (stub.hamnutEnv (stub.answering 200 ""))
              (stub.qrzEnv (stub.answering 200 "")))
    as (_ & _ & _ & _ & Hconc & _).
  exact (proj1 (Hconc stub.hamnutNoLogger 2%nat [0; 1; 0; 1; 0; 1; 0; 0; 1; 1]%nat
                  eq_refl)).
Defined.

(* ------------------------------------------------------------------ *)
(** ** [Lookup] before [Initialize] *)

(** C2, as stated, fails on the XML adapter: after an [Initialize] that
    failed at the login (which disables the configuration), [Lookup]
    returns an empty record and no error. *)
Lemma qrz_lookup_before_initialize_counterexample :
  let E := stub.qrzEnv (stub.qrzServer stub.bodyLoginRefused stub.bodySuccess) in
  exists e s1 evs,
    qrz.Initialize E stub.qrzFresh = (Some e, s1, evs) /\
    qrz.isInitialized s1 = false /\
    qrz.Lookup E s1 "K1ABC"
    = Done (ContactedStation.zero, None) [Info "QRZ.com lookup not enabled in the config."]
    /\
    ~ (forall (Ex : qrz.Env) s callsign,
         qrz.isInitialized s = false ->
         exists record e' evs',
           qrz.Lookup Ex s callsign = Done (record, Some e') evs' /\
           NotInitializedError e').
Proof.
  intro E. eexists _, _, _. split; [reflexivity|]. split; [reflexivity|].
  split; [reflexivity|].
  intro Hclaim.
  destruct (Hclaim E (qrz.mkService None stub.logger (Some (stub.config false))
                        (Some stub.client) false true "") "K1ABC" eq_refl)
    as (record & e' & evs' & Heq & _).
  vm_compute in Heq. discriminate.
Qed.

(** C2, amended.  On an instance whose [Initialize] has not completed
    successfully (the ready flag is down), for every identifier: the JSON
    adapter's [Lookup] and both adapters' [LookupWithContext] return a
    not-initialized error, with no request sent and no panic; the XML
    adapter's [Lookup] does so when a configuration is present and enabled,
    and when a configuration is present and disabled (as after a failed
    login) and a logger is set, its disabled guard returns an empty record
    and no error.  A failed [Initialize] leaves the ready flag down. *)
Theorem lookup_before_initialize (Eh : hamnut.Env) (Ex : qrz.Env) :
  (forall s ctx callsign,
     hamnut.isInitialized s = false ->
     exists e, hamnut.LookupWithContext Eh s ctx callsign
               = Done (Country.zero, Some e) [] /\ NotInitializedError e) /\
  (forall s callsign,
     hamnut.isInitialized s = false ->
     exists e, hamnut.Lookup Eh s callsign
               = Done (Country.zero, Some e) [] /\ NotInitializedError e) /\
  (forall s ctx callsign,
     qrz.isInitialized s = false ->
     exists e, qrz.LookupWithContext Ex s ctx callsign
               = Done (ContactedStation.zero, Some e) [] /\ NotInitializedError e) /\
  (forall s cfg callsign,
     qrz.isInitialized s = false ->
     qrz.Config s = Some cfg -> Enabled cfg = true ->
     exists e, qrz.Lookup Ex s callsign
               = Done (ContactedStation.zero, Some e) [] /\ NotInitializedError e) /\
  (forall s cfg lg callsign,
     qrz.isInitialized s = false ->
     qrz.Config s = Some cfg -> Enabled cfg = false ->
     qrz.LoggerService s = Some lg ->
     qrz.Lookup Ex s callsign
     = Done (ContactedStation.zero, None)
         [Info "QRZ.com lookup not enabled in the config."]) /\
  (forall s e s1 evs,
     hamnut.isInitialized s = false ->
     hamnut.Initialize Eh s = (Some e, s1, evs) -> hamnut.isInitialized s1 = false) /\
  (forall s e s1 evs,
     qrz.isInitialized s = false ->
     qrz.Initialize Ex s = (Some e, s1, evs) -> qrz.isInitialized s1 = false).
Proof.
  assert (Hh : forall s ctx callsign,
             hamnut.isInitialized s = false ->
             exists e, hamnut.LookupWithContext Eh s ctx callsign
                       = Done (Country.zero, Some e) [] /\ NotInitializedError e).
  { intros s ctx callsign Hi. unfold hamnut.LookupWithContext. rewrite Hi.
    eexists. split; [reflexivity|]. eexists. reflexivity. }
  assert (Hx : forall s ctx callsign,
             qrz.isInitialized s = false ->
             exists e, qrz.LookupWithContext Ex s ctx callsign
                       = Done (ContactedStation.zero, Some e) [] /\
                       NotInitializedError e).
  { intros s ctx callsign Hi. unfold qrz.LookupWithContext. rewrite Hi.
    eexists. split; [reflexivity|]. eexists. reflexivity. }
  split; [exact Hh|]. split; [intros s callsign; apply Hh|]. split; [exact Hx|].
  split; [|split; [|split]].
  - intros s cfg callsign Hi Hcfg Hen.
    rewrite (qrz_Lookup_enabled Ex s callsign Hcfg Hen). now apply Hx.
  - intros s cfg lg callsign _ Hcfg Hen Hlg.
    unfold qrz.Lookup, qrz.logged, qrz.InfoWith. now rewrite Hcfg, Hen, Hlg.
  - intros s e s1 evs Hi. unfold hamnut.Initialize. rewrite Hi.
    destruct (hamnut.initOnce s); [discriminate|].
    intro H. apply hamnut_initBody_failure in H. simpl in H. congruence.
  - intros s e s1 evs Hi. unfold qrz.Initialize. rewrite Hi.
    destruct (qrz.initOnce s); [discriminate|].
    intro H. apply qrz_initBody_failure in H. simpl in H. congruence.
Qed.

Lemma lookup_before_initialize_witness :
  exists e,
    qrz.Lookup (stub.qrzEnv (stub.answering 200 "")) stub.qrzFresh "K1ABC"
    = Done (ContactedStation.zero, Some e) [] /\ NotInitializedError e.
Proof.
  destruct (lookup_before_initialize (stub.hamnutEnv (stub.answering 200 ""))
              (stub.qrzEnv (stub.answering 200 ""))) as (_ & _ & _ & Hen & _).
  exact (Hen stub.qrzFresh (stub.config true) "K1ABC" eq_refl eq_refl eq_refl).
Defined.

(* ------------------------------------------------------------------ *)
(** ** The empty identifier *)

(** C3.  On a ready, enabled JSON adapter an identifier that is empty
    after trimming is refused with an invalid-argument error and nothing
    is sent.  The XML adapter has no such check: on a ready, enabled
    instance [Lookup] and [LookupWithContext] with a blank identifier send
    the request with an empty [callsign] parameter and return what the
    answer makes of it (here a not-found answer, hence a success). *)
Theorem blank_identifier (Eh : hamnut.Env) :
  (forall s cfg cl ctx callsign,
     hamnut.ready s cfg cl -> strings.TrimSpace callsign = "" ->
     exists e,
       hamnut.LookupWithContext Eh s ctx callsign = Done (Country.zero, Some e) [] /\
       InvalidArgumentError e) /\
  (let E := stub.qrzEnv (stub.qrzServer stub.bodySessionKey stub.bodyNotFound) in
   qrz.Initialize E stub.qrzFresh = (None, stub.qrzReady,
     [Sent stub.client
        (qrz.sessionRequest (stub.config true)
           (qrz.sessionURL (stub.config true) (mkURL "http" "example.test" "" [])))]) /\
   qrz.Lookup E stub.qrzReady "   "
   = Done (ContactedStation.onlyCall "", None)
       [Sent stub.client (stub.qrzRequest "");
        Info "Callsign not found in QRZ.com database"] /\
   qrz.LookupWithContext E stub.qrzReady None ""
   = Done (ContactedStation.onlyCall "", None)
       [Sent stub.client (stub.qrzRequest "");
        Info "Callsign not found in QRZ.com database"] /\
   Get (Query (rq_url (stub.qrzRequest ""))) "callsign" = "").
Proof.
  split.
  - intros s cfg cl ctx callsign (Hi & Hcfg & Hen & Hcl) Hblank.
    unfold hamnut.LookupWithContext. rewrite Hi, Hcfg, Hen, Hcl, Hblank.
    eexists. split; [reflexivity|]. eexists. reflexivity.
  - repeat split.
Qed.

Lemma blank_identifier_witness :
  exists e,
    hamnut.Lookup (stub.hamnutEnv (stub.answering 200 "")) stub.hamnutReady "   "
    = Done (Country.zero, Some e) [] /\ InvalidArgumentError e.
Proof.
  destruct (blank_identifier (stub.hamnutEnv (stub.answering 200 ""))) as [Hh _].
  apply (Hh stub.hamnutReady (stub.config true) stub.client (Some Background) "   ").
  - repeat split.
  - reflexivity.
Defined.

(* ------------------------------------------------------------------ *)
(** ** [Lookup] against [LookupWithContext] *)

(** C4, as stated, fails on the XML adapter: on a disabled configuration
    [Lookup] returns the empty record while [LookupWithContext] with the
    background context returns a record carrying the identifier. *)
Lemma qrz_Lookup_wrapper_counterexample :
  let E := stub.qrzEnv (stub.answering 200 "") in
  qrz.Lookup E stub.qrzDisabled "K1ABC"
  = Done (ContactedStation.zero, None) [Info "QRZ.com lookup not enabled in the config."]
  /\
  qrz.LookupWithContext E stub.qrzDisabled (Some Background) "K1ABC"
  = Done (ContactedStation.onlyCall "K1ABC", None)
      [Info "QRZ.com callsign lookup is disabled in the config"]
  /\
  ~ (forall (Ex : qrz.Env) s callsign,
       qrz.Lookup Ex s callsign = qrz.LookupWithContext Ex s (Some Background) callsign).
Proof.
  intro E. split; [reflexivity|]. split; [reflexivity|].
  intro Hclaim. specialize (Hclaim E stub.qrzDisabled "K1ABC").
  vm_compute in Hclaim. discriminate.
Qed.

(** C4, amended.  For every identifier, the JSON adapter's [Lookup]
    returns exactly what [LookupWithContext] returns with the background
    context (and a nil context is the background context); so does the
    XML adapter's [Lookup] whenever its configuration is present and
    enabled; when its configuration is present and disabled and a logger is
    set, the XML adapter's [Lookup] returns the empty record and no
    error, whereas [LookupWithContext] returns a not-initialized error on
    an instance that is not ready and otherwise a record carrying only
    the trimmed identifier. *)
Theorem Lookup_is_LookupWithContext_background (Eh : hamnut.Env) (Ex : qrz.Env) :
  (forall s callsign,
     hamnut.Lookup Eh s callsign
     = hamnut.LookupWithContext Eh s (Some Background) callsign /\
     hamnut.LookupWithContext Eh s None callsign
     = hamnut.LookupWithContext Eh s (Some Background) callsign) /\
  (forall s cfg callsign,
     qrz.Config s = Some cfg -> Enabled cfg = true ->
     qrz.Lookup Ex s callsign
     = qrz.LookupWithContext Ex s (Some Background) callsign /\
     qrz.LookupWithContext Ex s None callsign
     = qrz.LookupWithContext Ex s (Some Background) callsign) /\
  (forall s cfg lg callsign,
     qrz.Config s = Some cfg -> Enabled cfg = false ->
     qrz.LoggerService s = Some lg ->
     qrz.Lookup Ex s callsign
     = Done (ContactedStation.zero, None)
         [Info "QRZ.com lookup not enabled in the config."] /\
     forall ctx,
       (qrz.isInitialized s = false ->
        exists e,
          qrz.LookupWithContext Ex s ctx callsign
          = Done (ContactedStation.zero, Some e) [] /\
          NotInitializedError e) /\
       (qrz.isInitialized s = true ->
        qrz.LookupWithContext Ex s ctx callsign
        = Done (ContactedStation.onlyCall (strings.TrimSpace callsign), None)
            [Info "QRZ.com callsign lookup is disabled in the config"])).
Proof.
  split; [|split].
  - intros s callsign. split; reflexivity.
  - intros s cfg callsign Hcfg Hen.
    split; [now apply qrz_Lookup_enabled with cfg | reflexivity].
  - intros s cfg lg callsign Hcfg Hen Hlg. split.
    + unfold qrz.Lookup, qrz.logged, qrz.InfoWith. now rewrite Hcfg, Hen, Hlg.
    + intro ctx. unfold qrz.LookupWithContext. split; intro Hinit; rewrite Hinit; simpl.
      * eexists. split; [reflexivity|]. now eexists.
      * rewrite Hcfg, Hen. simpl. unfold qrz.logged, qrz.InfoWith. now rewrite Hlg.
Qed.

Lemma Lookup_is_LookupWithContext_background_witness :
  qrz.Lookup (stub.qrzEnv (stub.qrzServer stub.bodySessionKey stub.bodySuccess))
    stub.qrzReady "aa7bq"
  = qrz.LookupWithContext
      (stub.qrzEnv (stub.qrzServer stub.bodySessionKey stub.bodySuccess))
      stub.qrzReady (Some Background) "aa7bq"
  /\
  qrz.Lookup (stub.qrzEnv (stub.qrzServer stub.bodySessionKey stub.bodySuccess))
    stub.qrzReady "aa7bq"
  = Done (stub.stationSuccess, None) [Sent stub.client (stub.qrzRequest "aa7bq")].
Proof.
  destruct (Lookup_is_LookupWithContext_background
              (stub.hamnutEnv (stub.answering 200 ""))
              (stub.qrzEnv (stub.qrzServer stub.bodySessionKey stub.bodySuccess)))
    as (_ & Hen & _).
  destruct (Hen stub.qrzReady (stub.config true) "aa7bq" eq_refl eq_refl) as [Heq _].
  split; [exact Heq | reflexivity].
Defined.


(* ------------------------------------------------------------------ *)
(** * Further properties of the adapters *)

(** ** [validateConfig] and a first [Initialize] *)

Section HamnutInitialize.
Variable E : hamnut.Env.

(** What [validateConfig] returns without error. *)
Lemma hamnut_validateConfig_ok op s sv :
  hamnut.validateConfig E op s = (sv, None) ->
  exists cfg cfg',
    hamnut.Config s = Some cfg /\ hamnut.Config sv = Some cfg' /\
    sv = hamnut.with_Config (Some cfg') s /\
    Enabled cfg' = Enabled cfg /\
    (Enabled cfg = false -> cfg' = cfg) /\
    (Enabled cfg = true ->
     validated (hamnut.net E) HttpTimeoutSec cfg' /\
     URL cfg' = strings.TrimSpace (URL cfg) /\
     UserAgent cfg' = strings.TrimSpace (UserAgent cfg)).
Proof.
  unfold hamnut.validateConfig.
  destruct (hamnut.Config s) as [cfg|] eqn:Hcfg; [|discriminate].
  destruct (Enabled cfg) eqn:Hen; simpl negb; cbv iota.
  - cbv zeta. simpl URL.
    destruct (strings.isEmpty (strings.TrimSpace (URL cfg))) eqn:Hurl; [discriminate|].
    destruct (url_Parse (hamnut.net E) (strings.TrimSpace (URL cfg))) as [u|] eqn:Hu;
      [|discriminate].
    destruct (strings.isEmpty (Scheme u)) eqn:Hsch; [discriminate|].
    destruct (strings.isEmpty (Host u)) eqn:Hhost; [discriminate|].
    simpl orb. cbv iota. simpl UserAgent.
    destruct (strings.isEmpty (strings.TrimSpace (UserAgent cfg))) eqn:Hua;
      [discriminate|].
    simpl HttpTimeoutSec.
    destruct (Z.leb_spec (HttpTimeoutSec cfg) 0) as [|Hto]; [discriminate|].
    intro H. injection H as <-.
    eexists cfg, _. split; [reflexivity|]. split; [reflexivity|].
    split; [destruct s; reflexivity|]. split; [reflexivity|].
    split; [congruence|]. intros _. split; [|split; reflexivity].
    unfold validated. simpl.
    split; [apply tidy_TrimSpace|]. split; [now apply isEmpty_false|].
    split; [exists u; repeat split; [exact Hu | now apply isEmpty_false
                                     | now apply isEmpty_false]|].
    split; [apply tidy_TrimSpace|]. split; [now apply isEmpty_false | exact Hto].
  - intro H. injection H as <-. exists cfg, cfg.
    split; [reflexivity|]. split; [exact Hcfg|].
    split; [destruct s; simpl in *; now rewrite Hcfg|].
    split; [reflexivity|]. split; [reflexivity | congruence].
Qed.


Lemma hamnut_resolveConfig_ok op s s0 :
  hamnut.resolveConfig op s = Ok s0 ->
  exists cfg, hamnut.Config s0 = Some cfg /\ s0 = hamnut.with_Config (Some cfg) s /\
    (forall c, hamnut.Config s = Some c -> cfg = c) /\
    (hamnut.Config s = None ->
     exists cs, hamnut.ConfigService s = Some cs /\ cs hamnut.ServiceName = Ok cfg).
Proof.
  unfold hamnut.resolveConfig.
  destruct (hamnut.Config s) as [c|] eqn:Hc.
  - intro H. injection H as <-. exists c. split; [exact Hc|].
    split; [destruct s; simpl in *; now rewrite Hc|]. split; [congruence | discriminate].
  - destruct (hamnut.ConfigService s) as [cs|]; [|discriminate].
    destruct (cs hamnut.ServiceName) as [cfg|] eqn:Hcs; [|discriminate].
    intro H. injection H as <-. exists cfg. split; [reflexivity|].
    split; [reflexivity|]. split; [discriminate|]. intros _. now exists cs.
Qed.

(** A first [Initialize] that returns nil, taken apart. *)
Lemma hamnut_Initialize_ok s s' evs :
  hamnut.isInitialized s = false -> hamnut.initOnce s = false ->
  hamnut.Initialize E s = (None, s', evs) ->
  exists s0 sv cfg,
    hamnut.LoggerService s <> None /\
    hamnut.resolveConfig "hamnut.Service.Initialize" (hamnut.with_initOnce true s) = Ok s0 /\
    hamnut.validateConfig E "hamnut.Service.Initialize" s0 = (sv, None) /\
    hamnut.Config sv = Some cfg /\
    ((hamnut.client sv = None /\ Enabled cfg = true /\ evs = [] /\
      s' = hamnut.with_isInitialized true
             (hamnut.with_client
                (Some (NewHTTPClient (wrap64 (HttpTimeoutSec cfg * Second)))) sv)) \/
     (hamnut.client sv = None /\ Enabled cfg = false /\
      evs = [Info "Hamnut callsign/prefix lookup is disabled in the config"] /\
      s' = hamnut.with_isInitialized true sv) \/
     (hamnut.client sv <> None /\ evs = [] /\ s' = hamnut.with_isInitialized true sv)).
Proof.
  intros Hi Ho. unfold hamnut.Initialize. rewrite Hi, Ho. unfold hamnut.initBody.
  change (hamnut.LoggerService (hamnut.with_initOnce true s))
    with (hamnut.LoggerService s).
  destruct (hamnut.LoggerService s) as [lg|]; [|discriminate].
  destruct (hamnut.resolveConfig _ _) as [s0|] eqn:Hres; [|discriminate].
  destruct (hamnut.validateConfig E _ s0) as [sv [err|]] eqn:Hval; [discriminate|].
  destruct (hamnut_validateConfig_ok _ _ Hval) as (cfg0 & cfg & _ & Hcfg & _).
  rewrite Hcfg.
  destruct (hamnut.client sv) as [cl|] eqn:Hcl.
  - simpl. intro H. injection H as <- <-. exists s0, sv, cfg.
    split; [discriminate|]. split; [reflexivity|]. split; [exact Hval|].
    split; [exact Hcfg|]. right. right. split; [congruence|]. split; reflexivity.
  - destruct (Enabled cfg) eqn:Hen; simpl; intro H; injection H as <- <-;
      exists s0, sv, cfg;
      (split; [discriminate|]; split; [reflexivity|]; split; [exact Hval|];
       split; [exact Hcfg|]).
    + left. split; [exact Hcl|]. split; [exact Hen|]. split; reflexivity.
    + right. left. split; [exact Hcl|]. split; [exact Hen|]. split; reflexivity.
Qed.

(** With instance, URL and identifier in order, a lookup sends exactly one
    request, whatever comes back. *)
Lemma hamnut_lookup_sends_one s cfg cl u ctx callsign :
  hamnut.ready s cfg cl ->
  url_Parse (hamnut.net E) (URL cfg) = Ok u ->
  strings.TrimSpace callsign <> "" ->
  let ctx' := match ctx with None => Background | Some c => c end in
  let req := hamnut.lookupRequest cfg ctx'
               (hamnut.lookupURL u (strings.TrimSpace callsign)) in
  http_NewRequest (hamnut.net E) ctx' (hamnut.lookupURL u (strings.TrimSpace callsign))
  = None ->
  exists r, hamnut.LookupWithContext E s ctx callsign = Done r [Sent cl req].
Proof.
  intros Hready Hu Hid ctx' req Hreq.
  destruct (client_Do (hamnut.net E) cl req) as [resp|err] eqn:Hdo.
  - assert (Hans : hamnut.answered E s ctx callsign cl req resp).
    { exists cfg, u. split; [exact Hready|]. split; [exact Hid|].
      split; [exact Hu|]. cbv zeta. fold ctx'. split; [exact Hreq|].
      split; [reflexivity | exact Hdo]. }
    rewrite (hamnut_answered_unfold Hans). cbv zeta.
    repeat match goal with
           | |- context [if ?b then _ else _] => destruct b
           | |- context [match ?x with Some _ => _ | None => _ end] => destruct x
           | |- context [let '(_, _) := ?x in _] => destruct x
           end; eexists; reflexivity.
  - destruct Hready as (Hi & Hcfg & Hen & Hcl).
    unfold hamnut.LookupWithContext. rewrite Hi, Hcfg, Hen, Hcl. simpl negb. cbv iota.
    apply isEmpty_false in Hid. rewrite Hid, Hu. cbv zeta.
    fold ctx'. rewrite Hreq. fold req. rewrite Hdo. eexists. reflexivity.
Qed.

End HamnutInitialize.

(** The instance a first, successful [Initialize] leaves. *)
Lemma hamnut_Initialize_state
  (E : hamnut.Env) (s s' : hamnut.Service) (evs : list event) :
  hamnut.isInitialized s = false -> hamnut.initOnce s = false ->
  hamnut.Initialize E s = (None, s', evs) ->
  hamnut.isInitialized s' = true /\
  hamnut.LoggerService s' = hamnut.LoggerService s /\
  hamnut.LoggerService s <> None /\
  outbound evs = [] /\
  exists cfg,
    hamnut.Config s' = Some cfg /\
    (Enabled cfg = true ->
     validated (hamnut.net E) HttpTimeoutSec cfg /\
     exists cl, hamnut.client s' = Some cl /\
       (hamnut.client s = None ->
        cl = NewHTTPClient (wrap64 (HttpTimeoutSec cfg * Second)))) /\
    (Enabled cfg = false -> hamnut.client s' = hamnut.client s).
Proof.
  intros Hi Ho Hinit.
  destruct (hamnut_Initialize_ok E s Hi Ho Hinit)
    as (s0 & sv & cfg & Hlog & Hres & Hval & Hcfg & Hcases).
  destruct (hamnut_resolveConfig_ok _ _ Hres) as (c0 & _ & Hs0 & _).
  destruct (hamnut_validateConfig_ok E _ _ Hval)
    as (c1 & c2 & Hc1 & Hc2 & Hsv & Hen & _ & Hvalid).
  assert (Hclient : hamnut.client sv = hamnut.client s) by (subst sv s0; reflexivity).
  assert (Hlogger : hamnut.LoggerService sv = hamnut.LoggerService s)
    by (subst sv s0; reflexivity).
  assert (c2 = cfg) by congruence. subst c2.
  destruct Hcases as [(Hcl & Hon & -> & ->) | [(Hcl & Hoff & -> & ->) | (Hcl & -> & ->)]].
  - split; [reflexivity|]. split; [exact Hlogger|]. split; [exact Hlog|].
    split; [reflexivity|]. exists cfg.
    split; [exact Hcfg|]. split; [|congruence].
    intros _. split; [apply Hvalid; congruence|].
    eexists. split; [reflexivity|]. reflexivity.
  - split; [reflexivity|]. split; [exact Hlogger|]. split; [exact Hlog|].
    split; [reflexivity|]. exists cfg.
    split; [exact Hcfg|]. split; [congruence|]. intros _. exact Hclient.
  - split; [reflexivity|]. split; [exact Hlogger|]. split; [exact Hlog|].
    split; [reflexivity|]. exists cfg.
    split; [exact Hcfg|]. split.
    + intros Hon. split; [apply Hvalid; congruence|].
      destruct (hamnut.client sv) as [cl|] eqn:Hsv'; [|congruence].
      exists cl. split; [exact Hsv'|]. intro Hnone. congruence.
    + intros _. exact Hclient.
Qed.

(** X1.  A first [Initialize] of the JSON adapter that returns nil leaves
    the instance ready with a configuration; it has sent nothing; when the
    configuration is enabled it is validated (URL and user agent trimmed
    and non-empty, URL with scheme and host, positive timeout) and a
    client is set, built with the configured timeout unless one was
    injected; when it is disabled the client is left as it was. *)
Theorem hamnut_Initialize_establishes
  (E : hamnut.Env) (s s' : hamnut.Service) (evs : list event) :
  hamnut.isInitialized s = false -> hamnut.initOnce s = false ->
  hamnut.Initialize E s = (None, s', evs) ->
  hamnut.isInitialized s' = true /\
  outbound evs = [] /\
  exists cfg,
    hamnut.Config s' = Some cfg /\
    (Enabled cfg = true ->
     validated (hamnut.net E) HttpTimeoutSec cfg /\
     exists cl, hamnut.client s' = Some cl /\
       (hamnut.client s = None ->
        cl = NewHTTPClient (wrap64 (HttpTimeoutSec cfg * Second)))) /\
    (Enabled cfg = false -> hamnut.client s' = hamnut.client s).
Proof.
  intros Hi Ho Hinit.
  destruct (hamnut_Initialize_state E s Hi Ho Hinit) as (H1 & _ & _ & H2 & H3).
  split; [exact H1|]. split; [exact H2 | exact H3].
Qed.

Lemma hamnut_Initialize_establishes_witness :
  exists s',
    hamnut.Initialize (stub.hamnutEnv (stub.answering 200 "")) fixture.hamnutFresh
    = (None, s', []) /\
    hamnut.Config s' = Some (stub.config true) /\
    hamnut.client s' = Some stub.client.
Proof.
  eexists. split; [reflexivity|].
  destruct (@hamnut_Initialize_establishes
              (stub.hamnutEnv (stub.answering 200 "")) fixture.hamnutFresh _ []
              eq_refl eq_refl eq_refl) as (_ & _ & cfg & Hcfg & _).
  split; reflexivity.
Defined.

(** X2.  After a first [Initialize] of the JSON adapter that returned nil,
    a lookup never meets the defensive failures (not initialized,
    configuration missing, client missing, base URL invalid): on a
    disabled configuration it passes the trimmed identifier through and
    logs; on an enabled one, with an identifier that is not blank, either
    the request cannot be built and nothing is sent, or exactly one
    request is sent, to the validated URL. *)
Theorem hamnut_lookup_after_Initialize
  (E : hamnut.Env) (s s' : hamnut.Service) (evs : list event) :
  hamnut.isInitialized s = false -> hamnut.initOnce s = false ->
  hamnut.Initialize E s = (None, s', evs) ->
  exists cfg,
    hamnut.Config s' = Some cfg /\
    forall ctx callsign,
      (Enabled cfg = false ->
       hamnut.LookupWithContext E s' ctx callsign
       = Done (Country.mk (strings.TrimSpace callsign) "" "" "" "" "" "" "", None)
           [Info "Hamnut callsign/prefix lookup is disabled in the config"]) /\
      (Enabled cfg = true -> strings.TrimSpace callsign <> "" ->
       exists cl u,
         url_Parse (hamnut.net E) (URL cfg) = Ok u /\
         let ctx' := match ctx with None => Background | Some c => c end in
         let target := hamnut.lookupURL u (strings.TrimSpace callsign) in
         (forall err,
            http_NewRequest (hamnut.net E) ctx' target = Some err ->
            hamnut.LookupWithContext E s' ctx callsign
            = Done (Country.zero,
                    Some (Detailed "hamnut.Service.LookupWithContext"
                            "Failed to create HTTP GET request" (Some err))) []) /\
         (http_NewRequest (hamnut.net E) ctx' target = None ->
          exists r,
            hamnut.LookupWithContext E s' ctx callsign
            = Done r [Sent cl (hamnut.lookupRequest cfg ctx' target)])).
Proof.
  intros Hi Ho Hinit.
  destruct (hamnut_Initialize_state E s Hi Ho Hinit)
    as (Hready & Hlog' & Hlog & _ & cfg & Hcfg & Hon & _).
  exists cfg. split; [exact Hcfg|]. intros ctx callsign. split.
  - intro Hoff. unfold hamnut.LookupWithContext.
    rewrite Hready, Hcfg, Hoff, Hlog'. simpl.
    destruct (hamnut.LoggerService s); [reflexivity | congruence].
  - intros Hen Hid. destruct (Hon Hen) as (Hvalid & cl & Hcl & _).
    destruct Hvalid as (_ & _ & (u & Hu & _) & _).
    exists cl, u. split; [exact Hu|]. cbv zeta. split.
    + intros err Hreq. unfold hamnut.LookupWithContext.
      rewrite Hready, Hcfg, Hen, Hcl. simpl negb. cbv iota.
      apply isEmpty_false in Hid. rewrite Hid, Hu. cbv zeta. now rewrite Hreq.
    + intro Hreq.
      apply (hamnut_lookup_sends_one E (s := s') (cfg := cfg) (cl := cl) (u := u));
        [repeat split; assumption | exact Hu | exact Hid | exact Hreq].
Qed.

Lemma hamnut_lookup_after_Initialize_witness :
  exists s' r,
    hamnut.Initialize (stub.hamnutEnv (stub.answering 200 stub.bodyLocalTime))
      fixture.hamnutFresh = (None, s', []) /\
    hamnut.LookupWithContext (stub.hamnutEnv (stub.answering 200 stub.bodyLocalTime))
      s' None " K1ABC "
    = Done r [Sent stub.client stub.hamnutRequest].
Proof.
  destruct (@hamnut_lookup_after_Initialize
              (stub.hamnutEnv (stub.answering 200 stub.bodyLocalTime))
              fixture.hamnutFresh _ [] eq_refl eq_refl eq_refl)
    as (cfg & Hcfg & Hlookup).
  injection Hcfg as <-.
  destruct (Hlookup None " K1ABC ") as [_ Hon].
  destruct (Hon eq_refl ltac:(discriminate)) as (cl & u & Hu & _ & Hsend).
  injection Hu as <-.
  destruct (Hsend eq_refl) as [r Hr].
  eexists _, r. split; [reflexivity|].
  rewrite Hr. vm_compute in Hr. injection Hr as _ Hcl. now rewrite <- Hcl.
Defined.

Section QrzInitialize.
Variable E : qrz.Env.

(** What the XML adapter's [validateConfig] returns without error: it
    validates whether the configuration is enabled or not. *)
Lemma qrz_validateConfig_ok op s sv :
  qrz.validateConfig E op s = (sv, None) ->
  exists cfg cfg',
    qrz.Config s = Some cfg /\ qrz.Config sv = Some cfg' /\
    sv = qrz.with_Config (Some cfg') s /\
    Enabled cfg' = Enabled cfg /\
    validated (qrz.net E) HttpTimeout cfg' /\
    URL cfg' = strings.TrimSpace (URL cfg) /\
    UserAgent cfg' = strings.TrimSpace (UserAgent cfg).
Proof.
  unfold qrz.validateConfig.
  destruct (qrz.Config s) as [cfg|] eqn:Hcfg; [|discriminate].
  cbv zeta. simpl URL.
  destruct (strings.isEmpty (strings.TrimSpace (URL cfg))) eqn:Hurl; [discriminate|].
  destruct (url_Parse (qrz.net E) (strings.TrimSpace (URL cfg))) as [u|] eqn:Hu;
    [|discriminate].
  destruct (strings.isEmpty (Scheme u)) eqn:Hsch; [discriminate|].
  destruct (strings.isEmpty (Host u)) eqn:Hhost; [discriminate|].
  simpl orb. cbv iota. simpl UserAgent.
  destruct (strings.isEmpty (strings.TrimSpace (UserAgent cfg))) eqn:Hua;
    [discriminate|].
  simpl HttpTimeout.
  destruct (Z.leb_spec (HttpTimeout cfg) 0) as [|Hto]; [discriminate|].
  intro H. injection H as <-.
  eexists cfg, _. split; [reflexivity|]. split; [reflexivity|].
  split; [destruct s; reflexivity|]. split; [reflexivity|].
  split; [|split; reflexivity].
  unfold validated. simpl.
  split; [apply tidy_TrimSpace|]. split; [now apply isEmpty_false|].
  split; [exists u; repeat split; [exact Hu | now apply isEmpty_false
                                   | now apply isEmpty_false]|].
  split; [apply tidy_TrimSpace|]. split; [now apply isEmpty_false | exact Hto].
Qed.

Lemma qrz_resolveConfig_ok op s s0 :
  qrz.resolveConfig op s = Ok s0 ->
  exists cfg, qrz.Config s0 = Some cfg /\ s0 = qrz.with_Config (Some cfg) s.
Proof.
  unfold qrz.resolveConfig.
  destruct (qrz.Config s) as [c|] eqn:Hc.
  - intro H. injection H as <-. exists c. split; [exact Hc|].
    destruct s; simpl in *; now rewrite Hc.
  - destruct (qrz.ConfigService s) as [cs|]; [|discriminate].
    destruct (cs qrz.ServiceName) as [cfg|] eqn:Hcs; [|discriminate].
    intro H. injection H as <-. exists cfg. split; reflexivity.
Qed.

(** What [requestAndSetSessionKey] does to the instance and the world. *)
Lemma qrz_requestAndSetSessionKey_cases s cfg cl s' e evs :
  qrz.requestAndSetSessionKey E s cfg cl = (s', e, evs) ->
  (length (outbound evs) <= 1)%nat /\
  (e <> None -> s' = s) /\
  (e = None ->
   exists key u,
     key <> "" /\ s' = qrz.with_sessionKey key s /\
     url_Parse (qrz.net E) (URL cfg) = Ok u /\
     evs = [Sent cl (qrz.sessionRequest cfg (qrz.sessionURL cfg u))]).
Proof.
  unfold qrz.requestAndSetSessionKey.
  destruct (url_Parse (qrz.net E) (URL cfg)) as [u|];
    [|intro H; injection H as <- <- <-; repeat split; [simpl; lia | discriminate]].
  cbv zeta.
  destruct (http_NewRequest _ _ _);
    [intro H; injection H as <- <- <-; repeat split; [simpl; lia | discriminate]|].
  destruct (client_Do _ _ _) as [resp|];
    [|intro H; injection H as <- <- <-; repeat split; [simpl; lia | discriminate]].
  destruct (_ || _);
    [intro H; injection H as <- <- <-; repeat split; [simpl; lia | discriminate]|].
  destruct (ReadErr resp);
    [intro H; injection H as <- <- <-; repeat split; [simpl; lia | discriminate]|].
  destruct (qrz.xml_Unmarshal E (Body resp)) as [db|];
    [|intro H; injection H as <- <- <-; repeat split; [simpl; lia | discriminate]].
  destruct (negb _);
    [intro H; injection H as <- <- <-; repeat split; [simpl; lia | discriminate]|].
  destruct (strings.isEmpty (qrz.Session.Key (qrz.Session_ db))) eqn:Hkey;
    [intro H; injection H as <- <- <-; repeat split; [simpl; lia | discriminate]|].
  intro H. injection H as <- <- <-. split; [simpl; lia|]. split; [congruence|].
  intros _. exists (qrz.Session.Key (qrz.Session_ db)), u.
  split; [now apply isEmpty_false|]. repeat split.
Qed.

(** A first [Initialize] of the XML adapter, taken apart. *)
Lemma qrz_Initialize_first s e s' evs :
  qrz.isInitialized s = false -> qrz.initOnce s = false ->
  qrz.Initialize E s = (e, s', evs) ->
  (* it failed before the session acquisition *)
  (e <> None /\ evs = [] /\ qrz.isInitialized s' = false /\
   qrz.sessionKey s' = qrz.sessionKey s /\ qrz.client s' = qrz.client s) \/
  exists sv cfg,
    qrz.LoggerService s <> None /\
    qrz.Config sv = Some cfg /\ validated (qrz.net E) HttpTimeout cfg /\
    qrz.client sv = qrz.client s /\ qrz.sessionKey sv = qrz.sessionKey s /\
    qrz.LoggerService sv = qrz.LoggerService s /\
    qrz.isInitialized sv = false /\
    ((* a client was injected *)
     (qrz.client s <> None /\ e = None /\ evs = [] /\
      s' = qrz.with_isInitialized true sv) \/
     (* disabled *)
     (qrz.client s = None /\ Enabled cfg = false /\ e = None /\
      evs = [Info "QRZ.com callsign lookup is disabled in the config"] /\
      s' = qrz.with_isInitialized true sv) \/
     (* the session acquisition *)
     (qrz.client s = None /\ Enabled cfg = true /\
      let cl := NewHTTPClient (wrap64 (HttpTimeoutSec cfg * Second)) in
      exists s2 e2,
        qrz.requestAndSetSessionKey E (qrz.with_client (Some cl) sv) cfg cl
        = (s2, e2, evs) /\
        e = e2 /\
        ((e2 = None /\ s' = qrz.with_isInitialized true s2) \/
         (e2 <> None /\
          s' = qrz.with_Config (Some (qrz.with_Enabled false cfg)) s2)))).
Proof.
  intros Hi Ho. unfold qrz.Initialize. rewrite Hi, Ho. unfold qrz.initBody.
  change (qrz.LoggerService (qrz.with_initOnce true s)) with (qrz.LoggerService s).
  destruct (qrz.LoggerService s) as [lg|] eqn:Hlg;
    [|intro H; injection H as <- <- <-; left; repeat split; [discriminate | exact Hi]].
  destruct (qrz.resolveConfig _ _) as [s0|] eqn:Hres;
    [|intro H; injection H as <- <- <-; left; repeat split; [discriminate | exact Hi]].
  destruct (qrz_resolveConfig_ok _ _ Hres) as (c0 & _ & Hs0).
  destruct (qrz.validateConfig E _ s0) as [sv [err|]] eqn:Hval.
  { intro H. injection H as <- <- <-. left.
    destruct (qrz_validateConfig_keeps _ _ _ Hval) as (_ & Hii & Hk).
    split; [discriminate|]. split; [reflexivity|].
    split; [rewrite Hii; subst s0; exact Hi|].
    split; [rewrite Hk; subst s0; reflexivity|].
    revert Hval. unfold qrz.validateConfig. subst s0.
    repeat match goal with
           | |- context [if ?b then _ else _] => destruct b
           | |- context [match ?x with Ok _ => _ | Err _ => _ end] => destruct x
           | |- context [match ?x with Some _ => _ | None => _ end] => destruct x
           end; intro Hv; inversion Hv; reflexivity. }
  destruct (qrz_validateConfig_ok _ _ Hval)
    as (c1 & cfg & _ & Hcfg & Hsv & _ & Hvalid & _).
  assert (Hclient : qrz.client sv = qrz.client s) by (subst sv s0; reflexivity).
  assert (Hkey : qrz.sessionKey sv = qrz.sessionKey s) by (subst sv s0; reflexivity).
  assert (Hlogger : qrz.LoggerService sv = qrz.LoggerService s)
    by (subst sv s0; reflexivity).
  assert (Hinit : qrz.isInitialized sv = false) by (subst sv s0; exact Hi).
  rewrite Hcfg.
  intro H. right. exists sv, cfg.
  split; [discriminate|]. split; [exact Hcfg|]. split; [exact Hvalid|].
  split; [exact Hclient|]. split; [exact Hkey|]. split; [congruence|].
  split; [exact Hinit|].
  destruct (qrz.client sv) as [cl|] eqn:Hcl.
  - simpl in H. injection H as <- <- <-. left.
    split; [congruence|]. repeat split.
  - destruct (Enabled cfg) eqn:Hen.
    + right. right. split; [congruence|]. split; [reflexivity|]. cbv zeta.
      destruct (qrz.requestAndSetSessionKey E _ cfg _) as [[s2 [e2|]] evs2] eqn:Hreq;
        injection H as <- <- <-; eexists _, _; (split; [reflexivity|]);
        (split; [reflexivity|]).
      * right. split; [discriminate | reflexivity].
      * left. split; reflexivity.
    + simpl in H. injection H as <- <- <-. right. left.
      split; [congruence|]. repeat split.
Qed.

End QrzInitialize.

(** X3.  A first [Initialize] of the XML adapter that returns nil leaves
    the instance ready with a validated configuration, enabled or not
    (this adapter validates a disabled configuration too); when enabled a
    client is set; and when enabled with no client injected, exactly one
    request was sent, the session request built from the validated
    configuration, and the session key stored is not empty. *)
Theorem qrz_Initialize_establishes
  (E : qrz.Env) (s s' : qrz.Service) (evs : list event) :
  qrz.isInitialized s = false -> qrz.initOnce s = false ->
  qrz.Initialize E s = (None, s', evs) ->
  qrz.isInitialized s' = true /\
  exists cfg,
    qrz.Config s' = Some cfg /\
    validated (qrz.net E) HttpTimeout cfg /\
    (Enabled cfg = true -> exists cl, qrz.client s' = Some cl) /\
    (Enabled cfg = true -> qrz.client s = None ->
     qrz.sessionKey s' <> "" /\
     exists u,
       url_Parse (qrz.net E) (URL cfg) = Ok u /\
       evs = [Sent (NewHTTPClient (wrap64 (HttpTimeoutSec cfg * Second)))
                (qrz.sessionRequest cfg (qrz.sessionURL cfg u))]).
Proof.
  intros Hi Ho Hinit.
  destruct (qrz_Initialize_first E s Hi Ho Hinit)
    as [(Hne & _) | (sv & cfg & _ & Hcfg & Hvalid & Hcl & Hkey & _ & _ & Hcases)];
    [congruence|].
  destruct Hcases as [(Hinj & _ & _ & ->) | [(Hnone & Hoff & _ & _ & ->)
                     | (Hnone & Hon & s2 & e2 & Hreq & <- & Hres)]].
  - split; [reflexivity|]. exists cfg. split; [exact Hcfg|]. split; [exact Hvalid|].
    split; [|congruence]. intros _. simpl. rewrite Hcl.
    destruct (qrz.client s) as [cl|]; [now exists cl | congruence].
  - split; [reflexivity|]. exists cfg. split; [exact Hcfg|]. split; [exact Hvalid|].
    split; congruence.
  - destruct Hres as [(_ & ->) | (Hne & _)]; [|congruence].
    destruct (qrz_requestAndSetSessionKey_cases _ _ _ _ Hreq) as (_ & _ & Hok).
    destruct (Hok eq_refl) as (key & u & Hkeyne & -> & Hu & ->).
    split; [reflexivity|]. exists cfg. split; [exact Hcfg|]. split; [exact Hvalid|].
    split; [intros _; eexists; reflexivity|].
    intros _ _. split; [exact Hkeyne|]. exists u. split; [exact Hu | reflexivity].
Qed.

Lemma qrz_Initialize_establishes_witness :
  qrz.sessionKey stub.qrzReady <> "" /\
  validated (qrz.net (stub.qrzEnv (stub.qrzServer stub.bodySessionKey "")))
    HttpTimeout (stub.config true).
Proof.
  destruct (@qrz_Initialize_establishes
              (stub.qrzEnv (stub.qrzServer stub.bodySessionKey ""))
              stub.qrzFresh stub.qrzReady _ eq_refl eq_refl eq_refl)
    as (_ & cfg & Hcfg & Hvalid & _ & Hkey).
  injection Hcfg as <-.
  split; [exact (proj1 (Hkey eq_refl eq_refl)) | exact Hvalid].
Defined.

(** X4.  An XML adapter built with a transport client of the caller's
    never acquires a session: a first [Initialize] sends nothing, logs
    nothing, keeps the client and leaves the session key as it was; if it
    returns nil the instance is ready and every lookup request carries that
    unchanged key. *)
Theorem qrz_injected_client_skips_session
  (E : qrz.Env) (s s' : qrz.Service) (cl : Client) (e : option error)
  (evs : list event) :
  qrz.isInitialized s = false -> qrz.initOnce s = false ->
  qrz.client s = Some cl ->
  qrz.Initialize E s = (e, s', evs) ->
  evs = [] /\ qrz.client s' = Some cl /\ qrz.sessionKey s' = qrz.sessionKey s /\
  (e = None ->
   qrz.isInitialized s' = true /\
   forall ctx callsign cl' req resp,
     qrz.answered E s' ctx callsign cl' req resp ->
     Get (Query (rq_url req)) "s" = qrz.sessionKey s).
Proof.
  intros Hi Ho Hclient Hinit.
  destruct (qrz_Initialize_first E s Hi Ho Hinit)
    as [(Hne & -> & _ & Hkey & Hcl)
       | (sv & cfg & _ & Hcfg & Hvalid & Hcl & Hkey & _ & _ & Hcases)].
  - split; [reflexivity|]. split; [congruence|]. split; [exact Hkey|]. congruence.
  - destruct Hcases as [(_ & -> & -> & ->) | [(Hnone & _) | (Hnone & _)]];
      try congruence.
    split; [reflexivity|]. split; [simpl; congruence|]. split; [exact Hkey|].
    intros _. split; [reflexivity|].
    intros ctx callsign cl' req resp Hans.
    rewrite (qrz_request_carries_key Hans). exact Hkey.
Qed.

Lemma qrz_injected_client_skips_session_witness :
  exists s',
    qrz.Initialize (stub.qrzEnv (stub.qrzServer stub.bodySessionKey "")) fixture.qrzInjected
    = (None, s', []) /\
    qrz.sessionKey s' = "".
Proof.
  eexists. split; [reflexivity|].
  exact (proj1 (proj2 (proj2
    (@qrz_injected_client_skips_session
       (stub.qrzEnv (stub.qrzServer stub.bodySessionKey "")) fixture.qrzInjected _
       stub.client None [] eq_refl eq_refl eq_refl eq_refl)))).
Defined.

(** X5.  The two adapters differ on a disabled configuration.  The JSON
    adapter does not validate it: with a logger set, a first [Initialize]
    returns nil, sends nothing and leaves the configuration untouched.  The
    XML adapter validates it all the same: if its URL is blank the first
    [Initialize] fails, sends nothing and leaves the instance not ready. *)
Theorem disabled_configuration_validation (Eh : hamnut.Env) (Ex : qrz.Env) :
  (forall s cfg,
     hamnut.isInitialized s = false -> hamnut.initOnce s = false ->
     hamnut.LoggerService s <> None ->
     hamnut.Config s = Some cfg -> Enabled cfg = false ->
     exists evs,
       hamnut.Initialize Eh s
       = (None, hamnut.with_isInitialized true (hamnut.with_initOnce true s), evs) /\
       outbound evs = []) /\
  (forall s cfg,
     qrz.isInitialized s = false -> qrz.initOnce s = false ->
     qrz.LoggerService s <> None ->
     qrz.Config s = Some cfg -> strings.TrimSpace (URL cfg) = "" ->
     exists e s',
       qrz.Initialize Ex s = (Some e, s', []) /\
       Error e = "lookup service URL cannot be empty" /\
       qrz.isInitialized s' = false).
Proof.
  split.
  - intros s cfg Hi Ho Hlog Hcfg Hoff.
    unfold hamnut.Initialize. rewrite Hi, Ho. unfold hamnut.initBody.
    change (hamnut.LoggerService (hamnut.with_initOnce true s))
      with (hamnut.LoggerService s).
    destruct (hamnut.LoggerService s); [|congruence].
    assert (Hres : hamnut.resolveConfig "hamnut.Service.Initialize"
                     (hamnut.with_initOnce true s) = Ok (hamnut.with_initOnce true s)).
    { unfold hamnut.resolveConfig. simpl hamnut.Config. now rewrite Hcfg. }
    assert (Hval : hamnut.validateConfig Eh "hamnut.Service.Initialize"
                     (hamnut.with_initOnce true s)
                   = (hamnut.with_initOnce true s, None)).
    { unfold hamnut.validateConfig. simpl hamnut.Config. now rewrite Hcfg, Hoff. }
    rewrite Hres, Hval. simpl hamnut.client. simpl hamnut.Config. rewrite Hcfg, Hoff.
    destruct (hamnut.client s); eexists; split; reflexivity.
  - intros s cfg Hi Ho Hlog Hcfg Hblank.
    unfold qrz.Initialize. rewrite Hi, Ho. unfold qrz.initBody.
    change (qrz.LoggerService (qrz.with_initOnce true s)) with (qrz.LoggerService s).
    destruct (qrz.LoggerService s); [|congruence].
    assert (Hres : qrz.resolveConfig "qrz.Service.Initialize"
                     (qrz.with_initOnce true s) = Ok (qrz.with_initOnce true s)).
    { unfold qrz.resolveConfig. simpl qrz.Config. now rewrite Hcfg. }
    rewrite Hres. unfold qrz.validateConfig. simpl qrz.Config.
    rewrite Hcfg. cbv zeta. simpl URL. rewrite Hblank. simpl.
    eexists _, _. split; [reflexivity|]. split; [reflexivity | exact Hi].
Qed.

Lemma disabled_configuration_validation_witness :
  (exists s', hamnut.Initialize (stub.hamnutEnv (stub.answering 200 "")) fixture.hamnutOff
              = (None, s', [Info "Hamnut callsign/prefix lookup is disabled in the config"])
              /\ hamnut.isInitialized s' = true) /\
  (exists e s', qrz.Initialize (stub.qrzEnv (stub.answering 200 "")) fixture.qrzOff
                = (Some e, s', []) /\ qrz.isInitialized s' = false).
Proof.
  destruct (disabled_configuration_validation
              (stub.hamnutEnv (stub.answering 200 "")) (stub.qrzEnv (stub.answering 200 "")))
    as [Hh Hx].
  split.
  - eexists. split; reflexivity.
  - destruct (Hx fixture.qrzOff fixture.blankDisabled eq_refl eq_refl
                ltac:(discriminate) eq_refl eq_refl) as (e & s' & Hinit & _ & Hready).
    now exists e, s'.
Defined.

(* ------------------------------------------------------------------ *)
(** ** What [Initialize] sends and what a failure leaves *)

Lemma hamnut_initBody_quiet (E : hamnut.Env) s e s' evs :
  hamnut.initBody E s = (e, s', evs) -> outbound evs = [].
Proof.
  unfold hamnut.initBody.
  destruct (hamnut.LoggerService s); [|intro H; now inversion H].
  destruct (hamnut.resolveConfig _ s) as [s0|]; [|intro H; now inversion H].
  destruct (hamnut.validateConfig E _ s0) as [sv [err|]]; [intro H; now inversion H|].
  destruct (hamnut.client sv), (hamnut.Config sv) as [cfg|];
    try destruct (Enabled cfg); intro H; inversion H; reflexivity.
Qed.

(** X6.  The JSON adapter's [Initialize] never sends a request.  The XML
    adapter's sends at most one, and when it returns an error the session
    key and the ready flag are as they were. *)
Theorem Initialize_requests (Eh : hamnut.Env) (Ex : qrz.Env) :
  (forall s e s' evs,
     hamnut.Initialize Eh s = (e, s', evs) -> outbound evs = []) /\
  (forall s e s' evs,
     qrz.Initialize Ex s = (e, s', evs) ->
     (length (outbound evs) <= 1)%nat /\
     (e <> None ->
      qrz.sessionKey s' = qrz.sessionKey s /\
      qrz.isInitialized s' = qrz.isInitialized s)).
Proof.
  split.
  - intros s e s' evs. unfold hamnut.Initialize.
    destruct (hamnut.isInitialized s); [intro H; now inversion H|].
    destruct (hamnut.initOnce s); [intro H; now inversion H|].
    apply hamnut_initBody_quiet.
  - intros s e s' evs Hinit.
    destruct (qrz.isInitialized s) eqn:Hi.
    { unfold qrz.Initialize in Hinit. rewrite Hi in Hinit. inversion Hinit. subst.
      split; [simpl; lia | congruence]. }
    destruct (qrz.initOnce s) eqn:Ho.
    { unfold qrz.Initialize in Hinit. rewrite Hi, Ho in Hinit. inversion Hinit. subst.
      split; [simpl; lia | congruence]. }
    destruct (qrz_Initialize_first Ex s Hi Ho Hinit)
      as [(_ & -> & Hready & Hkey & _)
         | (sv & cfg & _ & Hcfg & _ & _ & Hkey & _ & Hsv & Hcases)].
    { split; [simpl; lia|]. intros _. split; [exact Hkey | exact Hready]. }
    destruct Hcases as [(_ & -> & -> & ->) | [(_ & _ & -> & -> & ->)
                       | (_ & _ & s2 & e2 & Hreq & <- & Hres)]].
    + split; [simpl; lia | congruence].
    + split; [simpl; lia | congruence].
    + destruct (qrz_requestAndSetSessionKey_cases _ _ _ _ Hreq) as (Hone & Hfail & _).
      split; [exact Hone|]. intro Hne.
      destruct Hres as [(-> & _) | (_ & ->)]; [congruence|].
      rewrite (Hfail Hne). simpl. split; [exact Hkey | exact Hsv].
Qed.

Lemma Initialize_requests_witness :
  exists e s',
    qrz.Initialize (stub.qrzEnv (stub.qrzServer stub.bodyNoKey "")) stub.qrzFresh
    = (Some e, s',
       [Sent stub.client
          (qrz.sessionRequest (stub.config true)
             (qrz.sessionURL (stub.config true) (mkURL "http" "example.test" "" [])))]) /\
    qrz.sessionKey s' = "" /\ qrz.isInitialized s' = false.
Proof.
  eexists _, _. split; [reflexivity|].
  destruct (Initialize_requests (stub.hamnutEnv (stub.answering 200 ""))
              (stub.qrzEnv (stub.qrzServer stub.bodyNoKey ""))) as [_ Hx].
  refine (proj2 (Hx stub.qrzFresh _ _ _ eq_refl) _). discriminate.
Defined.

(* ------------------------------------------------------------------ *)
(** ** Lookups: white space, results, requests *)

(** X7.  Every lookup entry point of both adapters sees the identifier
    only through [strings.TrimSpace]: an identifier and its trimmed form
    give the same result and the same events. *)
Theorem lookup_ignores_surrounding_space (Eh : hamnut.Env) (Ex : qrz.Env) :
  (forall s ctx callsign,
     hamnut.LookupWithContext Eh s ctx callsign
     = hamnut.LookupWithContext Eh s ctx (strings.TrimSpace callsign)) /\
  (forall s callsign,
     hamnut.Lookup Eh s callsign = hamnut.Lookup Eh s (strings.TrimSpace callsign)) /\
  (forall s ctx callsign,
     qrz.LookupWithContext Ex s ctx callsign
     = qrz.LookupWithContext Ex s ctx (strings.TrimSpace callsign)) /\
  (forall s callsign,
     qrz.Lookup Ex s callsign = qrz.Lookup Ex s (strings.TrimSpace callsign)).
Proof.
  assert (Hh : forall s ctx callsign,
             hamnut.LookupWithContext Eh s ctx callsign
             = hamnut.LookupWithContext Eh s ctx (strings.TrimSpace callsign)).
  { intros. unfold hamnut.LookupWithContext. now rewrite TrimSpace_idem. }
  assert (Hx : forall s ctx callsign,
             qrz.LookupWithContext Ex s ctx callsign
             = qrz.LookupWithContext Ex s ctx (strings.TrimSpace callsign)).
  { intros. unfold qrz.LookupWithContext. now rewrite TrimSpace_idem. }
  split; [exact Hh|]. split; [intros; apply Hh|]. split; [exact Hx|].
  intros s callsign. unfold qrz.Lookup.
  destruct (qrz.Config s) as [cfg|]; [|reflexivity].
  destruct (negb (Enabled cfg)); [reflexivity | apply Hx].
Qed.

Ltac break_lookup :=
  repeat match goal with
         | |- context [if ?b then _ else _] => destruct b
         | |- context [match ?x with Ok _ => _ | Err _ => _ end] => destruct x
         | |- context [match ?x with Some _ => _ | None => _ end] => destruct x
         | |- context [let '(_, _) := ?x in _] => destruct x
         end.

(** Every way [LookupWithContext] of the JSON adapter can end. *)
Lemma hamnut_lookup_ends (E : hamnut.Env) s ctx callsign :
  exists record err evs,
    hamnut.LookupWithContext E s ctx callsign = Done (record, err) evs /\
    (err <> None -> record = Country.zero) /\
    (evs = [] \/
     (evs = [Info "Hamnut callsign/prefix lookup is disabled in the config"] /\
      err = None) \/
     exists cfg cl u,
       hamnut.ready s cfg cl /\ strings.TrimSpace callsign <> "" /\
       url_Parse (hamnut.net E) (URL cfg) = Ok u /\
       evs = [Sent cl
                (hamnut.lookupRequest cfg
                   match ctx with None => Background | Some c => c end
                   (hamnut.lookupURL u (strings.TrimSpace callsign)))]).
Proof.
  unfold hamnut.LookupWithContext.
  destruct (hamnut.isInitialized s) eqn:Hi; simpl negb; cbv iota;
    [|eexists _, _, _; split; [reflexivity|]; split; [reflexivity | now left]].
  destruct (hamnut.Config s) as [cfg|] eqn:Hcfg;
    [|eexists _, _, _; split; [reflexivity|]; split; [reflexivity | now left]].
  destruct (Enabled cfg) eqn:Hen; simpl negb; cbv iota.
  2:{ eexists _, _, _. split; [reflexivity|]. split; [congruence|].
      destruct (hamnut.LoggerService s); [right; left; now split | now left]. }
  destruct (hamnut.client s) as [cl|] eqn:Hcl;
    [|eexists _, _, _; split; [reflexivity|]; split; [reflexivity | now left]].
  destruct (strings.isEmpty (strings.TrimSpace callsign)) eqn:Hid;
    [eexists _, _, _; split; [reflexivity|]; split; [reflexivity | now left]|].
  destruct (url_Parse (hamnut.net E) (URL cfg)) as [u|] eqn:Hu;
    [|eexists _, _, _; split; [reflexivity|]; split; [reflexivity | now left]].
  cbv zeta.
  destruct (http_NewRequest _ _ _);
    [eexists _, _, _; split; [reflexivity|]; split; [reflexivity | now left]|].
  assert (Hsent : forall evs,
             evs = [Sent cl
                      (hamnut.lookupRequest cfg
                         match ctx with None => Background | Some c => c end
                         (hamnut.lookupURL u (strings.TrimSpace callsign)))] ->
             evs = [] \/
             (evs = [Info "Hamnut callsign/prefix lookup is disabled in the config"] /\
              @None error = None) \/
             exists cfg0 cl0 u0,
               hamnut.ready s cfg0 cl0 /\ strings.TrimSpace callsign <> "" /\
               url_Parse (hamnut.net E) (URL cfg0) = Ok u0 /\
               evs = [Sent cl0
                        (hamnut.lookupRequest cfg0
                           match ctx with None => Background | Some c => c end
                           (hamnut.lookupURL u0 (strings.TrimSpace callsign)))]).
  { intros evs ->. right. right. exists cfg, cl, u.
    split; [repeat split; assumption|]. split; [now apply isEmpty_false|].
    split; [exact Hu | reflexivity]. }
  assert (Hsent' : forall (e : option error) evs,
             evs = [Sent cl
                      (hamnut.lookupRequest cfg
                         match ctx with None => Background | Some c => c end
                         (hamnut.lookupURL u (strings.TrimSpace callsign)))] ->
             evs = [] \/
             (evs = [Info "Hamnut callsign/prefix lookup is disabled in the config"] /\
              e = None) \/
             exists cfg0 cl0 u0,
               hamnut.ready s cfg0 cl0 /\ strings.TrimSpace callsign <> "" /\
               url_Parse (hamnut.net E) (URL cfg0) = Ok u0 /\
               evs = [Sent cl0
                        (hamnut.lookupRequest cfg0
                           match ctx with None => Background | Some c => c end
                           (hamnut.lookupURL u0 (strings.TrimSpace callsign)))]).
  { intros e evs Hevs. destruct (Hsent evs Hevs) as [H | [[H _] | H]];
      [now left | subst; discriminate | right; right; exact H]. }
  break_lookup; eexists _, _, _; (split; [reflexivity|]);
    (split; [intro Hne; first [reflexivity | exfalso; now apply Hne]
            | now apply Hsent']).
Qed.

(** X8.  [LookupWithContext] of the JSON adapter always returns (it has no
    panic), sends at most one request, returns the zero record whenever it
    returns an error, and sends a request only from a ready, enabled
    instance with a client and for an identifier that is not blank. *)
Theorem hamnut_lookup_result_shape
  (E : hamnut.Env) (s : hamnut.Service) (ctx : option Context) (callsign : string) :
  exists record err evs,
    hamnut.LookupWithContext E s ctx callsign = Done (record, err) evs /\
    (err <> None -> record = Country.zero) /\
    (length (outbound evs) <= 1)%nat /\
    (outbound evs <> [] ->
     strings.TrimSpace callsign <> "" /\ exists cfg cl, hamnut.ready s cfg cl).
Proof.
  destruct (hamnut_lookup_ends E s ctx callsign)
    as (record & err & evs & Heq & Hzero & Hevs).
  exists record, err, evs. split; [exact Heq|]. split; [exact Hzero|].
  destruct Hevs as [-> | [[-> _] | (cfg & cl & u & Hready & Hid & _ & ->)]].
  - split; [simpl; lia | simpl; intro H; exfalso; now apply H].
  - split; [simpl; lia | simpl; intro H; exfalso; now apply H].
  - split; [simpl; lia|]. intros _. split; [exact Hid | now exists cfg, cl].
Qed.

(** X9.  The request the JSON adapter sends: through the instance's
    client, under the caller's context (the background context for nil),
    to the configured base URL with query parameter [prefix] set to the
    trimmed identifier and every other parameter of the base URL kept, with
    the configured [User-Agent] and [Accept: application/json]. *)
Theorem hamnut_request_shape
  (E : hamnut.Env) (s : hamnut.Service) (ctx : option Context) (callsign : string)
  (r : Country.t * option error) (evs : list event) (c : Client) (req : Request) :
  hamnut.LookupWithContext E s ctx callsign = Done r evs ->
  In (Sent c req) evs ->
  exists cfg u,
    hamnut.Config s = Some cfg /\ hamnut.client s = Some c /\
    url_Parse (hamnut.net E) (URL cfg) = Ok u /\
    rq_ctx req = match ctx with None => Background | Some x => x end /\
    Scheme (rq_url req) = Scheme u /\ Host (rq_url req) = Host u /\
    Path (rq_url req) = Path u /\
    Get (Query (rq_url req)) "prefix" = strings.TrimSpace callsign /\
    (forall k, k <> "prefix" -> Get (Query (rq_url req)) k = Get (Query u) k) /\
    Get (rq_header req) "User-Agent" = UserAgent cfg /\
    Get (rq_header req) "Accept" = "application/json".
Proof.
  intros Heq Hin.
  destruct (hamnut_lookup_ends E s ctx callsign)
    as (record & err & evs' & Heq' & _ & Hevs).
  rewrite Heq in Heq'. injection Heq' as _ <-.
  destruct Hevs as [-> | [[-> _] | (cfg & cl & u & Hready & _ & Hu & ->)]].
  - destruct Hin.
  - destruct Hin as [Hin|[]]. discriminate.
  - destruct Hin as [Hin|[]]. injection Hin as <- <-.
    destruct Hready as (_ & Hcfg & _ & Hcl).
    exists cfg, u. split; [exact Hcfg|]. split; [exact Hcl|]. split; [exact Hu|].
    unfold hamnut.lookupRequest, hamnut.lookupURL. simpl.
    repeat split.
    + apply Get_Set_same.
    + intros k Hk. now apply Get_Set_other.
Qed.

Lemma hamnut_request_shape_witness :
  Get (Query (rq_url stub.hamnutRequest)) "prefix" = "K1ABC" /\
  Get (rq_header stub.hamnutRequest) "User-Agent" = "test".
Proof.
  destruct (@hamnut_request_shape
              (stub.hamnutEnv (stub.answering 200 stub.bodyLocalTime)) stub.hamnutReady
              None " K1ABC " _ _ stub.client stub.hamnutRequest eq_refl
              (or_introl eq_refl))
    as (cfg & u & Hcfg & _ & _ & _ & _ & _ & _ & Hprefix & _ & Hua & _).
  injection Hcfg as <-. split; [exact Hprefix | exact Hua].
Defined.

(** Every way [LookupWithContext] of the XML adapter can end. *)
Lemma qrz_lookup_ends (E : qrz.Env) s ctx callsign :
  (qrz.LookupWithContext E s ctx callsign = Panic nilDeref /\
   qrz.LoggerService s = None /\ qrz.nilLoggerPanics E = true) \/
  exists record err evs,
    qrz.LookupWithContext E s ctx callsign = Done (record, err) evs /\
    (err <> None -> record = ContactedStation.zero) /\
    (foreignErrors (qrz.net E) -> forall e, err = Some e -> Is e ErrNotFound = false) /\
    (outbound evs = [] \/
     exists cfg cl u,
       qrz.ready s cfg cl /\ url_Parse (qrz.net E) (URL cfg) = Ok u /\
       outbound evs
       = [Sent cl
            (qrz.lookupRequest cfg
               match ctx with None => Background | Some c => c end
               (qrz.lookupURL s cfg u (strings.TrimSpace callsign)))]).
Proof.
  unfold qrz.LookupWithContext.
  destruct (qrz.isInitialized s) eqn:Hi; simpl negb; cbv iota.
  2:{ right. eexists _, _, _. split; [reflexivity|]. split; [reflexivity|].
      split; [|now left]. intros _ e He. now injection He as <-. }
  destruct (qrz.Config s) as [cfg|] eqn:Hcfg.
  2:{ right. eexists _, _, _. split; [reflexivity|]. split; [reflexivity|].
      split; [|now left]. intros _ e He. now injection He as <-. }
  destruct (Enabled cfg) eqn:Hen; simpl negb; cbv iota.
  2:{ unfold qrz.logged, qrz.InfoWith.
      destruct (qrz.LoggerService s) eqn:Hlg.
      - right. eexists _, _, _. split; [reflexivity|]. split; [congruence|].
        split; [discriminate | now left].
      - destruct (qrz.nilLoggerPanics E) eqn:Hp; [left; repeat split|].
        right. eexists _, _, _. split; [reflexivity|]. split; [congruence|].
        split; [discriminate | now left]. }
  destruct (qrz.client s) as [cl|] eqn:Hcl.
  2:{ right. eexists _, _, _. split; [reflexivity|]. split; [reflexivity|].
      split; [|now left]. intros _ e He. now injection He as <-. }
  destruct (url_Parse (qrz.net E) (URL cfg)) as [u|perr] eqn:Hu.
  2:{ right. eexists _, _, _. split; [reflexivity|]. split; [reflexivity|].
      split; [|now left]. intros (Hf & _) e He. injection He as <-. simpl.
      exact (Hf _ _ Hu). }
  cbv zeta.
  destruct (http_NewRequest _ _ _) as [rerr|] eqn:Hreq.
  { right. eexists _, _, _. split; [reflexivity|]. split; [reflexivity|].
    split; [|now left]. intros (_ & Hf & _) e He. injection He as <-. simpl.
    exact (Hf _ _ _ Hreq). }
  assert (Hready : qrz.ready s cfg cl) by (repeat split; assumption).
  set (req := qrz.lookupRequest cfg _ _).
  destruct (client_Do (qrz.net E) cl req) as [resp|terr] eqn:Hdo.
  2:{ right. eexists _, _, _. split; [reflexivity|]. split; [reflexivity|].
      split; [|right; now exists cfg, cl, u].
      intros (_ & _ & Hf & _) e He. injection He as <-. simpl. exact (Hf _ _ _ Hdo). }
  destruct ((StatusCode resp <? 200) || (300 <=? StatusCode resp)).
  { right. eexists _, _, _. split; [reflexivity|]. split; [reflexivity|].
    split; [|right; now exists cfg, cl, u].
    intros _ e He. now injection He as <-. }
  destruct (ReadErr resp) as [berr|] eqn:Hread.
  { right. eexists _, _, _. split; [reflexivity|]. split; [reflexivity|].
    split; [|right; now exists cfg, cl, u].
    intros (_ & _ & _ & Hf) e He. injection He as <-. simpl.
    exact (Hf _ _ _ _ Hdo Hread). }
  destruct (qrz.unmarshalResponse E (Body resp)) as [station [uerr|]].
  2:{ right. eexists _, _, _. split; [reflexivity|]. split; [congruence|].
      split; [discriminate | right; now exists cfg, cl, u]. }
  destruct (Is uerr ErrNotFound) eqn:Hnf.
  - unfold qrz.logged, qrz.InfoWith.
    destruct (qrz.LoggerService s) eqn:Hlg.
    + right. eexists _, _, _. split; [reflexivity|]. split; [congruence|].
      split; [discriminate | right; now exists cfg, cl, u].
    + destruct (qrz.nilLoggerPanics E) eqn:Hp; [left; repeat split|].
      right. eexists _, _, _. split; [reflexivity|]. split; [congruence|].
      split; [discriminate | right; now exists cfg, cl, u].
  - right. eexists _, _, _. split; [reflexivity|]. split; [reflexivity|].
    split; [|right; now exists cfg, cl, u].
    intros _ e He. injection He as <-. simpl. exact Hnf.
Qed.

(** X10.  [LookupWithContext] of the XML adapter, when it returns: the
    zero record whenever there is an error, at most one request sent, and
    never an error that is (or wraps) the not-found sentinel, provided the
    collaborators' own errors do not: for this adapter not-found is never an
    error the caller sees. *)
Theorem qrz_lookup_result_shape
  (E : qrz.Env) (s : qrz.Service) (ctx : option Context) (callsign : string)
  (record : ContactedStation.t) (err : option error) (evs : list event) :
  qrz.LookupWithContext E s ctx callsign = Done (record, err) evs ->
  (err <> None -> record = ContactedStation.zero) /\
  (length (outbound evs) <= 1)%nat /\
  (foreignErrors (qrz.net E) -> forall e, err = Some e -> ~ NotFoundError e).
Proof.
  intro Heq.
  destruct (qrz_lookup_ends E s ctx callsign)
    as [(Hp & _) | (record' & err' & evs' & Heq' & Hzero & Hnf & Hevs)];
    [congruence|].
  rewrite Heq in Heq'. injection Heq' as <- <- <-.
  split; [exact Hzero|]. split.
  - destruct Hevs as [-> | (cfg & cl & u & _ & _ & ->)]; simpl; lia.
  - intros Hf e He Hfound. unfold NotFoundError in Hfound.
    rewrite (Hnf Hf e He) in Hfound. discriminate.
Qed.

Lemma stub_foreignErrors (server : Request -> result Response) :
  (forall r resp, server r = Ok resp -> ReadErr resp = None) ->
  (forall r e, server r = Err e -> Is e ErrNotFound = false) ->
  foreignErrors (stub.net server).
Proof.
  intros Hread Hserver. repeat split.
  - intros x e. unfold stub.net, stub.url_Parse. simpl.
    destruct (String.prefix "http://" x); [discriminate|].
    destruct (String.prefix "://" x); [|discriminate].
    intro H. now injection H as <-.
  - discriminate.
  - intros c r e. simpl. apply Hserver.
  - intros c r resp e Hdo Hr. simpl in Hdo. rewrite (Hread _ _ Hdo) in Hr. discriminate.
Qed.

Lemma qrz_lookup_result_shape_witness :
  exists e,
    qrz.LookupWithContext
      (stub.qrzEnv (stub.qrzServer stub.bodySessionKey stub.bodySessionError))
      stub.qrzReady None "aa7bq"
    = Done (ContactedStation.zero, Some e) [Sent stub.client (stub.qrzRequest "aa7bq")] /\
    ~ NotFoundError e.
Proof.
  eexists. split; [reflexivity|].
  refine (proj2 (proj2 (@qrz_lookup_result_shape
            (stub.qrzEnv (stub.qrzServer stub.bodySessionKey stub.bodySessionError))
            stub.qrzReady None "aa7bq" _ _ _ eq_refl)) _ _ eq_refl).
  apply stub_foreignErrors.
  - intros r resp. unfold stub.qrzServer, stub.ok200.
    destruct (String.eqb _ _); intro H; now injection H as <-.
  - intros r e. unfold stub.qrzServer, stub.ok200.
    destruct (String.eqb _ _); discriminate.
Defined.




(** X12.  When the JSON adapter returns a not-found error, the server was
    reached and either answered 404 or answered 2xx with a body that
    decodes with found = false: no other failure is reported as not found
    (provided the collaborators' own errors are not the sentinel). *)
Theorem hamnut_not_found_only_from_server
  (E : hamnut.Env) (s : hamnut.Service) (ctx : option Context) (callsign : string)
  (record : Country.t) (e : error) (evs : list event) :
  foreignErrors (hamnut.net E) ->
  (forall body err, hamnut.json_Unmarshal E body = Err err -> Is err ErrNotFound = false) ->
  hamnut.LookupWithContext E s ctx callsign = Done (record, Some e) evs ->
  NotFoundError e ->
  exists cl req resp,
    hamnut.answered E s ctx callsign cl req resp /\
    (StatusCode resp = 404 \/
     (200 <= StatusCode resp < 300 /\ ReadErr resp = None /\
      exists payload,
        hamnut.json_Unmarshal E (Body resp) = Ok payload /\
        hamnut.Found payload = false)).
Proof.
  intros (Hparse & Hbuild & Hdo & Hread) Hjson. unfold NotFoundError.
  unfold hamnut.LookupWithContext.
  destruct (hamnut.isInitialized s) eqn:Hi; simpl negb; cbv iota;
    [|intro Hx; injection Hx as _ <- _; discriminate].
  destruct (hamnut.Config s) as [cfg|] eqn:Hcfg;
    [|intro Hx; injection Hx as _ <- _; discriminate].
  destruct (Enabled cfg) eqn:Hen; simpl negb; cbv iota; [|discriminate].
  destruct (hamnut.client s) as [cl|] eqn:Hcl;
    [|intro Hx; injection Hx as _ <- _; discriminate].
  destruct (strings.isEmpty (strings.TrimSpace callsign)) eqn:Hid;
    [intro Hx; injection Hx as _ <- _; discriminate|].
  destruct (url_Parse (hamnut.net E) (URL cfg)) as [u|perr] eqn:Hu.
  2:{ intro Hx. injection Hx as _ <- _. simpl. rewrite (Hparse _ _ Hu). discriminate. }
  cbv zeta.
  destruct (http_NewRequest _ _ _) as [rerr|] eqn:Hreq.
  { intro Hx. injection Hx as _ <- _. simpl. rewrite (Hbuild _ _ _ Hreq). discriminate. }
  set (req := hamnut.lookupRequest cfg _ _).
  destruct (client_Do (hamnut.net E) cl req) as [resp|terr] eqn:Hsend.
  2:{ intro Hx. injection Hx as _ <- _. simpl. rewrite (Hdo _ _ _ Hsend). discriminate. }
  assert (Hans : hamnut.answered E s ctx callsign cl req resp).
  { exists cfg, u. split; [repeat split; assumption|].
    split; [now apply isEmpty_false|]. split; [exact Hu|]. cbv zeta.
    split; [exact Hreq|]. split; [reflexivity | exact Hsend]. }
  destruct (Z.eqb_spec (StatusCode resp) 404) as [H404|_].
  { intros _ _. exists cl, req, resp. split; [exact Hans | now left]. }
  destruct (Z.ltb_spec (StatusCode resp) 200) as [|Hge];
    [intro Hx; injection Hx as _ <- _; discriminate|].
  destruct (Z.leb_spec 300 (StatusCode resp)) as [|Hlt];
    [intro Hx; injection Hx as _ <- _; discriminate|].
  simpl orb. cbv iota.
  destruct (ReadErr resp) as [berr|] eqn:Hr.
  { intro Hx. injection Hx as _ <- _. simpl.
    rewrite (Hread _ _ _ _ Hsend Hr). discriminate. }
  unfold hamnut.unmarshalResponse.
  destruct (hamnut.json_Unmarshal E (Body resp)) as [payload|jerr] eqn:Hdec.
  2:{ intro Hx. injection Hx as _ <- _. simpl. rewrite (Hjson _ _ Hdec). discriminate. }
  destruct (hamnut.Found payload) eqn:Hfound; simpl negb; cbv iota; [discriminate|].
  intros _ _. exists cl, req, resp. split; [exact Hans|]. right.
  split; [lia|]. split; [exact Hr|]. now exists payload.
Qed.

(** The table decoders of the fixtures fail with a foreign error only. *)
Lemma stub_decode_foreign (A : Type) (table : list (string * A)) (body : string)
  (err : error) :
  stub.decode table body = Err err -> Is err ErrNotFound = false.
Proof.
  induction table as [|[b a] rest IH]; simpl.
  - intro H. now injection H as <-.
  - destruct (String.eqb b body); [discriminate | exact IH].
Qed.

Lemma hamnut_not_found_only_from_server_witness :
  exists cl req resp,
    hamnut.answered (stub.hamnutEnv (stub.answering 404 "not found")) stub.hamnutReady
      None "K1ABC" cl req resp /\
    StatusCode resp = 404.
Proof.
  assert (Hf : foreignErrors (hamnut.net (stub.hamnutEnv (stub.answering 404 "not found")))).
  { apply stub_foreignErrors.
    - intros r resp H. now injection H as <-.
    - discriminate. }
  assert (Hj : forall body err,
             hamnut.json_Unmarshal (stub.hamnutEnv (stub.answering 404 "not found")) body
             = Err err -> Is err ErrNotFound = false).
  { intros body err. apply stub_decode_foreign. }
  destruct (@hamnut_not_found_only_from_server _ stub.hamnutReady None "K1ABC" _ _ _
              Hf Hj eq_refl eq_refl)
    as (cl & req & resp & Hans & [H404 | (Hrange & _)]).
  - now exists cl, req, resp.
  - exfalso. destruct Hans as (cfg & u & _ & _ & _ & _ & _ & Hdo).
    injection Hdo as <-. simpl in Hrange. lia.
Defined.

(* ------------------------------------------------------------------ *)
(** ** The XML adapter: what the records it returns look like *)

Section MapPlain.
Import strings.

Variable f : ascii -> ascii.
Hypothesis f_hi : forall c, hi c = true -> f c = c.
Hypothesis hi_f : forall c, hi (f c) = hi c.
Hypothesis isSpace_f : forall c, isSpace (f c) = isSpace c.

Lemma isSpace2_map (a b : ascii) : isSpace2 (f a) (f b) = isSpace2 a b.
Proof.
  destruct (hi a) eqn:Ha; [destruct (hi b) eqn:Hb|].
  - now rewrite (f_hi _ Ha), (f_hi _ Hb).
  - destruct (isSpace2 a b) eqn:H1; [apply isSpace2_hi in H1; destruct H1; congruence|].
    destruct (isSpace2 (f a) (f b)) eqn:H2; [|reflexivity].
    apply isSpace2_hi in H2. destruct H2 as [_ H2]. rewrite hi_f in H2. congruence.
  - destruct (isSpace2 a b) eqn:H1; [apply isSpace2_hi in H1; destruct H1; congruence|].
    destruct (isSpace2 (f a) (f b)) eqn:H2; [|reflexivity].
    apply isSpace2_hi in H2. destruct H2 as [H2 _]. rewrite hi_f in H2. congruence.
Qed.

Lemma isSpace3_map (a b c : ascii) : isSpace3 (f a) (f b) (f c) = isSpace3 a b c.
Proof.
  destruct (hi a && hi b && hi c) eqn:Hall.
  - apply andb_true_iff in Hall. destruct Hall as [Hab Hc].
    apply andb_true_iff in Hab. destruct Hab as [Ha Hb].
    now rewrite (f_hi _ Ha), (f_hi _ Hb), (f_hi _ Hc).
  - destruct (isSpace3 a b c) eqn:H1.
    { apply isSpace3_hi in H1. destruct H1 as (Ha & Hb & Hc).
      rewrite Ha, Hb, Hc in Hall. discriminate. }
    destruct (isSpace3 (f a) (f b) (f c)) eqn:H2; [|reflexivity].
    apply isSpace3_hi in H2. rewrite !hi_f in H2. destruct H2 as (Ha & Hb & Hc).
    rewrite Ha, Hb, Hc in Hall. discriminate.
Qed.

Lemma mapString_append (a b : string) :
  stub.mapString f (a ++ b) = stub.mapString f a ++ stub.mapString f b.
Proof. induction a as [|c a IH]; simpl; [reflexivity | now rewrite IH]. Qed.

Lemma mapString_reverse (s : string) : stub.mapString f (reverse s) = reverse (stub.mapString f s).
Proof.
  induction s as [|c s IH]; simpl; [reflexivity|].
  now rewrite mapString_append, IH.
Qed.

Lemma dropRune_map_left (s : string) :
  dropRune isSpace isSpace2 isSpace3 s = None ->
  dropRune isSpace isSpace2 isSpace3 (stub.mapString f s) = None.
Proof.
  destruct s as [|a [|b [|c s]]]; simpl; try reflexivity;
    rewrite ?isSpace_f, ?isSpace2_map, ?isSpace3_map;
    repeat match goal with |- context [if ?t then _ else _] => destruct t end;
    congruence.
Qed.

Lemma dropRune_map_right (s : string) :
  dropRune isSpace (fun b a => isSpace2 a b) (fun c b a => isSpace3 a b c) s = None ->
  dropRune isSpace (fun b a => isSpace2 a b) (fun c b a => isSpace3 a b c)
    (stub.mapString f s) = None.
Proof.
  destruct s as [|a [|b [|c s]]]; simpl; try reflexivity;
    rewrite ?isSpace_f, ?isSpace2_map, ?isSpace3_map;
    repeat match goal with |- context [if ?t then _ else _] => destruct t end;
    congruence.
Qed.

(** Mapping the plain bytes of a tidy string leaves it tidy. *)
Lemma tidy_mapString (s : string) : tidy s -> tidy (stub.mapString f s).
Proof.
  intro H. apply tidy_solid in H. destruct H as [Hl Hr]. apply tidy_solid. split.
  - now apply dropRune_map_left.
  - rewrite <- mapString_reverse. now apply dropRune_map_right.
Qed.

End MapPlain.

(** The ASCII case mapping of the fixtures keeps a tidy string tidy. *)
Lemma tidy_stub_ToUpper (s : string) : tidy s -> tidy (stub.ToUpper s).
Proof.
  apply tidy_mapString.
  - intros c. destruct c as [[] [] [] [] [] [] [] []]; try reflexivity; discriminate.
  - intros c. destruct c as [[] [] [] [] [] [] [] []]; reflexivity.
  - intros c. destruct c as [[] [] [] [] [] [] [] []]; reflexivity.
Qed.

Lemma tidy_empty : tidy "".
Proof. reflexivity. Qed.

Lemma buildName_tidy (cs : qrz.Callsign.t) : tidy (qrz.buildName cs).
Proof.
  unfold qrz.buildName, qrz.trim.
  destruct (strings.isEmpty (strings.TrimSpace (qrz.Callsign.NameFmt cs)));
    simpl negb; cbv iota; [|apply tidy_TrimSpace].
  destruct (strings.isEmpty (strings.TrimSpace (qrz.Callsign.Fname cs))) eqn:Hf;
    destruct (strings.isEmpty (strings.TrimSpace (qrz.Callsign.Name cs))) eqn:Hl;
    simpl; try apply tidy_TrimSpace.
  apply (tidy_append plainSep_space); auto using tidy_TrimSpace.
Qed.

Section Tidy.

Variable E : qrz.Env.
(** Upper-casing a string with no white space at either end leaves none
    there, as Go's does: no rune has a white-space upper case. *)
Hypothesis upper_tidy : forall x, tidy x -> tidy (qrz.ToUpper E x).

Lemma mapStation_tidy (call : string) (cs : qrz.Callsign.t) :
  tidy call -> stationTidy (qrz.mapStation E call cs).
Proof.
  intro Hcall. unfold stationTidy, qrz.mapStation, qrz.trim. simpl.
  repeat split; try apply tidy_TrimSpace; try apply joinParts_tidy;
    try (apply upper_tidy, tidy_TrimSpace); try exact Hcall.
  apply buildName_tidy.
Qed.

Lemma classify_tidy (db : qrz.Database) : stationTidy (fst (qrz.classify E db)).
Proof.
  unfold qrz.classify.
  destruct (negb _); [destruct (strings.Contains _ _); repeat split|].
  destruct (strings.isEmpty _); [repeat split|].
  apply mapStation_tidy, upper_tidy, tidy_TrimSpace.
Qed.

Lemma unmarshalResponse_tidy (body : string) :
  stationTidy (fst (qrz.unmarshalResponse E body)).
Proof.
  unfold qrz.unmarshalResponse.
  destruct (qrz.xml_Unmarshal E body); [apply classify_tidy | repeat split].
Qed.

End Tidy.

(** X13.  No record the XML adapter returns has a field with white space
    (Unicode white space, as [strings.TrimSpace] knows it) at either end:
    not the record [unmarshalResponse] decodes, not the pass-through
    records of [LookupWithContext] and [Lookup], whatever the envelope and
    the identifier; given that upper-casing a string without white space
    at either end leaves none there. *)
Theorem qrz_records_are_tidy (E : qrz.Env) :
  (forall x, tidy x -> tidy (qrz.ToUpper E x)) ->
  (forall body, stationTidy (fst (qrz.unmarshalResponse E body))) /\
  (forall s ctx callsign station err evs,
     qrz.LookupWithContext E s ctx callsign = Done (station, err) evs ->
     stationTidy station) /\
  (forall s callsign station err evs,
     qrz.Lookup E s callsign = Done (station, err) evs -> stationTidy station).
Proof.
  intro Hupper.
  assert (Hzero : stationTidy ContactedStation.zero) by (repeat split).
  assert (Hpass : forall c, stationTidy (ContactedStation.onlyCall (strings.TrimSpace c))).
  { intro c. unfold stationTidy. simpl. repeat split. apply tidy_TrimSpace. }
  assert (Hx : forall s ctx callsign station err evs,
             qrz.LookupWithContext E s ctx callsign = Done (station, err) evs ->
             stationTidy station).
  { intros s ctx callsign station err evs. unfold qrz.LookupWithContext.
    unfold qrz.logged, qrz.InfoWith.
    repeat match goal with
           | |- context [match qrz.unmarshalResponse E ?b with _ => _ end] =>
               pose proof (@unmarshalResponse_tidy E Hupper b);
               destruct (qrz.unmarshalResponse E b) as [? [?|]]
           | |- context [if ?b then _ else _] => destruct b
           | |- context [match ?x with Ok _ => _ | Err _ => _ end] => destruct x
           | |- context [match ?x with Some _ => _ | None => _ end] => destruct x
           end;
      intro Heq; try discriminate; injection Heq as <- _ _;
      first [exact Hzero | apply Hpass | assumption]. }
  split; [apply (@unmarshalResponse_tidy E Hupper)|]. split; [exact Hx|].
  intros s callsign station err evs. unfold qrz.Lookup.
  destruct (qrz.Config s) as [cfg|]; [|discriminate].
  destruct (negb (Enabled cfg)); [|apply Hx].
  unfold qrz.logged, qrz.InfoWith.
  destruct (qrz.LoggerService s); [|destruct (qrz.nilLoggerPanics E)];
    intro Heq; try discriminate; injection Heq as <- _ _; exact Hzero.
Qed.

Lemma qrz_records_are_tidy_witness :
  stationTidy stub.stationSuccess.
Proof.
  destruct (@qrz_records_are_tidy
              (stub.qrzEnv (stub.qrzServer stub.bodySessionKey stub.bodySuccess))
              tidy_stub_ToUpper)
    as (_ & Hlookup & _).
  exact (Hlookup stub.qrzReady None "aa7bq" _ _ _ eq_refl).
Defined.

(** X14.  [unmarshalResponse] returns a station without error only when
    the body decoded, the session error of the envelope is blank (empty
    once trimmed) and the callsign element, trimmed and uppercased, is not
    empty; the call of the station is then that text, so no station it
    returns has an empty call. *)
Theorem qrz_success_needs_call
  (E : qrz.Env) (body : string) (station : ContactedStation.t) :
  qrz.unmarshalResponse E body = (station, None) ->
  ContactedStation.Call station <> "" /\
  exists db,
    qrz.xml_Unmarshal E body = Ok db /\
    strings.TrimSpace (qrz.Session.Error (qrz.Session_ db)) = "" /\
    ContactedStation.Call station
    = qrz.ToUpper E (strings.TrimSpace (qrz.Callsign.Call (qrz.Callsign_ db))).
Proof.
  unfold qrz.unmarshalResponse.
  destruct (qrz.xml_Unmarshal E body) as [db|]; [|discriminate].
  intro H. apply classify_success in H. destruct H as (Herr & Hcall & ->).
  split; [exact Hcall|]. exists db. repeat split. exact Herr.
Qed.

Lemma qrz_success_needs_call_witness :
  ContactedStation.Call stub.stationSuccess <> "".
Proof.
  exact (proj1 (@qrz_success_needs_call
                  (stub.qrzEnv (stub.answering 200 "")) stub.bodySuccess
                  stub.stationSuccess eq_refl)).
Defined.

Lemma concat_skipEmpty_empty (sep : string) (parts : list string) :
  spec.joinSkippingEmpty sep parts = "" <-> Forall (fun p => p = "") parts.
Proof.
  unfold spec.joinSkippingEmpty, spec.skipEmpty.
  induction parts as [|p parts IH]; simpl; [split; [constructor | reflexivity]|].
  destruct p as [|c p]; simpl.
  - rewrite IH. split; [now constructor | intro H; now inversion H].
  - split; [|intro H; inversion H; discriminate].
    destruct (filter _ parts); simpl; discriminate.
Qed.

(** X15.  In a decoded station the QTH is address line 2 joined with the
    state, the address is line 1, that QTH, postal code and country joined
    with comma-space (empty parts skipped), and the address is empty
    exactly when all five fields are blank. *)
Theorem qrz_address_and_qth
  (E : qrz.Env) (body : string) (db : qrz.Database) (station : ContactedStation.t) :
  qrz.xml_Unmarshal E body = Ok db ->
  qrz.unmarshalResponse E body = (station, None) ->
  let cs := qrz.Callsign_ db in
  let t := strings.TrimSpace in
  ContactedStation.QTH station
  = spec.joinSkippingEmpty ", " [t (qrz.Callsign.Addr2 cs); t (qrz.Callsign.State cs)] /\
  ContactedStation.Address station
  = spec.joinSkippingEmpty ", "
      [t (qrz.Callsign.Addr1 cs); ContactedStation.QTH station;
       t (qrz.Callsign.Zip cs); ContactedStation.Country station] /\
  (ContactedStation.Address station = "" <->
   t (qrz.Callsign.Addr1 cs) = "" /\ t (qrz.Callsign.Addr2 cs) = "" /\
   t (qrz.Callsign.State cs) = "" /\ t (qrz.Callsign.Zip cs) = "" /\
   t (qrz.Callsign.Country cs) = "").
Proof.
  intros Hdec Hun cs t. unfold qrz.unmarshalResponse in Hun. rewrite Hdec in Hun.
  apply classify_success in Hun. destruct Hun as (_ & _ & ->). fold cs.
  unfold qrz.mapStation. simpl ContactedStation.QTH. simpl ContactedStation.Address.
  simpl ContactedStation.Country. unfold qrz.trim.
  assert (Hqth : qrz.joinParts [qrz.Callsign.Addr2 cs; qrz.Callsign.State cs]
                 = spec.joinSkippingEmpty ", "
                     [t (qrz.Callsign.Addr2 cs); t (qrz.Callsign.State cs)])
    by apply joinParts_joinSkippingEmpty.
  assert (Haddr : qrz.joinParts
                    [qrz.Callsign.Addr1 cs;
                     qrz.joinParts [qrz.Callsign.Addr2 cs; qrz.Callsign.State cs];
                     qrz.Callsign.Zip cs; qrz.Callsign.Country cs]
                  = spec.joinSkippingEmpty ", "
                      [t (qrz.Callsign.Addr1 cs);
                       qrz.joinParts [qrz.Callsign.Addr2 cs; qrz.Callsign.State cs];
                       t (qrz.Callsign.Zip cs); t (qrz.Callsign.Country cs)]).
  { rewrite address_refines. unfold spec.address. cbv zeta. fold t. now rewrite <- Hqth. }
  split; [exact Hqth|]. split; [exact Haddr|].
  rewrite Haddr, concat_skipEmpty_empty, Hqth. split.
  - intro H. inversion H as [|? ? H1 H']; subst. inversion H' as [|? ? H2 H'']; subst.
    inversion H'' as [|? ? H3 H''']; subst. inversion H''' as [|? ? H4 _]; subst.
    apply concat_skipEmpty_empty in H2.
    inversion H2 as [|? ? Ha Hb]; subst. inversion Hb as [|? ? Hc _]; subst.
    repeat split; assumption.
  - intros (H1 & H2 & H3 & H4 & H5).
    repeat constructor; try assumption.
    apply concat_skipEmpty_empty. repeat constructor; assumption.
Qed.

Lemma qrz_address_and_qth_witness :
  ContactedStation.QTH stub.stationSuccess = "SCOTTSDALE, AZ" /\
  ContactedStation.Address stub.stationSuccess <> "".
Proof.
  destruct (@qrz_address_and_qth (stub.qrzEnv (stub.answering 200 ""))
              stub.bodySuccess stub.dbSuccess stub.stationSuccess eq_refl eq_refl)
    as (Hqth & _ & Hempty).
  split; [exact Hqth|]. intro H. apply Hempty in H. destruct H as [H _]. discriminate.
Defined.

(** X16.  When the envelope has no session error (the field is empty
    once trimmed) and no callsign (the element is empty once trimmed and
    uppercased), the caller of an XML adapter that has a logger gets no
    error either: [LookupWithContext] logs the miss and returns a record
    whose only populated field is the trimmed identifier, and [Lookup] is
    then [LookupWithContext] under the background context. *)
Theorem qrz_missing_callsign_passes_through
  (E : qrz.Env) (s : qrz.Service) (ctx : option Context) (callsign : string)
  (cl : Client) (req : Request) (db : qrz.Database) (lg : Logger) :
  qrz.decoded E s ctx callsign cl req db ->
  qrz.LoggerService s = Some lg ->
  strings.TrimSpace (qrz.Session.Error (qrz.Session_ db)) = "" ->
  qrz.ToUpper E (strings.TrimSpace (qrz.Callsign.Call (qrz.Callsign_ db))) = "" ->
  qrz.LookupWithContext E s ctx callsign
  = Done (ContactedStation.onlyCall (strings.TrimSpace callsign), None)
      [Sent cl req; Info "Callsign not found in QRZ.com database"] /\
  qrz.Lookup E s callsign = qrz.LookupWithContext E s (Some Background) callsign.
Proof.
  intros Hdec Hlg Herr Hcall. split.
  - rewrite (qrz_decoded_unfold Hdec), (qrz_classify_no_callsign E db Herr Hcall).
    cbn [Is]. unfold qrz.logged, qrz.InfoWith. now rewrite Hlg.
  - destruct Hdec as (resp & (cfg & u & (_ & Hcfg & Hen & _) & _) & _).
    now apply qrz_Lookup_enabled with cfg.
Qed.

Lemma qrz_missing_callsign_passes_through_witness :
  qrz.Lookup (stub.qrzEnv (stub.qrzServer stub.bodySessionKey stub.bodyMissingCall))
    stub.qrzReady "w1aw"
  = Done (ContactedStation.onlyCall "w1aw", None)
      [Sent stub.client (stub.qrzRequest "w1aw");
       Info "Callsign not found in QRZ.com database"].
Proof.
  destruct (qrz_missing_callsign_passes_through
              (@stub_qrz_decoded stub.bodyMissingCall stub.dbMissingCall "w1aw" eq_refl)
              (lg := TheLogger) eq_refl eq_refl eq_refl) as [Hctx Hlookup].
  rewrite Hlookup. exact Hctx.
Defined.

(** X17.  The XML adapter has no not-found status: any answer outside
    [200,300), 404 included, is an upstream error whose text contains the
    decimal status code and the body, returned with the zero record; the
    body is not decoded. *)
Theorem qrz_status_classification
  (E : qrz.Env) (s : qrz.Service) (ctx : option Context) (callsign : string)
  (cl : Client) (req : Request) (resp : Response) :
  qrz.answered E s ctx callsign cl req resp ->
  StatusCode resp < 200 \/ 300 <= StatusCode resp ->
  exists e,
    qrz.LookupWithContext E s ctx callsign
    = Done (ContactedStation.zero, Some e) [Sent cl req] /\
    ~ NotFoundError e /\
    Error e = "Service returned unexpected status " ++ Itoa (StatusCode resp)
              ++ ": " ++ Body resp /\
    strings.Contains (Error e) (Itoa (StatusCode resp)) = true /\
    strings.Contains (Error e) (Body resp) = true.
Proof.
  intros Hans Hout. rewrite (qrz_answered_unfold Hans). cbv zeta.
  assert (Hb : (StatusCode resp <? 200) || (300 <=? StatusCode resp) = true).
  { apply orb_true_iff. destruct Hout; [left; now apply Z.ltb_lt | right; now apply Z.leb_le]. }
  rewrite Hb. eexists. split; [reflexivity|].
  split; [unfold NotFoundError; simpl; discriminate|].
  unfold Error. split; [reflexivity|].
  split; [apply Contains_infix | apply Contains_skip, Contains_skip, Contains_tail].
Qed.

Lemma qrz_status_classification_witness :
  exists e,
    qrz.LookupWithContext (stub.qrzEnv (stub.answering 404 stub.bodySuccess))
      stub.qrzReady None "aa7bq"
    = Done (ContactedStation.zero, Some e) [Sent stub.client (stub.qrzRequest "aa7bq")] /\
    ~ NotFoundError e /\ strings.Contains (Error e) "404" = true.
Proof.
  assert (Hans : qrz.answered (stub.qrzEnv (stub.answering 404 stub.bodySuccess))
                   stub.qrzReady None "aa7bq" stub.client (stub.qrzRequest "aa7bq")
                   (mkResponse 404 stub.bodySuccess None)).
  { exists (stub.config true), (mkURL "http" "example.test" "" []). repeat split. }
  destruct (qrz_status_classification Hans) as (e & Heq & Hnf & _ & Hcode & _);
    [right; simpl; lia|].
  exists e. split; [exact Heq|]. split; [exact Hnf | exact Hcode].
Defined.

(* ------------------------------------------------------------------ *)
(** ** The JSON adapter: zones and derived offsets *)

(** What [strconv.Itoa] prints reads back as the number. *)
Lemma readDecimal_Itoa (z : Z) : readDecimal (Itoa z) = Some z.
Proof.
  unfold readDecimal, Itoa. rewrite NilZero.isi.
  - simpl. now rewrite DecimalZ.of_to.
  - destruct z; simpl; try discriminate.
    intro H. injection H as H. now apply Unsigned.to_uint_nonnil in H.
  - destruct z; simpl; try discriminate.
    intro H. injection H as H. now apply Unsigned.to_uint_nonnil in H.
Qed.

Lemma Itoa_nonempty (z : Z) : Itoa z <> "".
Proof.
  intro H. pose proof (readDecimal_Itoa z) as Hr. rewrite H in Hr. discriminate.
Qed.

(** X18.  Zone fields of the JSON adapter: in a record decoded without
    error the CQ and ITU zone strings are empty exactly when the payload's
    number is zero, and otherwise are the decimal numeral of that number
    (reading the string back gives the number). *)
Theorem hamnut_zone_strings
  (E : hamnut.Env) (body : string) (payload : hamnut.PrefixLookupResponse)
  (country : Country.t) :
  hamnut.json_Unmarshal E body = Ok payload ->
  hamnut.unmarshalResponse E body = (country, None) ->
  (Country.CQZone country = "" <-> hamnut.CQZone payload = 0) /\
  (hamnut.CQZone payload <> 0 ->
   readDecimal (Country.CQZone country) = Some (hamnut.CQZone payload)) /\
  (Country.ITUZone country = "" <-> hamnut.ITUZone payload = 0) /\
  (hamnut.ITUZone payload <> 0 ->
   readDecimal (Country.ITUZone country) = Some (hamnut.ITUZone payload)).
Proof.
  intros Hdec. unfold hamnut.unmarshalResponse. rewrite Hdec.
  destruct (negb (hamnut.Found payload)); [discriminate|].
  intro H. injection H as <-. simpl.
  destruct (Z.eqb_spec (hamnut.CQZone payload) 0) as [Hcq|Hcq];
    destruct (Z.eqb_spec (hamnut.ITUZone payload) 0) as [Hitu|Hitu]; simpl;
    repeat split; intros; try congruence; try apply readDecimal_Itoa;
    exfalso; eapply Itoa_nonempty; eassumption.
Qed.

Lemma hamnut_zone_strings_witness :
  readDecimal
    (Country.CQZone
       (fst (hamnut.unmarshalResponse (stub.hamnutEnv (stub.answering 200 ""))
               stub.bodyLocalTime)))
  = Some 14.
Proof.
  destruct (@hamnut_zone_strings (stub.hamnutEnv (stub.answering 200 ""))
              stub.bodyLocalTime stub.respLocalTime _ eq_refl eq_refl)
    as (_ & Hcq & _).
  apply Hcq. discriminate.
Defined.

Lemma length_signHHMM (off : Z) : String.length (spec.signHHMM off) = 6%nat.
Proof. unfold spec.signHHMM, spec.twoDigits. now destruct (off <? 0). Qed.

(** X19.  When the payload has no explicit offset, the offset the JSON
    adapter derives from the local time is either empty or exactly six
    characters long, whatever the local time holds (with [time.Parse] as
    in Go: see [goTime]). *)
Theorem hamnut_derived_offset_length
  (E : hamnut.Env) (resp : hamnut.PrefixLookupResponse) :
  goTime (hamnut.time_Parse_RFC3339 E) ->
  hamnut.TimeOffset resp = "" ->
  let out := hamnut.resolveTimeOffset E resp in
  (out = "" \/ String.length out = 6%nat) /\
  ((6 <= String.length (hamnut.LocalTime resp))%nat -> String.length out = 6%nat).
Proof.
  intros [Hempty Hrange] Hto out. subst out.
  destruct (string_dec (hamnut.LocalTime resp) "") as [Hl|Hl].
  { rewrite resolveTimeOffset_nothing by assumption. split; [now left|].
    rewrite Hl. simpl. lia. }
  rewrite resolveTimeOffset_derived by assumption.
  destruct (hamnut.time_Parse_RFC3339 E (hamnut.LocalTime resp)) as [off|] eqn:Hp.
  - rewrite formatOffset_signHHMM by (eapply Hrange, Hp).
    rewrite length_signHHMM. split; [now right | reflexivity].
  - destruct (Nat.leb_spec 6 (String.length (hamnut.LocalTime resp))) as [Hlen|Hlen].
    + destruct (@suffix_lastChars 6 _ Hlen) as [H6 _]. split; [now right | now intros _].
    + split; [now left | lia].
Qed.

Lemma hamnut_derived_offset_length_witness :
  String.length
    (hamnut.resolveTimeOffset (stub.hamnutEnv (stub.answering 200 "")) stub.respLocalTime)
  = 6%nat.
Proof.
  refine (proj2 (@hamnut_derived_offset_length
                   (stub.hamnutEnv (stub.answering 200 "")) stub.respLocalTime
                   parseRFC3339_goTime eq_refl) _).
  simpl. lia.
Defined.

(* ------------------------------------------------------------------ *)
(** ** The classifier of network failures *)

Lemma value_induction (P : goerrors.value -> Prop) :
  (forall t inner, Forall P inner -> P (goerrors.Node t inner)) ->
  forall e, P e.
Proof.
  intros H. fix IH 1. intros [t inner]. apply H.
  induction inner as [|x inner IHinner]; constructor; [apply IH | exact IHinner].
Qed.

Lemma walk_self (e : goerrors.value) : In e (goerrors.walk e).
Proof. destruct e. simpl. now left. Qed.

Lemma height_inner (t : goerrors.dyn) (inner : list goerrors.value) (y : goerrors.value) :
  In y inner -> (goerrors.height y < goerrors.height (goerrors.Node t inner))%nat.
Proof.
  intro Hy. simpl.
  assert (H : (list_max (map goerrors.height inner) <= list_max (map goerrors.height inner))%nat)
    by lia.
  apply list_max_le in H. rewrite Forall_forall in H.
  specialize (H (goerrors.height y) (in_map _ _ _ Hy)). lia.
Qed.

(** An error visited in the tree of [e] is no higher than [e], and what
    is visited from it is visited from [e]. *)
Lemma walk_below (e : goerrors.value) :
  forall x, In x (goerrors.walk e) ->
    (goerrors.height x <= goerrors.height e)%nat /\
    incl (goerrors.walk x) (goerrors.walk e).
Proof.
  induction e as [t inner IH] using value_induction.
  intros x Hx. simpl in Hx. destruct Hx as [<- | Hx].
  - split; [lia | apply incl_refl].
  - apply in_flat_map in Hx. destruct Hx as (y & Hy & Hxy).
    rewrite Forall_forall in IH. destruct (IH y Hy x Hxy) as [Hh Hincl].
    split.
    + pose proof (height_inner t inner y Hy). lia.
    + intros z Hz. simpl. right. apply in_flat_map. exists y. split; [exact Hy|].
      now apply Hincl.
Qed.

Lemma walk_inner (x y : goerrors.value) :
  hd_error (goerrors.Unwrap x) = Some y ->
  (goerrors.height y < goerrors.height x)%nat /\
  incl (goerrors.walk y) (goerrors.walk x).
Proof.
  destruct x as [t [|y' inner]]; simpl; [discriminate|].
  intro H. injection H as ->. split.
  - apply (height_inner t (y :: inner) y). now left.
  - intros z Hz. right. apply in_or_app. now left.
Qed.

Lemma height_positive (e : goerrors.value) : (0 < goerrors.height e)%nat.
Proof. destruct e. simpl. lia. Qed.

Lemma find_none_existsb (A : Type) (p : A -> bool) (l : list A) :
  List.find p l = None -> existsb p l = false.
Proof.
  induction l as [|a l IH]; simpl; [reflexivity|].
  destruct (p a); [discriminate | exact IH].
Qed.

Lemma existsb_false_In (A : Type) (p : A -> bool) (l : list A) (x : A) :
  existsb p l = false -> In x l -> p x = false.
Proof.
  intros H Hx. destruct (p x) eqn:Hp; [|reflexivity].
  assert (existsb p l = true) by (apply existsb_exists; eauto). congruence.
Qed.

Section Classifier.

Variable netError : goerrors.dyn -> bool.
Variables ECONNREFUSED ENETUNREACH EHOSTUNREACH : Z.

Local Abbreviation within := (network.IsNetworkErrorWithin netError ECONNREFUSED ENETUNREACH EHOSTUNREACH).
Local Abbreviation typed := (network.typed netError).
Local Abbreviation listed := (network.listed ECONNREFUSED ENETUNREACH EHOSTUNREACH).
Local Abbreviation networkish := (network.networkish netError ECONNREFUSED ENETUNREACH EHOSTUNREACH).

(** The three errno checks together look for a listed errno. *)
Lemma Is_listed (e : goerrors.value) :
  goerrors.Is e ECONNREFUSED || goerrors.Is e ENETUNREACH || goerrors.Is e EHOSTUNREACH
  = existsb (fun x => listed (goerrors.typeOf x)) (goerrors.walk e).
Proof.
  unfold goerrors.Is. induction (goerrors.walk e) as [|x l IH]; simpl; [reflexivity|].
  rewrite <- IH. unfold network.listed.
  destruct (goerrors.typeOf x); simpl; try reflexivity.
  destruct (n =? ECONNREFUSED), (n =? ENETUNREACH), (n =? EHOSTUNREACH); simpl;
    repeat rewrite orb_true_r; try reflexivity;
    repeat (destruct (existsb _ l); simpl; try reflexivity).
Qed.

(** The three [errors.As] checks together look for a typed error. *)
Lemma As_typed (e : goerrors.value) :
  goerrors.As netError e = None -> goerrors.As goerrors.isDNSError e = None ->
  goerrors.As goerrors.isOpError e = None ->
  existsb (fun x => typed (goerrors.typeOf x)) (goerrors.walk e) = false.
Proof.
  unfold goerrors.As. intros H1 H2 H3.
  apply find_none_existsb in H1, H2, H3.
  induction (goerrors.walk e) as [|x l IH]; simpl in *; [reflexivity|].
  apply orb_false_iff in H1, H2, H3. destruct H1 as [A1 B1], H2 as [A2 B2], H3 as [A3 B3].
  unfold network.typed at 1. rewrite A1, A2, A3. simpl. now apply IH.
Qed.

Lemma As_found (fits : goerrors.dyn -> bool) (e x : goerrors.value) :
  goerrors.As fits e = Some x -> In x (goerrors.walk e) /\ fits (goerrors.typeOf x) = true.
Proof. unfold goerrors.As. intro H. now apply find_some in H. Qed.

(** With enough depth the function returns; its answer is true only when
    a network-like error is in the tree, and is true whenever a typed one
    is. *)
Lemma within_decides (depth : nat) :
  forall err, (goerrors.depthOf err < depth)%nat ->
  exists b,
    within depth err = Some b /\
    (b = true ->
     exists x, In x (goerrors.nodes err) /\ networkish (goerrors.typeOf x) = true) /\
    (forall x, In x (goerrors.nodes err) -> typed (goerrors.typeOf x) = true -> b = true).
Proof.
  induction depth as [|depth IH]; intros err Hd; [lia|].
  destruct err as [e|]; simpl.
  2:{ exists false. split; [reflexivity|]. split; [discriminate | intros x []]. }
  assert (Hyes : forall fits x,
             (forall t, fits t = true -> typed t = true) ->
             goerrors.As fits e = Some x ->
             exists b, Some true = Some b /\
               (b = true -> exists x0, In x0 (goerrors.walk e) /\
                                       networkish (goerrors.typeOf x0) = true) /\
               (forall x0, In x0 (goerrors.walk e) ->
                           typed (goerrors.typeOf x0) = true -> b = true)).
  { intros fits x Hfits Hx. apply As_found in Hx. destruct Hx as [Hin Hf].
    exists true. split; [reflexivity|]. split; [|reflexivity].
    intros _. exists x. split; [exact Hin|].
    unfold network.networkish. now rewrite (Hfits _ Hf). }
  destruct (goerrors.As netError e) as [x1|] eqn:H1.
  { apply (Hyes netError x1); [|exact H1].
    intros t Ht. unfold network.typed. now rewrite Ht. }
  destruct (goerrors.As goerrors.isDNSError e) as [x2|] eqn:H2.
  { apply (Hyes goerrors.isDNSError x2); [|exact H2].
    intros t Ht. unfold network.typed. rewrite Ht. now rewrite orb_true_r. }
  destruct (goerrors.As goerrors.isOpError e) as [x3|] eqn:H3.
  { apply (Hyes goerrors.isOpError x3); [|exact H3].
    intros t Ht. unfold network.typed. rewrite Ht. now rewrite orb_true_r. }
  pose proof (As_typed e H1 H2 H3) as Hnone.
  assert (Hty : forall x, In x (goerrors.walk e) -> typed (goerrors.typeOf x) = true -> False).
  { intros x Hx Ht.
    rewrite (existsb_false_In (fun x => typed (goerrors.typeOf x)) _ x Hnone Hx) in Ht.
    discriminate. }
  destruct (goerrors.As goerrors.isURLError e) as [u|] eqn:H4.
  - apply As_found in H4. destruct H4 as [Hu _].
    destruct (walk_below e u Hu) as [Hh Hincl].
    simpl in Hd.
    assert (Hdepth : (goerrors.depthOf (hd_error (goerrors.Unwrap u)) < depth)%nat).
    { destruct (hd_error (goerrors.Unwrap u)) as [y|] eqn:Hy; simpl.
      - apply walk_inner in Hy. lia.
      - pose proof (height_positive e). lia. }
    destruct (IH _ Hdepth) as (b & Hb & Hsound & _).
    exists b. split; [exact Hb|]. split.
    + intro Hbt. destruct (Hsound Hbt) as (x & Hx & Hn).
      exists x. split; [|exact Hn].
      destruct (hd_error (goerrors.Unwrap u)) as [y|] eqn:Hy; [|destruct Hx].
      apply walk_inner in Hy. destruct Hy as [_ Hyincl].
      apply Hincl, Hyincl, Hx.
    + intros x Hx Ht. exfalso. eapply Hty; eassumption.
  - eexists. split; [reflexivity|]. split.
    + rewrite Is_listed. intro Hl. apply existsb_exists in Hl.
      destruct Hl as (x & Hx & Hl). exists x. split; [exact Hx|].
      unfold network.networkish. rewrite Hl. apply orb_true_r.
    + intros x Hx Ht. exfalso. eapply Hty; eassumption.
Qed.

(** On a chain the answer is exactly whether a network-like error is in
    it. *)
Lemma chain_walk (e : goerrors.value) :
  goerrors.chain e ->
  forall u, goerrors.As goerrors.isURLError e = Some u ->
    existsb (fun x => listed (goerrors.typeOf x)) (goerrors.walk e)
    = existsb (fun x => listed (goerrors.typeOf x))
        (goerrors.nodes (hd_error (goerrors.Unwrap u))) /\
    match hd_error (goerrors.Unwrap u) with
    | Some y => goerrors.chain y
    | None => True
    end.
Proof.
  unfold goerrors.As.
  induction 1 as [t | t x Ht Hx IH]; intros u; simpl.
  - destruct (goerrors.isURLError t) eqn:Hurl; [|discriminate].
    intro H. injection H as <-. simpl. split; [|exact I].
    destruct t; try discriminate. reflexivity.
  - rewrite app_nil_r.
    destruct (goerrors.isURLError t) eqn:Hurl.
    + intro H. injection H as <-. simpl. split; [|exact Hx].
      destruct t; try discriminate. reflexivity.
    + intro H. destruct (IH u H) as [Heq Hch]. split; [|exact Hch].
      rewrite <- Heq.
      assert (Hl : listed t = false).
      { destruct t as [| | |n|]; try reflexivity. now destruct (Ht n). }
      now rewrite Hl.
Qed.

Lemma within_chain (depth : nat) :
  forall e, (goerrors.height e < depth)%nat -> goerrors.chain e ->
  within depth (Some e)
  = Some (existsb (fun x => networkish (goerrors.typeOf x)) (goerrors.walk e)).
Proof.
  induction depth as [|depth IH]; intros e Hd Hch; [lia|].
  destruct (within_decides (depth := S depth) (Some e) Hd) as (b & Hb & Hsound & Hcomplete).
  destruct (existsb (fun x => typed (goerrors.typeOf x)) (goerrors.walk e)) eqn:Hty.
  { apply existsb_exists in Hty. destruct Hty as (x & Hx & Ht).
    rewrite Hb, (Hcomplete x Hx Ht). f_equal. symmetry.
    apply existsb_exists. exists x. split; [exact Hx|].
    unfold network.networkish. now rewrite Ht. }
  assert (Hnet : existsb (fun x => networkish (goerrors.typeOf x)) (goerrors.walk e)
                 = existsb (fun x => listed (goerrors.typeOf x)) (goerrors.walk e)).
  { clear - Hty. induction (goerrors.walk e) as [|x l IHl]; simpl in *; [reflexivity|].
    apply orb_false_iff in Hty. destruct Hty as [Hx Hl].
    unfold network.networkish at 1. rewrite Hx. simpl. now rewrite IHl. }
  assert (Hfind : forall fits, (forall t, fits t = true -> typed t = true) ->
                               goerrors.As fits e = None).
  { intros fits Hfits. unfold goerrors.As.
    destruct (find (fun x => fits (goerrors.typeOf x)) (goerrors.walk e)) as [x|] eqn:Hf;
      [|reflexivity].
    apply find_some in Hf. destruct Hf as [Hx Hf].
    pose proof (Hfits _ Hf) as Ht.
    rewrite (existsb_false_In (fun x => typed (goerrors.typeOf x)) _ x Hty Hx) in Ht.
    discriminate. }
  assert (F1 : goerrors.As netError e = None).
  { apply Hfind. intros t Ht. unfold network.typed. now rewrite Ht. }
  assert (F2 : goerrors.As goerrors.isDNSError e = None).
  { apply Hfind. intros t Ht. unfold network.typed. rewrite Ht. now rewrite orb_true_r. }
  assert (F3 : goerrors.As goerrors.isOpError e = None).
  { apply Hfind. intros t Ht. unfold network.typed. rewrite Ht. now rewrite orb_true_r. }
  simpl. rewrite F1, F2, F3, Hnet.
  destruct (goerrors.As goerrors.isURLError e) as [u|] eqn:H4.
  - destruct (@chain_walk e Hch u H4) as [Heq Hin]. rewrite Heq.
    pose proof H4 as Hu. apply As_found in Hu. destruct Hu as [Hu _].
    destruct (walk_below e u Hu) as [Hh Hincl].
    destruct (hd_error (goerrors.Unwrap u)) as [y|] eqn:Hy.
    + pose proof (@walk_inner u y Hy) as [Hlt Hyincl].
      rewrite (IH y); [|lia|exact Hin]. f_equal. simpl.
      assert (Hty' : existsb (fun x => typed (goerrors.typeOf x)) (goerrors.walk y) = false).
      { destruct (existsb (fun x => typed (goerrors.typeOf x)) (goerrors.walk y)) eqn:Hq;
          [|reflexivity].
        apply existsb_exists in Hq. destruct Hq as (x & Hx & Ht).
        rewrite (existsb_false_In (fun x => typed (goerrors.typeOf x)) _ x Hty) in Ht;
          [discriminate|]. apply Hincl, Hyincl, Hx. }
      clear - Hty'. induction (goerrors.walk y) as [|x l IHl]; simpl in *; [reflexivity|].
      apply orb_false_iff in Hty'. destruct Hty' as [Hx Hl].
      unfold network.networkish at 1. rewrite Hx. simpl. now rewrite IHl.
    + simpl. destruct depth; [pose proof (height_positive e); lia | reflexivity].
  - now rewrite Is_listed.
Qed.

(** More depth does not change an answer. *)
Lemma within_more (d : nat) :
  forall err b, within d err = Some b -> forall d', (d <= d')%nat -> within d' err = Some b.
Proof.
  induction d as [|d IH]; intros err b H d' Hd; [discriminate|].
  destruct d' as [|d']; [lia|]. simpl in *.
  destruct err as [e|]; [|exact H].
  destruct (goerrors.As netError e); [exact H|].
  destruct (goerrors.As goerrors.isDNSError e); [exact H|].
  destruct (goerrors.As goerrors.isOpError e); [exact H|].
  destruct (goerrors.As goerrors.isURLError e); [|exact H].
  apply (IH _ _ H). lia.
Qed.

End Classifier.

(** X20.  [IsNetworkError] always returns (its calls on [urlErr.Err] go
    strictly down the error tree), with the same answer at any sufficient
    depth.  It is false for nil; it is true whenever any error of the tree
    implements [net.Error] or is a DNS or operation error; and it is true
    only when the tree holds such an error or one of the three errno
    values: an error built from other types alone is never a network
    error. *)
Theorem IsNetworkError_decides
  (netError : goerrors.dyn -> bool) (ECONNREFUSED ENETUNREACH EHOSTUNREACH : Z)
  (err : option goerrors.value) :
  exists b,
    network.IsNetworkError netError ECONNREFUSED ENETUNREACH EHOSTUNREACH err = Some b /\
    (forall depth, (goerrors.depthOf err < depth)%nat ->
       network.IsNetworkErrorWithin netError ECONNREFUSED ENETUNREACH EHOSTUNREACH
         depth err = Some b) /\
    (err = None -> b = false) /\
    (forall x, In x (goerrors.nodes err) ->
       network.typed netError (goerrors.typeOf x) = true -> b = true) /\
    (b = true ->
     exists x, In x (goerrors.nodes err) /\
       network.networkish netError ECONNREFUSED ENETUNREACH EHOSTUNREACH
         (goerrors.typeOf x) = true).
Proof.
  unfold network.IsNetworkError.
  destruct (@within_decides netError ECONNREFUSED ENETUNREACH EHOSTUNREACH
              (S (goerrors.depthOf err)) err (Nat.lt_succ_diag_r _))
    as (b & Hb & Hsound & Hcomplete).
  exists b. split; [exact Hb|]. split; [|split; [|split]].
  - intros depth Hd. eapply within_more; [exact Hb | lia].
  - intros ->. simpl in Hb. now injection Hb as <-.
  - exact Hcomplete.
  - exact Hsound.
Qed.

(** X21.  On an error built by wrapping alone (each error unwraps to at
    most one, an errno to none) [IsNetworkError] is exactly the test
    whether some error of the chain implements [net.Error], is a DNS or
    operation error, or is one of the three errno values: looking inside
    a [*url.Error] first changes nothing. *)
Theorem IsNetworkError_on_chains
  (netError : goerrors.dyn -> bool) (ECONNREFUSED ENETUNREACH EHOSTUNREACH : Z)
  (e : goerrors.value) :
  goerrors.chain e ->
  network.IsNetworkError netError ECONNREFUSED ENETUNREACH EHOSTUNREACH (Some e)
  = Some (existsb
            (fun x => network.networkish netError ECONNREFUSED ENETUNREACH EHOSTUNREACH
                        (goerrors.typeOf x))
            (goerrors.walk e)).
Proof.
  intro Hch. unfold network.IsNetworkError.
  apply within_chain; [simpl; lia | exact Hch].
Qed.

Lemma IsNetworkError_on_chains_witness :
  network.IsNetworkError gofixture.netError 111 101 113 (Some (gofixture.refused 111))
  = Some true.
Proof.
  apply (@IsNetworkError_on_chains gofixture.netError 111 101 113 (gofixture.refused 111)).
  unfold gofixture.refused.
  repeat (apply goerrors.chain_wrap; [discriminate|]). apply goerrors.chain_leaf.
Defined.

(* ------------------------------------------------------------------ *)
(** ** The provider factory *)

(** X22.  The factory builds a provider for exactly one name, that of the
    JSON adapter; any other name gives an error (and [MustProvider]
    panics with it) without reading the factory.  The provider it builds
    is not ready: every lookup on it fails as not initialized and sends
    nothing.  Its first [Initialize] can only succeed when the factory
    was given both a logger and a configuration service, and then the
    configuration is the one that service holds under the adapter's name
    (URL and user agent trimmed when enabled) and, when enabled, the
    client is one the adapter built itself with the configured timeout. *)
Theorem factory_provider
  (E : hamnut.Env) (Quote : string -> string) (f : lookup.ServiceFactory)
  (name : string) :
  (name <> HamNutLookupServiceName ->
   exists e,
     Error e = "unsupported lookup provider " ++ Quote name /\
     forall f',
       lookup.NewProvider Quote f' name = Done (None, Some e) [] /\
       lookup.MustProvider Quote f' name = Panic (Error e)) /\
  (name = HamNutLookupServiceName ->
   exists p,
     lookup.NewProvider Quote (Some f) name = Done (Some p, None) [] /\
     lookup.MustProvider Quote (Some f) name = Done (Some p) [] /\
     (forall ctx callsign,
        exists e,
          hamnut.LookupWithContext E p ctx callsign = Done (Country.zero, Some e) [] /\
          NotInitializedError e) /\
     (forall s' evs,
        hamnut.Initialize E p = (None, s', evs) ->
        exists lg cs cfg0 cfg,
          lookup.logger f = Some lg /\ lookup.config f = Some cs /\
          cs HamNutLookupServiceName = Ok cfg0 /\
          hamnut.isInitialized s' = true /\
          hamnut.Config s' = Some cfg /\
          (Enabled cfg0 = false -> cfg = cfg0 /\ hamnut.client s' = None) /\
          (Enabled cfg0 = true ->
           validated (hamnut.net E) HttpTimeoutSec cfg /\
           URL cfg = strings.TrimSpace (URL cfg0) /\
           UserAgent cfg = strings.TrimSpace (UserAgent cfg0) /\
           hamnut.client s'
           = Some (NewHTTPClient (wrap64 (HttpTimeoutSec cfg * Second)))))).
Proof.
  split.
  - intro Hname. apply String.eqb_neq in Hname.
    eexists. split; [|intro f'; unfold lookup.MustProvider, lookup.NewProvider;
                      rewrite Hname; split; reflexivity].
    reflexivity.
  - intros ->. eexists.
    unfold lookup.MustProvider, lookup.NewProvider. rewrite String.eqb_refl.
    split; [reflexivity|]. split; [reflexivity|]. split.
    + intros ctx callsign. eexists. split; [reflexivity|]. now eexists.
    + intros s' evs H.
      destruct (@hamnut_Initialize_ok E
                (hamnut.NewService (lookup.logger f) (lookup.config f) None None)
                s' evs eq_refl eq_refl H)
        as (s0 & sv & cfg & Hlog & Hres & Hval & Hcfg & Hcases).
      destruct (hamnut_resolveConfig_ok _ _ Hres) as (cfg0 & Hc0 & Hs0 & _ & Hsvc).
      destruct (Hsvc eq_refl) as (cs & Hcs & Hget).
      destruct (@hamnut_validateConfig_ok E _ _ _ Hval)
        as (c & c' & Hc & Hc' & Hsv & Hen & Hoff & Hon).
      assert (c = cfg0) by congruence. subst c.
      assert (c' = cfg) by congruence. subst c'.
      assert (Hclient : hamnut.client sv = None) by (rewrite Hsv, Hs0; reflexivity).
      simpl in Hlog, Hcs.
      destruct (lookup.logger f) as [lg|] eqn:Hlg; [|now destruct Hlog].
      exists lg, cs, cfg0, cfg.
      split; [reflexivity|]. split; [exact Hcs|]. split; [exact Hget|].
      destruct Hcases as [(_ & Hen' & _ & ->) | [(_ & Hen' & _ & ->) | (Hcl & _)]];
        [| |now destruct Hcl].
      * split; [reflexivity|]. split; [exact Hcfg|]. split.
        -- intro Hd. congruence.
        -- intro He. destruct (Hon He) as (Hv & Hu & Ha).
           split; [exact Hv|]. split; [exact Hu|]. split; [exact Ha|]. reflexivity.
      * split; [reflexivity|]. split; [exact Hcfg|]. split.
        -- intro Hd. split; [now apply Hoff | exact Hclient].
        -- intro He. congruence.
Qed.


Lemma factory_provider_witness :
  exists p,
    lookup.NewProvider quoting.Quote
      (Some (lookup.NewServiceFactory stub.logger (stub.configService fixture.paddedConfig)))
      HamNutLookupServiceName
    = Done (Some p, None) [].
Proof.
  destruct (proj2 (@factory_provider (stub.hamnutEnv (stub.answering 200 ""))
                     quoting.Quote
                     (lookup.NewServiceFactory stub.logger
                        (stub.configService fixture.paddedConfig))
                     HamNutLookupServiceName) eq_refl)
    as (p & H & _).
  now exists p.
Defined.

(* ------------------------------------------------------------------ *)
(** ** Parsing the local time and printing its offset *)

Lemma digit_of_char (c : ascii) :
  time.isDigit c = true ->
  let d := Z.of_nat (nat_of_ascii c - 48) in
  0 <= d <= 9 /\ spec.digit d = c.
Proof.
  unfold time.isDigit. cbv zeta. intro H. apply andb_true_iff in H. destruct H as [Hlo Hhi].
  apply Nat.leb_le in Hlo, Hhi. split; [lia|].
  unfold spec.digit. rewrite Nat2Z.id.
  replace (48 + (nat_of_ascii c - 48))%nat with (nat_of_ascii c) by lia.
  apply ascii_nat_embedding.
Qed.

(** Two digit characters read as a number print back as themselves. *)
Lemma twoDigits_parseUint (a b : ascii) (lo hi x : Z) :
  time.parseUint (String a (String b "")) lo hi = Some x ->
  0 <= x <= 99 /\ spec.twoDigits x = String a (String b "").
Proof.
  unfold time.parseUint. simpl.
  destruct (time.isDigit a) eqn:Ha; [|discriminate].
  destruct (time.isDigit b) eqn:Hb; [|discriminate].
  destruct (_ || _); [discriminate|]. intro H. injection H as <-.
  destruct (digit_of_char a Ha) as [Hra Hda], (digit_of_char b Hb) as [Hrb Hdb].
  cbv zeta in *.
  set (da := Z.of_nat (nat_of_ascii a - 48)) in *.
  set (db := Z.of_nat (nat_of_ascii b - 48)) in *.
  split; [lia|]. unfold spec.twoDigits.
  replace ((0 * 10 + da) * 10 + db) with (da * 10 + db) by lia.
  replace ((da * 10 + db) / 10) with da by (Z.div_mod_to_equations; lia).
  replace ((da * 10 + db) mod 10) with db by (Z.div_mod_to_equations; lia).
  now rewrite Hda, Hdb.
Qed.

(** A numeric zone that reads as a nonzero offset prints back as itself. *)
Lemma parseZone_signHHMM (zone : string) (off : Z) :
  time.parseZone zone = Some off ->
  (off = 0 \/ (String.length zone = 6%nat /\ spec.signHHMM off = zone)).
Proof.
  unfold time.parseZone.
  destruct (String.eqb zone "Z"); [intro H; injection H as <-; now left|].
  destruct (Nat.eqb_spec (String.length zone) 6) as [Hlen|]; [|discriminate]. simpl negb.
  cbv iota.
  destruct zone as [|c0 [|h1 [|h2 [|c3 [|m1 [|m2 [|]]]]]]]; try discriminate.
  change (substring 1 2 (String c0 (String h1 (String h2 (String c3 (String m1 (String m2 "")))))))
    with (String h1 (String h2 "")).
  change (substring 4 2 (String c0 (String h1 (String h2 (String c3 (String m1 (String m2 "")))))))
    with (String m1 (String m2 "")).
  destruct (time.parseUint (String h1 (String h2 "")) 0 23) as [hr|] eqn:Hhr; [|discriminate].
  destruct (time.parseUint (String m1 (String m2 "")) 0 59) as [mm|] eqn:Hmm; [|discriminate].
  pose proof (parseUint_range _ _ _ Hhr) as Rh.
  pose proof (parseUint_range _ _ _ Hmm) as Rm.
  apply twoDigits_parseUint in Hhr, Hmm. destruct Hhr as [_ Hhr], Hmm as [_ Hmm].
  unfold time.byteIs. simpl String.get.
  cbn [orb andb].
  destruct (Ascii.eqb c3 ":") eqn:H3; [|rewrite andb_false_r; discriminate].
  apply Ascii.eqb_eq in H3. subst c3. rewrite andb_true_r.
  destruct (Z.eq_dec off 0) as [Hz|Hnz]; [intros _; now left|].
  assert (Hprint : forall o, Z.abs o = (hr * 60 + mm) * 60 ->
            spec.twoDigits (Z.abs o / 3600) ++ ":" ++ spec.twoDigits ((Z.abs o / 60) mod 60)
            = String h1 (String h2 (String ":" (String m1 (String m2 ""))))).
  { intros o ->.
    replace ((hr * 60 + mm) * 60 / 3600) with hr by (Z.div_mod_to_equations; lia).
    replace (((hr * 60 + mm) * 60 / 60) mod 60) with mm by (Z.div_mod_to_equations; lia).
    rewrite Hhr, Hmm. reflexivity. }
  destruct (Ascii.eqb c0 "-") eqn:Hminus; simpl orb; cbv iota.
  - apply Ascii.eqb_eq in Hminus. subst c0.
    intro H. injection H as H. right. split; [reflexivity|].
    unfold spec.signHHMM. rewrite Hprint by lia.
    destruct (Z.ltb_spec off 0); [reflexivity | lia].
  - destruct (Ascii.eqb c0 "+") eqn:Hplus; [|discriminate].
    apply Ascii.eqb_eq in Hplus. subst c0.
    intro H. injection H as H. right. split; [reflexivity|].
    unfold spec.signHHMM. rewrite Hprint by lia.
    destruct (Z.ltb_spec off 0); [lia | reflexivity].
Qed.

Lemma dropDigits_suffix (s : string) : exists front, s = front ++ time.dropDigits s.
Proof.
  induction s as [|c s [front IH]]; simpl; [now exists ""|].
  destruct (time.isDigit c); [|now exists ""].
  exists (String c front). simpl. now rewrite <- IH.
Qed.

Lemma dropFraction_suffix (s : string) : exists front, s = front ++ time.dropFraction s.
Proof.
  unfold time.dropFraction.
  destruct s as [|c s']; [now exists ""|].
  destruct s' as [|d rest].
  - exists "". destruct c as [[] [] [] [] [] [] [] []]; reflexivity.
  - destruct (Ascii.eqb c ".") eqn:Hc.
    + apply Ascii.eqb_eq in Hc. subst c.
      destruct (time.isDigit d); [|now exists ""].
      destruct (dropDigits_suffix rest) as [front Hf].
      exists (String "." (String d front)). simpl. now rewrite <- Hf.
    + exists "". destruct c as [[] [] [] [] [] [] [] []]; try reflexivity; discriminate Hc.
Qed.

(** The last [length z] characters of [front ++ z] are [z]. *)
Lemma suffix_append (front z : string) :
  strings.suffix (String.length z) (front ++ z) = z.
Proof.
  unfold strings.suffix. rewrite length_append.
  replace (String.length front + String.length z - String.length z)%nat
    with (String.length front) by lia.
  induction front as [|c front IH]; simpl.
  - apply substring_whole.
  - exact IH.
Qed.

(** What the strict reader reads the offset from is the end of the text. *)
Lemma parseRFC3339_zone (v : string) (off : Z) :
  time.parseRFC3339 v = Some off ->
  exists front zone, v = front ++ zone /\ time.parseZone zone = Some off.
Proof.
  unfold time.parseRFC3339.
  destruct (Nat.ltb_spec (String.length v) 19) as [|Hlen]; [discriminate|].
  destruct (time.parseUint (substring 0 4 v) 0 9999) as [year|]; [|discriminate].
  destruct (time.parseUint (substring 5 2 v) 1 12) as [month|]; [|discriminate].
  destruct (time.parseUint (substring 8 2 v) 1 _); [|discriminate].
  destruct (time.parseUint (substring 11 2 v) 0 23); [|discriminate].
  destruct (time.parseUint (substring 14 2 v) 0 59); [|discriminate].
  destruct (time.parseUint (substring 17 2 v) 0 59); [|discriminate].
  destruct (_ && _); [|discriminate].
  intro Hz.
  destruct (@substring_drop 19 v Hlen) as (f1 & _ & Hv).
  destruct (dropFraction_suffix (substring 19 (String.length v - 19) v)) as (f2 & Hf).
  exists (f1 ++ f2), (time.dropFraction (substring 19 (String.length v - 19) v)).
  split; [|exact Hz].
  rewrite append_assoc, <- Hf. exact Hv.
Qed.

(** X23.  When the payload has no explicit offset and its local time is a
    timestamp that Go's strict RFC 3339 reader accepts, the offset the
    JSON adapter prints is the zone the timestamp ends with, character for
    character, unless the zone is zero (written as Z, +00:00 or -00:00),
    which is printed as +00:00.  So for a nonzero zone the parsed form and
    the last-six-characters fallback give the same text.  ([time.Parse]
    returns what the strict reader returns whenever that reader accepts
    the text; on other text it goes on to its lenient reader, about which
    nothing is said here.) *)
Theorem hamnut_parsed_offset_is_suffix
  (E : hamnut.Env) (resp : hamnut.PrefixLookupResponse) (off : Z) :
  (forall v o, time.parseRFC3339 v = Some o -> hamnut.time_Parse_RFC3339 E v = Some o) ->
  hamnut.TimeOffset resp = "" ->
  time.parseRFC3339 (hamnut.LocalTime resp) = Some off ->
  hamnut.resolveTimeOffset E resp
  = if off =? 0 then "+00:00" else strings.suffix 6 (hamnut.LocalTime resp).
Proof.
  intros HE Hto Hp.
  assert (Hne : hamnut.LocalTime resp <> "").
  { intro H. rewrite H in Hp. discriminate. }
  rewrite resolveTimeOffset_derived by assumption.
  rewrite (HE _ _ Hp).
  rewrite formatOffset_signHHMM by (eapply (proj2 parseRFC3339_goTime), Hp).
  destruct (parseRFC3339_zone _ Hp) as (front & zone & Hv & Hz).
  destruct (parseZone_signHHMM _ Hz) as [-> | [Hlen Hs]]; [reflexivity|].
  destruct (Z.eqb_spec off 0) as [->|_]; [reflexivity|].
  rewrite Hs, Hv, <- Hlen. symmetry. apply suffix_append.
Qed.

Lemma hamnut_parsed_offset_is_suffix_witness :
  hamnut.resolveTimeOffset (stub.hamnutEnv (stub.answering 200 "")) stub.respLocalTime
  = strings.suffix 6 (hamnut.LocalTime stub.respLocalTime).
Proof.
  exact (@hamnut_parsed_offset_is_suffix (stub.hamnutEnv (stub.answering 200 ""))
           stub.respLocalTime _ (fun v o H => H) eq_refl eq_refl).
Defined.
